(** * solr2es: a shallow embedding of the migration pipeline

    The development follows [solr2es/solr2es.py]: the JSON values that
    travel through the pipeline, [json.dumps], the transformer
    ([remove_arrays], [create_es_actions]), the cursor pager
    ([produce_results]), the two [migrate] methods, the Redis consumers and
    the resume entry points.

    Python exceptions are explicit results; calls to the collaborators
    (Solr, Elasticsearch, Redis, the logger) are recorded, in order, in a
    trace of events. *)

From Stdlib Require Import ZArith Lia List Ascii String DecimalString.
From stdpp Require Import gmap strings list.

Local Open Scope Z_scope.
Set Warnings "-register-all".

(** ** JSON values and [json.dumps] *)

(** Python values that reach the pipeline.  A [str] is a sequence of code
    points below 256 (one [ascii] each); floating point numbers are left
    out.  A [dict] keeps its insertion order and has pairwise distinct
    keys. *)
Inductive json : Type :=
| JNull
| JBool (b : bool)
| JInt (z : Z)
| JStr (s : string)
| JList (l : list json)
| JDict (d : list (string * json)).

Abbreviation pydict := (list (string * json)).

(** The line feed, as a character and as the separator of [str.join]. *)
Definition LF : ascii := ascii_of_nat 10.
Definition newline : string := String LF EmptyString.

Definition DQUOTE : ascii := ascii_of_nat 34.

Definition hex_digit (n : N) : ascii :=
  ascii_of_N (if (n <? 10)%N then 48 + n else 87 + n)%N.

(** [json.encoder.py_encode_basestring_ascii] on one character: the quote,
    the backslash and every character outside the printable range from the
    space to the tilde are replaced. *)
Definition escape_char (c : ascii) : string :=
  let n := N_of_ascii c in
  if (n =? 34)%N then String "\" (String DQUOTE EmptyString)
  else if (n =? 92)%N then "\\"
  else if (n =? 10)%N then "\n"
  else if (n =? 13)%N then "\r"
  else if (n =? 9)%N then "\t"
  else if (n =? 12)%N then "\f"
  else if (n =? 8)%N then "\b"
  else if ((n <? 32) || (126 <? n))%N
       then "\u00" +:+ String (hex_digit (n / 16)) (String (hex_digit (n mod 16)) EmptyString)
       else String c EmptyString.

Fixpoint escape_string (s : string) : string :=
  match s with
  | EmptyString => EmptyString
  | String c r => escape_char c +:+ escape_string r
  end.

Definition encode_string (s : string) : string :=
  String DQUOTE (escape_string s +:+ String DQUOTE EmptyString).

(** [int.__repr__]: decimal digits, with a leading minus sign. *)
Definition dumps_int (z : Z) : string := NilZero.string_of_int (Z.to_int z).

(** [json.dumps] with its default separators (comma space, colon space),
    keys in insertion order. *)
Fixpoint dumps (v : json) : string :=
  match v with
  | JNull => "null"
  | JBool true => "true"
  | JBool false => "false"
  | JInt z => dumps_int z
  | JStr s => encode_string s
  | JList l => "[" +:+ String.concat ", " (map dumps l) +:+ "]"
  | JDict d =>
      "{" +:+ String.concat ", "
                (map (fun kv => encode_string (fst kv) +:+ ": " +:+ dumps (snd kv)) d)
          +:+ "}"
  end.

(** ** Exceptions *)

Inductive exn : Type :=
| KeyError (key : string)
| IndexError
| ZeroDivisionError
| SourceError (msg : string)        (* raised by the Solr client *)
| DestinationError (msg : string)   (* raised by the Elasticsearch client *)
| QueueError (msg : string).        (* raised by the Redis client *)

(** The result of a pure Python expression: a value or a raised exception. *)
Inductive result (A : Type) : Type :=
| Ok (a : A)
| Raise (e : exn).
Arguments Ok {A} a.
Arguments Raise {A} e.

Definition rbind {A B} (r : result A) (k : A -> result B) : result B :=
  match r with
  | Ok a => k a
  | Raise e => Raise e
  end.

Notation "x <-? r ; k" := (rbind r (fun x => k))
  (at level 100, r at next level, right associativity).

(** ** Dictionaries *)

Fixpoint dict_get (k : string) (d : pydict) : option json :=
  match d with
  | [] => None
  | (k', v) :: r => if String.eqb k k' then Some v else dict_get k r
  end.

(** [d[k] = v]: an existing key keeps its position, a new key goes last. *)
Fixpoint dict_set (k : string) (v : json) (d : pydict) : pydict :=
  match d with
  | [] => [(k, v)]
  | (k', v') :: r =>
      if String.eqb k k' then (k', v) :: r else (k', v') :: dict_set k v r
  end.

(** [row[k]] *)
Definition getitem (row : pydict) (k : string) : result json :=
  match dict_get k row with
  | Some v => Ok v
  | None => Raise (KeyError k)
  end.

(** ** The transformer *)

Definition DEFAULT_ES_DOC_TYPE : string := "doc".

(** The inner function [filter] of [remove_arrays]: [value[0]] on a list,
    the value itself otherwise. *)
Definition remove_arrays_filter (value : json) : result json :=
  match value with
  | JList [] => Raise IndexError
  | JList (x :: _) => Ok x
  | _ => Ok value
  end.

(** The dict comprehension [{k: filter(v) for k, v in row.items()}], item by
    item onto the dict built so far. *)
Fixpoint remove_arrays_items (items : pydict) (acc : pydict) : result pydict :=
  match items with
  | [] => Ok acc
  | (k, v) :: r =>
      v' <-? remove_arrays_filter v;
      remove_arrays_items r (dict_set k v' acc)
  end.

Definition remove_arrays (row : pydict) : result pydict :=
  remove_arrays_items row [].

(** One element of the list [results_]: the write directive, then the body.
    The directive's [row['id']] is evaluated before [remove_arrays(row)]. *)
Definition es_action (index_name : string) (row : pydict) : result (json * json) :=
  id <-? getitem row "id";
  body <-? remove_arrays row;
  Ok (JDict [("index",
              JDict [("_index", JStr index_name);
                     ("_type", JStr DEFAULT_ES_DOC_TYPE);
                     ("_id", id)])],
      JDict body).

Fixpoint results_ (index_name : string) (solr_results : list pydict)
  : result (list (json * json)) :=
  match solr_results with
  | [] => Ok []
  | row :: rest =>
      a <-? es_action index_name row;
      r <-? results_ index_name rest;
      Ok (a :: r)
  end.

(** [itertools.chain( *results_ )] *)
Definition chain (l : list (json * json)) : list json :=
  flat_map (fun p => [fst p; snd p]) l.

Definition create_es_actions (index_name : string) (solr_results : list pydict)
  : result string :=
  rs <-? results_ index_name solr_results;
  Ok (String.concat newline (map dumps (chain rs))).

(** ** Collaborators, events and the monad of the pipeline *)

(** What [solr.search] returns (a pysolr [Results], or the decoded JSON body
    of the select handler): the documents, [nextCursorMark], and the number
    of hits ([numFound]). *)
Record solr_page : Type :=
  { docs : list pydict; nextCursorMark : string; hits : Z }.

(** One entry of the [items] list of a bulk response, and the response. *)
Record bulk_item : Type :=
  { item_id : string; item_status : Z; item_error : option string }.

Record bulk_response : Type :=
  { errors : bool; items : list bulk_item }.

(** The collaborators are deterministic but may be stateful: the answer to a
    Solr request or to a bulk write may depend on how many such calls came
    before it.  Each call returns or raises. *)
Record collaborators : Type :=
  { solr_search : nat -> string -> result solr_page;
    es_indices_exists : string -> result bool;
    es_indices_create : string -> option json -> result unit;
    es_bulk : nat -> string -> string -> result bulk_response;
    redis_lpush : string -> list string -> result unit }.

Inductive log_level : Type := INFO | WARNING.

Inductive log_arg : Type :=
| ArgInt (z : Z)
| ArgStr (s : string)
| ArgItem (i : bulk_item)
| ArgDiv (num den : Z).   (* the quotient num / den, den being non-zero *)

Inductive event : Type :=
| SolrSearch (cursorMark : string)
| IndicesExists (index : string)
| IndicesCreate (index : string) (body : option json)
| EsBulk (body index doc_type : string) (refresh : bool)
| RedisLpush (key : string) (values : list string)
| Log (level : log_level) (fmt : string) (args : list log_arg).

Record state : Type :=
  { searches : nat;                      (* Solr requests made so far *)
    bulks : nat;                         (* bulk writes made so far *)
    redis : gmap string (list string) }. (* the Redis lists, head first *)

Definition initial_state : state :=
  {| searches := 0; bulks := 0; redis := ∅ |}.

(** How a computation ends: with a value, with an exception, or not within
    the given number of loop iterations. *)
Inductive outcome (A : Type) : Type :=
| Returned (a : A)
| Raised (e : exn)
| Running.
Arguments Returned {A} a.
Arguments Raised {A} e.
Arguments Running {A}.

Definition M (A : Type) : Type := state -> list event * state * outcome A.

Definition ret {A} (a : A) : M A := fun s => ([], s, Returned a).

Definition bind {A B} (m : M A) (k : A -> M B) : M B :=
  fun s =>
    match m s with
    | (t1, s1, Returned a) =>
        match k a s1 with
        | (t2, s2, o) => (t1 ++ t2, s2, o)
        end
    | (t1, s1, Raised e) => (t1, s1, Raised e)
    | (t1, s1, Running) => (t1, s1, Running)
    end.

Notation "x <- m ;; k" := (bind m (fun x => k))
  (at level 100, m at next level, right associativity).
Notation "m ;; k" := (bind m (fun _ => k))
  (at level 100, right associativity).

Definition of_result {A} (r : result A) : outcome A :=
  match r with
  | Ok a => Returned a
  | Raise e => Raised e
  end.

Definition lift {A} (r : result A) : M A := fun s => ([], s, of_result r).

Definition emit (ev : event) : M unit := fun s => ([ev], s, Returned tt).

(** The state after one more Solr request, after one more bulk write, and
    after [LPUSH key v1 ... vn]: the values go to the head of the list one
    after the other, so the last one ends up first. *)
Definition after_search (s : state) : state :=
  {| searches := S (searches s); bulks := bulks s; redis := redis s |}.

Definition after_bulk (s : state) : state :=
  {| searches := searches s; bulks := S (bulks s); redis := redis s |}.

Definition queue (key : string) (s : state) : list string :=
  default [] (redis s !! key).

Definition after_lpush (key : string) (values : list string) (s : state) : state :=
  {| searches := searches s; bulks := bulks s;
     redis := <[key := rev values ++ queue key s]> (redis s) |}.

Definition len {A} (l : list A) : Z := Z.of_nat (length l).

(** [for x in l: body x] *)
Fixpoint for_list {A} (l : list A) (body : A -> M unit) : M unit :=
  match l with
  | [] => ret tt
  | x :: r => body x;; for_list r body
  end.

(** [for a in generator: b = body a b], the generator being given by its
    [next] (one step up to the following [yield], [None] when it is
    exhausted).  [fuel] bounds the number of calls to [next]. *)
Fixpoint for_in {A G B} (fuel : nat) (next : G -> M (option (A * G)))
    (body : A -> B -> M B) (g : G) (b : B) : M B :=
  match fuel with
  | O => fun s => ([], s, Running)
  | S fuel' =>
      r <- next g;;
      match r with
      | None => ret b
      | Some (a, g') => b' <- body a b;; for_in fuel' next body g' b'
      end
  end.

(** The local variables of [produce_results]: [kwargs['cursorMark']],
    [nb_results] and [nb_total]. *)
Record pager : Type :=
  { cursorMark : string; nb_results : Z; nb_total : Z }.

Definition pager_start : pager :=
  {| cursorMark := "*"; nb_results := 0; nb_total := 0 |}.

Definition QUEUE_KEY : string := "solr2es:queue".

Definition FMT_FOUND : string := "found %s documents".
Definition FMT_READ : string := "read %s docs of %s (%s %% done)".
Definition FMT_PROCESSED : string := "processed %s documents".

Section Calls.
Variable env : collaborators.

Definition search (cursor : string) : M solr_page :=
  fun s =>
    ([SolrSearch cursor], after_search s,
     of_result (solr_search env (searches s) cursor)).

Definition indices_exists (index : string) : M bool :=
  fun s => ([IndicesExists index], s, of_result (es_indices_exists env index)).

Definition indices_create (index : string) (body : option json) : M unit :=
  fun s => ([IndicesCreate index body], s, of_result (es_indices_create env index body)).

Definition bulk (body index doc_type : string) (refresh : bool) : M bulk_response :=
  fun s =>
    ([EsBulk body index doc_type refresh], after_bulk s,
     of_result (es_bulk env (bulks s) body index)).

Definition lpush (key : string) (values : list string) : M unit :=
  fun s =>
    ([RedisLpush key values],
     match redis_lpush env key values with
     | Ok _ => after_lpush key values s
     | Raise _ => s
     end,
     of_result (redis_lpush env key values)).

(** The progress line: its last argument [(100 * nb_results)/nb_total] is
    computed before the logger is called. *)
Definition log_read (nb_results nb_total : Z) : M unit :=
  if nb_total =? 0 then lift (Raise ZeroDivisionError)
  else emit (Log INFO FMT_READ
               [ArgInt nb_results; ArgInt nb_total; ArgDiv (100 * nb_results) nb_total]).

(** One turn of the [while] loop of [produce_results], which is what one
    [next] of the generator runs; the literal 10000 is the argument
    [every], and [at_end] is what the generator does after the loop. *)
Definition produce_results_step (every : Z) (at_end : Z -> M unit) (g : pager)
  : M (option (list pydict * pager)) :=
  results <- search (cursorMark g);;
  total <- (if String.eqb (cursorMark g) "*"
            then emit (Log INFO FMT_FOUND [ArgInt (hits results)]);; ret (hits results)
            else ret (nb_total g));;
  if negb (String.eqb (cursorMark g) (nextCursorMark results)) then
    let nb := nb_results g + len (docs results) in
    (if nb mod every =? 0 then log_read nb total else ret tt);;
    ret (Some (docs results,
               {| cursorMark := nextCursorMark results; nb_results := nb; nb_total := total |}))
  else
    at_end (nb_results g);; ret None.
End Calls.

(** ** The blocking pipeline *)

Module Solr2Es.
Section Solr2Es.
Variable env : collaborators.
Variable refresh : bool.   (* [self.refresh] *)

Definition produce_results_next : pager -> M (option (list pydict * pager)) :=
  produce_results_step env 10000 (fun _ => ret tt).

(** The body of the [for] loop of [migrate]; [LOGGER.warning(err)] logs the
    entry itself as the message. *)
Definition migrate_page (index_name : string) (results : list pydict) (nb_results : Z)
  : M Z :=
  actions <- lift (create_es_actions index_name results);;
  response <- bulk env actions index_name DEFAULT_ES_DOC_TYPE refresh;;
  let nb_results := nb_results + len results in
  if errors response then
    for_list (items response) (fun err => emit (Log WARNING "%s" [ArgItem err]));;
    ret (nb_results - len (items response))
  else ret nb_results.

Definition migrate (fuel : nat) (index_name : string) (mapping : option json) : M Z :=
  found <- indices_exists env index_name;;
  (if negb found then indices_create env index_name mapping else ret tt);;
  nb_results <- for_in fuel produce_results_next (migrate_page index_name) pager_start 0;;
  emit (Log INFO FMT_PROCESSED [ArgInt nb_results]);;
  ret nb_results.
End Solr2Es.
End Solr2Es.

(** ** The asyncio pipeline

    The coroutine runs on one thread and every [await] is waited for before
    the next statement, so its calls happen in program order. *)

Module Solr2EsAsync.
Section Solr2EsAsync.
Variable env : collaborators.
Variable refresh : bool.

Definition produce_results_next : pager -> M (option (list pydict * pager)) :=
  produce_results_step env 10000
    (fun nb_results => emit (Log INFO FMT_PROCESSED [ArgInt nb_results])).

Definition migrate_page (index_name : string) (results : list pydict) (nb_results : Z)
  : M Z :=
  actions <- lift (create_es_actions index_name results);;
  bulk env actions index_name DEFAULT_ES_DOC_TYPE refresh;;
  ret (nb_results + len results).

Definition migrate (fuel : nat) (index_name : string) : M Z :=
  for_in fuel produce_results_next (migrate_page index_name) pager_start 0.
End Solr2EsAsync.
End Solr2EsAsync.

(** ** The Redis consumers *)

Definition serialize_page (results : list pydict) : list string :=
  map (fun row => dumps (JDict row)) results.

Module RedisConsumer.
Section RedisConsumer.
Variable env : collaborators.

Definition consume_page (results : list pydict) (_ : unit) : M unit :=
  lpush env QUEUE_KEY (serialize_page results).

Definition consume (fuel : nat) (producer : pager -> M (option (list pydict * pager)))
  : M unit :=
  for_in fuel producer consume_page pager_start tt.
End RedisConsumer.
End RedisConsumer.

Module RedisConsumerAsync.
Section RedisConsumerAsync.
Variable env : collaborators.

Definition consume_page (results : list pydict) (_ : unit) : M unit :=
  lpush env QUEUE_KEY (serialize_page results).

Definition consume (fuel : nat) (producer : pager -> M (option (list pydict * pager)))
  : M unit :=
  for_in fuel producer consume_page pager_start tt.
End RedisConsumerAsync.
End RedisConsumerAsync.

(** ** The entry points of the command line *)

Section EntryPoints.
Variable env : collaborators.

Definition dump_into_redis (fuel : nat) (solrurl redishost : string) : M unit :=
  emit (Log INFO "dump from solr (%s) into redis (host=%s)" [ArgStr solrurl; ArgStr redishost]);;
  RedisConsumer.consume env fuel (Solr2Es.produce_results_next env).

Definition resume_from_redis (redishost esurl name : string) : M unit :=
  emit (Log INFO "resume from redis (host=%s) to elasticsearch (%s) index %s"
          [ArgStr redishost; ArgStr esurl; ArgStr name]).

Definition migrate (fuel : nat) (solrurl esurl name : string) : M unit :=
  emit (Log INFO "migrate from solr (%s) into elasticsearch (%s) index %s"
          [ArgStr solrurl; ArgStr esurl; ArgStr name]);;
  Solr2Es.migrate env false fuel name None;;
  ret tt.

Definition aiodump_into_redis (fuel : nat) (solrurl redishost : string) : M unit :=
  emit (Log INFO "asyncio dump from solr (%s) into redis (host=%s)"
          [ArgStr solrurl; ArgStr redishost]);;
  RedisConsumerAsync.consume env fuel (Solr2EsAsync.produce_results_next env).

Definition aioresume_from_redis (redishost esurl name : string) : M unit :=
  emit (Log INFO "asyncio resume from redis (host=%s) to elasticsearch (%s) index %s"
          [ArgStr redishost; ArgStr esurl; ArgStr name]).

Definition aiomigrate (fuel : nat) (solrurl esurl name : string) : M unit :=
  emit (Log INFO "asyncio migrate from solr (%s) into elasticsearch (%s) index %s"
          [ArgStr solrurl; ArgStr esurl; ArgStr name]);;
  Solr2EsAsync.migrate env false fuel name;;
  ret tt.
End EntryPoints.

(** ** Lines of a string *)

(** [s.split(LF)] *)
Fixpoint split_lines (s : string) : list string :=
  match s with
  | EmptyString => [EmptyString]
  | String c r =>
      if Ascii.eqb c LF then EmptyString :: split_lines r
      else match split_lines r with
           | [] => [String c EmptyString]
           | l :: ls => String c l :: ls
           end
  end.

Fixpoint has_LF (s : string) : bool :=
  match s with
  | EmptyString => false
  | String c r => Ascii.eqb c LF || has_LF r
  end.

Fixpoint string_drop (n : nat) (s : string) : string :=
  match n, s with
  | O, _ => s
  | S n', String _ r => string_drop n' r
  | S _, EmptyString => EmptyString
  end.

(** ** Specification-side vocabulary for the transformer *)

(** The value of a field after collapsing, as the specification words it:
    a sequence is replaced by its first element. *)
Definition first_element (v : json) : json :=
  match v with
  | JList (x :: _) => x
  | _ => v
  end.

Definition collapse (row : pydict) : pydict :=
  map (fun kv => (fst kv, first_element (snd kv))) row.

Definition is_list (v : json) : bool :=
  match v with
  | JList _ => true
  | _ => false
  end.

(** The write directive of a document whose id is [id]. *)
Definition directive (index_name : string) (id : json) : json :=
  JDict [("index",
          JDict [("_index", JStr index_name);
                 ("_type", JStr DEFAULT_ES_DOC_TYPE);
                 ("_id", id)])].

(** A row that [create_es_actions] transforms without an exception: its keys
    are distinct (it is a dict), it has an id, and none of its fields is an
    empty list. *)
Definition transformable (row : pydict) : Prop :=
  NoDup (map fst row) /\
  dict_get "id" row <> None /\
  (forall k, ~ In (k, JList []) row).

Definition row_id (row : pydict) : json := default JNull (dict_get "id" row).

Definition action_lines (index_name : string) (row : pydict) : list string :=
  [dumps (directive index_name (row_id row)); dumps (JDict (collapse row))].


(** ** Vocabulary for runs of the pipeline *)

Fixpoint searches_in (t : list event) : nat :=
  match t with
  | [] => O
  | SolrSearch _ :: r => S (searches_in r)
  | _ :: r => searches_in r
  end.

Fixpoint bulks_in (t : list event) : nat :=
  match t with
  | [] => O
  | EsBulk _ _ _ _ :: r => S (bulks_in r)
  | _ :: r => bulks_in r
  end.

(** The exception, if any, with which a collaborator answers the call [ev]
    when [ns] Solr requests and [nb] bulk writes came before it. *)
Definition call_error (env : collaborators) (ns nb : nat) (ev : event) : option exn :=
  match ev with
  | SolrSearch c =>
      match solr_search env ns c with Raise e => Some e | Ok _ => None end
  | IndicesExists i =>
      match es_indices_exists env i with Raise e => Some e | Ok _ => None end
  | IndicesCreate i b =>
      match es_indices_create env i b with Raise e => Some e | Ok _ => None end
  | EsBulk body i _ _ =>
      match es_bulk env nb body i with Raise e => Some e | Ok _ => None end
  | RedisLpush key values =>
      match redis_lpush env key values with Raise e => Some e | Ok _ => None end
  | Log _ _ _ => None
  end.

(** A computation stops at the first call that a collaborator answers with
    an exception, and ends with that exception; it also keeps the two call
    counters in step with its trace. *)
Definition fail_stop (env : collaborators) {A} (m : M A) : Prop :=
  forall s t s' o, m s = (t, s', o) ->
    searches s' = (searches s + searches_in t)%nat /\
    bulks s' = (bulks s + bulks_in t)%nat /\
    forall pre ev post e,
      t = pre ++ ev :: post ->
      call_error env (searches s + searches_in pre) (bulks s + bulks_in pre) ev = Some e ->
      post = [] /\ o = Raised e.

(** The source answers the request number [n], sent with [cursor], and the
    following ones with [pages], each moving the cursor, and then with
    [last], whose cursor is the one just sent. *)
Fixpoint serves (env : collaborators) (n : nat) (cursor : string)
    (pages : list solr_page) (last : solr_page) : Prop :=
  match pages with
  | [] => solr_search env n cursor = Ok last /\ nextCursorMark last = cursor
  | p :: ps =>
      solr_search env n cursor = Ok p /\ nextCursorMark p <> cursor /\
      serves env (S n) (nextCursorMark p) ps last
  end.

(** The total the pager holds after the answer [p] to a request sent from
    [g], and its state once it has yielded [p]. *)
Definition total_after (g : pager) (p : solr_page) : Z :=
  if String.eqb (cursorMark g) "*" then hits p else nb_total g.

Definition advance (g : pager) (p : solr_page) : pager :=
  {| cursorMark := nextCursorMark p;
     nb_results := nb_results g + len (docs p);
     nb_total := total_after g p |}.

Definition found_events (g : pager) (p : solr_page) : list event :=
  if String.eqb (cursorMark g) "*" then [Log INFO FMT_FOUND [ArgInt (hits p)]] else [].

Definition progress_event (g : pager) : event :=
  Log INFO FMT_READ
    [ArgInt (nb_results g); ArgInt (nb_total g); ArgDiv (100 * nb_results g) (nb_total g)].

Definition progress_events (every : Z) (g : pager) : list event :=
  if nb_results g mod every =? 0 then [progress_event g] else [].

(** The progress line never divides by zero while [pages] are read from [g]. *)
Fixpoint progress_defined (every : Z) (g : pager) (pages : list solr_page) : Prop :=
  match pages with
  | [] => True
  | p :: ps =>
      (nb_results (advance g p) mod every = 0 -> nb_total (advance g p) <> 0) /\
      progress_defined every (advance g p) ps
  end.

Definition is_progress (ev : event) : bool :=
  match ev with
  | Log INFO fmt _ => String.eqb fmt FMT_READ
  | _ => false
  end.

(** The number of entries of a bulk response that report a failure. *)
Definition failed_items (r : bulk_response) : list bulk_item :=
  List.filter (fun i => match item_error i with Some _ => true | None => false end) (items r).

(** The already-scalar equivalent of a document whose arrays hold one
    element: every one-element list is replaced by its element. *)
Definition unwrap (v : json) : json :=
  match v with
  | JList [x] => x
  | _ => v
  end.

Definition scalar_equivalent (row : pydict) : pydict :=
  map (fun kv => (fst kv, unwrap (snd kv))) row.

(** Every array field of the row is a one-element list of a scalar. *)
Definition singleton_arrays (row : pydict) : Prop :=
  forall k l, In (k, JList l) row -> exists x, l = [x] /\ is_list x = false.

Definition scalar_id (row : pydict) : Prop :=
  forall v, dict_get "id" row = Some v -> is_list v = false.

(** The run of the pager that reads [pages] from [g] and then [last], when
    the consumer of a page always returns: it leaves the events
    [body_events], the state [body_state] and the value [body_value], and
    the generator leaves [end_events] once its loop is over. *)
Section PagerRunSpec.
Context {B : Type}.
Variable every : Z.
Variable end_events : Z -> list event.
Variable body_events : list pydict -> B -> state -> list event.
Variable body_state : list pydict -> B -> state -> state.
Variable body_value : list pydict -> B -> state -> B.
Variable last : solr_page.

Fixpoint pager_run (g : pager) (pages : list solr_page) (b : B) (s : state)
  : list event * state * B :=
  match pages with
  | [] =>
      (SolrSearch (cursorMark g) :: found_events g last ++ end_events (nb_results g),
       after_search s, b)
  | p :: ps =>
      let s1 := after_search s in
      let r := pager_run (advance g p) ps
                 (body_value (docs p) b s1) (body_state (docs p) b s1) in
      (SolrSearch (cursorMark g) :: found_events g p
         ++ progress_events every (advance g p)
         ++ body_events (docs p) b s1 ++ r.1.1,
       r.1.2, r.2)
  end.
End PagerRunSpec.

(** The progress lines due while [pages] are read from [g]: one after each
    page at which the number of documents read is a multiple of [every]. *)
Fixpoint progress_lines (every : Z) (g : pager) (pages : list solr_page) : list event :=
  match pages with
  | [] => []
  | p :: ps => progress_events every (advance g p) ++ progress_lines every (advance g p) ps
  end.

Definition lpush_events (results : list pydict) (_ : unit) (_ : state) : list event :=
  [RedisLpush QUEUE_KEY (serialize_page results)].

Definition lpush_state (results : list pydict) (_ : unit) (s : state) : state :=
  after_lpush QUEUE_KEY (serialize_page results) s.

Definition lpush_value (results : list pydict) (_ : unit) (_ : state) : unit := tt.

Definition no_end_events (_ : Z) : list event := [].
Definition processed_event (nb_results : Z) : list event :=
  [Log INFO FMT_PROCESSED [ArgInt nb_results]].

(** What [Solr2Es.migrate_page] does with a page when the transformer and
    the bulk write both return. *)
Section MigratePageSpec.
Variable env : collaborators.
Variable refresh : bool.
Variable index_name : string.

Definition is_ok {A} (r : result A) : bool :=
  match r with Ok _ => true | Raise _ => false end.

Definition bulk_body (results : list pydict) : string :=
  match create_es_actions index_name results with
  | Ok actions => actions
  | Raise _ => EmptyString
  end.

Definition bulk_answer (results : list pydict) (s : state) : bulk_response :=
  match es_bulk env (bulks s) (bulk_body results) index_name with
  | Ok response => response
  | Raise _ => {| errors := false; items := [] |}
  end.

Definition warnings (response : bulk_response) : list event :=
  if errors response
  then map (fun err => Log WARNING "%s" [ArgItem err]) (items response)
  else [].

(** What the code subtracts from the tally for a response. *)
Definition subtracted (response : bulk_response) : Z :=
  if errors response then len (items response) else 0.

Definition migrate_page_events (results : list pydict) (nb : Z) (s : state) : list event :=
  EsBulk (bulk_body results) index_name DEFAULT_ES_DOC_TYPE refresh
    :: warnings (bulk_answer results s).

Definition migrate_page_state (results : list pydict) (nb : Z) (s : state) : state :=
  after_bulk s.

Definition migrate_page_value (results : list pydict) (nb : Z) (s : state) : Z :=
  nb + len results - subtracted (bulk_answer results s).

Definition async_page_events (results : list pydict) (nb : Z) (s : state) : list event :=
  [EsBulk (bulk_body results) index_name DEFAULT_ES_DOC_TYPE refresh].

Definition async_page_value (results : list pydict) (nb : Z) (s : state) : Z :=
  nb + len results.

(** The transformer returns on the page. *)
Definition transforms (results : list pydict) : Prop :=
  is_ok (create_es_actions index_name results) = true.

(** The destination answers every bulk write. *)
Definition accepts_bulks : Prop :=
  forall n body, is_ok (es_bulk env n body index_name) = true.

(** The run of [Solr2Es.migrate] over [pages] then [last], once the index
    is known to exist. *)
Definition migrate_run (last : solr_page) (pages : list solr_page) (s : state)
  : list event * state * Z :=
  pager_run 10000 no_end_events migrate_page_events migrate_page_state
    migrate_page_value last pager_start pages 0 s.

Definition async_migrate_run (last : solr_page) (pages : list solr_page) (s : state)
  : list event * state * Z :=
  pager_run 10000 processed_event async_page_events migrate_page_state
    async_page_value last pager_start pages 0 s.
End MigratePageSpec.


(** The state after the pages have been fetched and pushed one by one. *)
Definition dump_state (s : state) (pages : list solr_page) : state :=
  fold_left (fun s p => after_lpush QUEUE_KEY (serialize_page (docs p)) (after_search s))
    pages s.

Definition dump_run (last : solr_page) (pages : list solr_page) (s : state)
  : list event * state * unit :=
  pager_run 10000 no_end_events lpush_events lpush_state lpush_value last
    pager_start pages tt s.

Definition is_bulk (ev : event) : bool :=
  match ev with
  | EsBulk _ _ _ _ => true
  | _ => false
  end.

(** No bulk response of the destination reports an error. *)
Definition never_reports_errors (env : collaborators) (index_name : string) : Prop :=
  forall n body response, es_bulk env n body index_name = Ok response ->
    errors response = false.

(** ** Concrete collaborators and documents *)

Definition doc7 : pydict := [("id", JStr "7"); ("tags", JList [JStr "a"; JStr "b"])].

Definition doc_of_id (n : Z) : pydict := [("id", JStr (dumps_int n))].

(** A stateless source given by a table from cursors to pages. *)
Fixpoint lookup_page (table : list (string * solr_page)) (dflt : solr_page) (c : string)
  : solr_page :=
  match table with
  | [] => dflt
  | (c', p) :: r => if String.eqb c c' then p else lookup_page r dflt c
  end.

Definition ok_item (id : string) : bulk_item :=
  {| item_id := id; item_status := 201; item_error := None |}.

Definition failed_item (id : string) : bulk_item :=
  {| item_id := id; item_status := 400; item_error := Some "mapper_parsing_exception" |}.

(** A destination that has every index and accepts every document, and a
    queue that accepts every push. *)
Definition healthy (env_search : nat -> string -> result solr_page) : collaborators :=
  {| solr_search := env_search;
     es_indices_exists := fun _ => Ok true;
     es_indices_create := fun _ _ => Ok tt;
     es_bulk := fun _ _ _ => Ok {| errors := false; items := [] |};
     redis_lpush := fun _ _ => Ok tt |}.

(** A document whose id comes as a one-element array, and one with two
    one-element arrays besides a scalar id. *)
Definition doc_array_id : pydict := [("id", JList [JStr "7"])].

Definition doc_singletons : pydict :=
  [("id", JStr "7"); ("tags", JList [JStr "a"]); ("size", JList [JInt 3])].

Definition doc_empty_tags : pydict := [("id", JStr "9"); ("tags", JList [])].

(** A source that serves one page of two documents and then fails. *)
Definition env_source_down : collaborators :=
  healthy (fun n c =>
    match n with
    | O => Ok {| docs := [doc7; doc_of_id 8]; nextCursorMark := "A"; hits := 4 |}
    | _ => Raise (SourceError "timeout")
    end).

Definition source_down_run : list event * state * outcome Z :=
  Solr2Es.migrate env_source_down false 5 "idx" None initial_state.

(** Ten documents, with ids 1 to 10. *)
Definition page10 : list pydict := map doc_of_id [1; 2; 3; 4; 5; 6; 7; 8; 9; 10].

(** The bulk response to [page10] when the documents 3 and 7 are rejected:
    one entry per document, in order, two of them with an error. *)
Definition response_two_failures : bulk_response :=
  {| errors := true;
     items := [ok_item "1"; ok_item "2"; failed_item "3"; ok_item "4"; ok_item "5";
               ok_item "6"; failed_item "7"; ok_item "8"; ok_item "9"; ok_item "10"] |}.

(** A source with the single page [page10], and a destination that lacks
    the index and rejects two documents of the page. *)
Definition env_two_failures : collaborators :=
  {| solr_search := fun n c =>
       match n with
       | O => Ok {| docs := page10; nextCursorMark := "A"; hits := 10 |}
       | _ => Ok {| docs := []; nextCursorMark := c; hits := 10 |}
       end;
     es_indices_exists := fun _ => Ok false;
     es_indices_create := fun _ _ => Ok tt;
     es_bulk := fun _ _ _ => Ok response_two_failures;
     redis_lpush := fun _ _ => Ok tt |}.

(** A source that reports no hits, yet answers the first request with an
    empty page and a new cursor, and repeats that cursor afterwards. *)
Definition page_no_hits : solr_page := {| docs := []; nextCursorMark := "A"; hits := 0 |}.

Definition env_no_hits : collaborators :=
  healthy (fun n c => Ok page_no_hits).

(** Documents with the ids [from], [from + 1], ... ([count] of them). *)
Definition docs_range (from count : Z) : list pydict :=
  map (fun n => doc_of_id (from + Z.of_nat n)) (seq 0 (Z.to_nat count)).

(** A source of 12000 documents in two pages of 6000. *)
Definition page_6000_a : solr_page :=
  {| docs := docs_range 1 6000; nextCursorMark := "A"; hits := 12000 |}.
Definition page_6000_b : solr_page :=
  {| docs := docs_range 6001 6000; nextCursorMark := "B"; hits := 12000 |}.
Definition page_end_b : solr_page :=
  {| docs := []; nextCursorMark := "B"; hits := 12000 |}.

Definition env_6000_6000 : collaborators :=
  healthy (fun n c =>
    Ok (lookup_page [("*", page_6000_a); ("A", page_6000_b)] page_end_b c)).

(** The same documents in pages of 6000, 4000 and 2000. *)
Definition page_4000 : solr_page :=
  {| docs := docs_range 6001 4000; nextCursorMark := "B"; hits := 12000 |}.
Definition page_2000 : solr_page :=
  {| docs := docs_range 10001 2000; nextCursorMark := "C"; hits := 12000 |}.
Definition page_end_c : solr_page :=
  {| docs := []; nextCursorMark := "C"; hits := 12000 |}.

Definition env_6000_4000_2000 : collaborators :=
  healthy (fun n c =>
    Ok (lookup_page [("*", page_6000_a); ("A", page_4000); ("B", page_2000)] page_end_c c)).

(** Twelve documents in pages of the given sizes, for a pager whose progress
    step is small. *)
Fixpoint pages_of_sizes (from : Z) (cursor : nat) (sizes : list Z) : list solr_page :=
  match sizes with
  | [] => []
  | n :: r =>
      {| docs := docs_range from n;
         nextCursorMark := dumps_int (Z.of_nat (S cursor));
         hits := 12 |} :: pages_of_sizes (from + n) (S cursor) r
  end.

Definition env_of_pages (pages : list solr_page) : collaborators :=
  healthy (fun n c =>
    match nth_error pages n with
    | Some p => Ok p
    | None => Ok {| docs := []; nextCursorMark := c; hits := 12 |}
    end).

(** The progress lines of a dump of the pages of the given sizes when the
    pager logs every [every] documents. *)
Definition progress_of_sizes (every : Z) (sizes : list Z) : list event :=
  List.filter is_progress
    (for_in 10 (produce_results_step (env_of_pages (pages_of_sizes 1 0 sizes)) every
                  (fun _ => ret tt))
       (RedisConsumer.consume_page (env_of_pages (pages_of_sizes 1 0 sizes)))
       pager_start tt initial_state).1.1.


(** Twenty-five documents in pages of 10, 10 and 5; the destination either
    accepts everything or answers the second write with one entry per
    document, two of them with an error. *)
Definition pages_10_10_5 : list solr_page :=
  [ {| docs := docs_range 1 10; nextCursorMark := "A"; hits := 25 |};
    {| docs := docs_range 11 10; nextCursorMark := "B"; hits := 25 |};
    {| docs := docs_range 21 5; nextCursorMark := "C"; hits := 25 |} ].

Definition search_10_10_5 (n : nat) (c : string) : result solr_page :=
  match nth_error pages_10_10_5 n with
  | Some p => Ok p
  | None => Ok {| docs := []; nextCursorMark := c; hits := 25 |}
  end.

Definition env_25_second_write_fails_twice : collaborators :=
  {| solr_search := search_10_10_5;
     es_indices_exists := fun _ => Ok true;
     es_indices_create := fun _ _ => Ok tt;
     es_bulk := fun n _ _ =>
       match n with
       | S O => Ok response_two_failures
       | _ => Ok {| errors := false; items := [] |}
       end;
     redis_lpush := fun _ _ => Ok tt |}.

(** ** Further vocabulary for the transformer *)

(** Every array of the row holds scalars only. *)
Definition arrays_of_scalars (row : pydict) : Prop :=
  forall k l x, In (k, JList l) row -> In x l -> is_list x = false.

Fixpoint all_chars (P : ascii -> bool) (s : string) : bool :=
  match s with
  | EmptyString => true
  | String c r => P c && all_chars P r
  end.

(** The characters from the space to the tilde. *)
Definition printable (c : ascii) : bool :=
  ((32 <=? N_of_ascii c) && (N_of_ascii c <=? 126))%N.

Definition printable_or_LF (c : ascii) : bool := printable c || Ascii.eqb c LF.

(** ** Further vocabulary for runs *)

Definition is_es_call (ev : event) : bool :=
  match ev with
  | IndicesExists _ | IndicesCreate _ _ | EsBulk _ _ _ _ => true
  | _ => false
  end.

Definition is_provisioning (ev : event) : bool :=
  match ev with
  | IndicesExists _ | IndicesCreate _ _ => true
  | _ => false
  end.

Definition is_redis_call (ev : event) : bool :=
  match ev with
  | RedisLpush _ _ => true
  | _ => false
  end.

Definition is_log (ev : event) : bool :=
  match ev with
  | Log _ _ _ => true
  | _ => false
  end.

Definition not_redis (ev : event) : bool := negb (is_redis_call ev).
Definition not_es (ev : event) : bool := negb (is_es_call ev).
Definition not_provisioning (ev : event) : bool := negb (is_provisioning ev).

(** Every run of [m] leaves only events that satisfy [P] and moves the
    state along [R]. *)
Definition confined (P : event -> bool) (R : state -> state -> Prop) {A} (m : M A) : Prop :=
  forall s t s' o, m s = (t, s', o) -> forallb P t = true /\ R s s'.

Definition same_redis (s s' : state) : Prop := redis s' = redis s.

(** Nothing was written to the destination, the other keys of Redis are as
    they were, and the queue holds what it held, below what was pushed. *)
Definition queue_grew (s s' : state) : Prop :=
  bulks s' = bulks s /\
  (forall k, k <> QUEUE_KEY -> redis s' !! k = redis s !! k) /\
  exists pushed, queue QUEUE_KEY s' = pushed ++ queue QUEUE_KEY s.

Definition any_state (s s' : state) : Prop := True.

(** The number of documents of the pages. *)
Definition documents_read (pages : list solr_page) : Z :=
  fold_right (fun p n => len (docs p) + n) 0 pages.

Definition bulk_write (refresh : bool) (index_name : string) (p : solr_page) : event :=
  EsBulk (bulk_body index_name (docs p)) index_name DEFAULT_ES_DOC_TYPE refresh.

(** ** Further collaborators *)

(** The source of [env_two_failures] with a queue that refuses every push. *)
Definition env_queue_down : collaborators :=
  {| solr_search := solr_search env_two_failures;
     es_indices_exists := fun _ => Ok true;
     es_indices_create := fun _ _ => Ok tt;
     es_bulk := fun _ _ _ => Ok {| errors := false; items := [] |};
     redis_lpush := fun _ _ => Raise (QueueError "connection refused") |}.

(** The same source with a destination whose bulk write fails. *)
Definition env_bulk_down : collaborators :=
  {| solr_search := solr_search env_two_failures;
     es_indices_exists := fun _ => Ok true;
     es_indices_create := fun _ _ => Ok tt;
     es_bulk := fun _ _ _ => Raise (DestinationError "timeout");
     redis_lpush := fun _ _ => Ok tt |}.

Definition queue_down_run : list event * state * outcome unit :=
  dump_into_redis env_queue_down 5 "solr" "redis" initial_state.

Definition bulk_down_run : list event * state * outcome Z :=
  Solr2EsAsync.migrate env_bulk_down false 5 "idx" initial_state.

Definition page_end_25 : solr_page := {| docs := []; nextCursorMark := "C"; hits := 25 |}.

(** The source answers the request number [n], sent with [cursor], and the
    following ones with [pages], each moving the cursor. *)
Fixpoint keeps_moving (env : collaborators) (n : nat) (cursor : string)
    (pages : list solr_page) : Prop :=
  match pages with
  | [] => True
  | p :: ps =>
      solr_search env n cursor = Ok p /\ nextCursorMark p <> cursor /\
      keeps_moving env (S n) (nextCursorMark p) ps
  end.

(** A source that never repeats a cursor: the answer to the request number
    [n] holds one document and the cursor [n + 1]. *)
Definition endless_page (n : nat) : solr_page :=
  {| docs := [doc_of_id (Z.of_nat n)];
     nextCursorMark := dumps_int (Z.of_nat (S n));
     hits := 1000 |}.

Definition env_endless : collaborators := healthy (fun n c => Ok (endless_page n)).

(** ** The package module ([solr2es/__init__.py])

    The package carries an earlier [migrate] of each class: the loop over
    the cursor is written in the method itself, nothing is logged, the index
    is taken as it is, and the answer of the bulk write is not read.  Its
    [create_es_actions] and [remove_arrays] are the ones above. *)

Module Package.
Module Solr2Es.
Section Solr2Es.
Variable env : collaborators.
Variable refresh : bool.

(** The [while] loop of [migrate], from the current values of
    [kwargs['cursorMark']] and [nb_results]; [fuel] bounds its turns. *)
Fixpoint migrate_loop (fuel : nat) (index_name cursorMark : string) (nb_results : Z)
  : M Z :=
  match fuel with
  | O => fun s => ([], s, Running)
  | S fuel' =>
      results <- search env cursorMark;;
      if negb (String.eqb cursorMark (nextCursorMark results)) then
        actions <- lift (create_es_actions index_name (docs results));;
        bulk env actions index_name DEFAULT_ES_DOC_TYPE refresh;;
        migrate_loop fuel' index_name (nextCursorMark results)
          (nb_results + len (docs results))
      else ret nb_results
  end.

Definition migrate (fuel : nat) (index_name : string) : M Z :=
  migrate_loop fuel index_name "*" 0.
End Solr2Es.
End Solr2Es.

Module Solr2EsAsync.
Section Solr2EsAsync.
Variable env : collaborators.
Variable refresh : bool.

Fixpoint migrate_loop (fuel : nat) (index_name cursorMark : string) (nb_results : Z)
  : M Z :=
  match fuel with
  | O => fun s => ([], s, Running)
  | S fuel' =>
      json <- search env cursorMark;;
      if negb (String.eqb cursorMark (nextCursorMark json)) then
        actions <- lift (create_es_actions index_name (docs json));;
        bulk env actions index_name DEFAULT_ES_DOC_TYPE refresh;;
        migrate_loop fuel' index_name (nextCursorMark json)
          (nb_results + len (docs json))
      else ret nb_results
  end.

Definition migrate (fuel : nat) (index_name : string) : M Z :=
  migrate_loop fuel index_name "*" 0.
End Solr2EsAsync.
End Solr2EsAsync.
End Package.

(** The trace of a run of the package's [migrate] over [pages]: a request,
    then the write of the page, and one last request. *)
Fixpoint package_trace (refresh : bool) (index_name cursor : string)
    (pages : list solr_page) : list event :=
  match pages with
  | [] => [SolrSearch cursor]
  | p :: ps =>
      SolrSearch cursor :: bulk_write refresh index_name p
        :: package_trace refresh index_name (nextCursorMark p) ps
  end.

Definition not_log (ev : event) : bool := negb (is_log ev).

(** ** The command line (the [__main__] block of [solr2es.py])

    [getopt.gnu_getopt] is taken as given: the block is modelled from the
    list [options] of pairs it returns. *)

Module Main.

Definition TAB : ascii := ascii_of_nat 9.

(** The lines [usage(argv)] prints. *)
Definition usage (argv : list string) : result (list string) :=
  match argv with
  | [] => Raise IndexError
  | prog :: _ =>
      Ok [ "Usage: " +:+ prog +:+ " action";
           String TAB "-m|--migrate: migrate solr to elasticsearch";
           String TAB "-r|--resume: resume from redis";
           String TAB "-d|--dump: dump into redis";
           String TAB "-a|--async: use python 3 asyncio";
           String TAB "--solrurl: url solr (default http://solr:8983/solr/my_core)";
           String TAB "--index: index name (default solr2es)";
           String TAB "--esurl: elasticsearch url (default elasticsearch:9200)";
           String TAB "--redishost: redis host (default redis)" ]
  end.

(** The variables the loop over the options sets. *)
Record settings : Type :=
  { with_asyncio : bool;
    solrurl : string;
    esurl : string;
    redishost : string;
    index_name : string;
    action : string }.

Definition defaults : settings :=
  {| with_asyncio := false;
     solrurl := "http://solr:8983/solr/my_core";
     esurl := "elasticsearch:9200";
     redishost := "redis";
     index_name := "solr2es";
     action := "migrate" |}.

(** [opt in (a, b)] *)
Definition opt_in (opt : string) (names : list string) : bool :=
  existsb (String.eqb opt) names.

(** One turn of the loop over the options; [None] stands for the call of
    [usage] followed by [sys.exit()]. *)
Definition read_option (st : settings) (o : string * string) : option settings :=
  let opt := fst o in
  let arg := snd o in
  if opt_in opt ["-h"; "--help"] then None
  else
    let st1 :=
      if opt_in opt ["-a"; "--async"]
      then {| with_asyncio := true; solrurl := solrurl st; esurl := esurl st;
              redishost := redishost st; index_name := index_name st; action := action st |}
      else st in
    let st2 :=
      if String.eqb opt "--solrurl"
      then {| with_asyncio := with_asyncio st1; solrurl := arg; esurl := esurl st1;
              redishost := redishost st1; index_name := index_name st1;
              action := action st1 |}
      else st1 in
    let st3 :=
      if String.eqb opt "--redishost"
      then {| with_asyncio := with_asyncio st2; solrurl := solrurl st2; esurl := esurl st2;
              redishost := arg; index_name := index_name st2; action := action st2 |}
      else st2 in
    let st4 :=
      if String.eqb opt "--esurl"
      then {| with_asyncio := with_asyncio st3; solrurl := solrurl st3; esurl := arg;
              redishost := redishost st3; index_name := index_name st3;
              action := action st3 |}
      else st3 in
    let st5 :=
      if String.eqb opt "--index"
      then {| with_asyncio := with_asyncio st4; solrurl := solrurl st4; esurl := esurl st4;
              redishost := redishost st4; index_name := arg; action := action st4 |}
      else st4 in
    let new_action :=
      if opt_in opt ["-d"; "--dump"] then "dump"
      else if opt_in opt ["-r"; "--resume"] then "resume"
      else if opt_in opt ["-m"; "--migrate"] then "migrate"
      else action st5 in
    Some {| with_asyncio := with_asyncio st5; solrurl := solrurl st5; esurl := esurl st5;
            redishost := redishost st5; index_name := index_name st5;
            action := new_action |}.

Fixpoint read_options (st : settings) (options : list (string * string))
  : option settings :=
  match options with
  | [] => Some st
  | o :: rest =>
      match read_option st o with
      | None => None
      | Some st' => read_options st' rest
      end
  end.

(** How the block ends before any migration starts: it has printed the usage
    and left, or it goes on to the action with the settings read. *)
Inductive selection : Type :=
| Exit (printed : list string)
| Selected (st : settings).

Definition select (argv : list string) (options : list (string * string))
  : result selection :=
  if Nat.eqb (length argv) 1 then (lines <-? usage argv; Ok (Exit lines))
  else
    match read_options defaults options with
    | None => (lines <-? usage argv; Ok (Exit lines))
    | Some st => Ok (Selected st)
    end.

(** The last statement of the block. *)
Definition dispatch (env : collaborators) (fuel : nat) (st : settings) : M unit :=
  if String.eqb (action st) "migrate" then
    if with_asyncio st
    then aiomigrate env fuel (solrurl st) (esurl st) (index_name st)
    else migrate env fuel (solrurl st) (esurl st) (index_name st)
  else if String.eqb (action st) "dump" then
    if with_asyncio st
    then aiodump_into_redis env fuel (solrurl st) (redishost st)
    else dump_into_redis env fuel (solrurl st) (redishost st)
  else if String.eqb (action st) "resume" then
    if with_asyncio st
    then aioresume_from_redis (redishost st) (esurl st) (index_name st)
    else resume_from_redis (redishost st) (esurl st) (index_name st)
  else ret tt.

Definition is_help (o : string * string) : bool := opt_in (fst o) ["-h"; "--help"].

Definition is_action_option (o : string * string) : bool :=
  opt_in (fst o) ["-d"; "--dump"; "-r"; "--resume"; "-m"; "--migrate"].

Definition action_of (o : string * string) : string :=
  if opt_in (fst o) ["-d"; "--dump"] then "dump"
  else if opt_in (fst o) ["-r"; "--resume"] then "resume"
  else "migrate".

Definition is_async (o : string * string) : bool := opt_in (fst o) ["-a"; "--async"].

End Main.
(** * Lemmas *)

(** ** Strings *)

Lemma append_String (c : ascii) (a b : string) : String c a +:+ b = String c (a +:+ b).
Proof. reflexivity. Qed.

Lemma append_Empty (b : string) : EmptyString +:+ b = b.
Proof. reflexivity. Qed.

Ltac string_simpl := rewrite ?append_String, ?append_Empty; simpl.

Lemma string_app_assoc (a b c : string) : (a +:+ b) +:+ c = a +:+ (b +:+ c).
Proof. induction a as [|x a IH]; string_simpl; [reflexivity | now rewrite IH]. Qed.

Lemma string_drop_app (a b : string) : string_drop (String.length a) (a +:+ b) = b.
Proof. induction a as [|x a IH]; string_simpl; auto. Qed.

Lemma string_length_app (a b : string) :
  String.length (a +:+ b) = (String.length a + String.length b)%nat.
Proof. induction a as [|x a IH]; string_simpl; [reflexivity | now rewrite IH]. Qed.

Lemma string_drop_suffix (s d t : string) :
  s = d +:+ t -> string_drop (String.length s - String.length t) s = t.
Proof.
  intros ->. rewrite string_length_app.
  replace (String.length d + String.length t - String.length t)%nat
    with (String.length d) by lia.
  apply string_drop_app.
Qed.

Lemma has_LF_app (a b : string) : has_LF (a +:+ b) = has_LF a || has_LF b.
Proof.
  induction a as [|x a IH]; string_simpl; [reflexivity|].
  rewrite IH. now rewrite orb_assoc.
Qed.

Lemma has_LF_concat (sep : string) (ls : list string) :
  has_LF sep = false -> Forall (fun l => has_LF l = false) ls ->
  has_LF (String.concat sep ls) = false.
Proof.
  intros Hsep Hls. induction Hls as [|l ls Hl Hls IH]; simpl; [reflexivity|].
  destruct ls as [|l' ls']; [exact Hl|].
  rewrite !has_LF_app, Hl, Hsep, IH. reflexivity.
Qed.

Lemma split_lines_no_LF (l : string) : has_LF l = false -> split_lines l = [l].
Proof.
  induction l as [|c l IH]; simpl; [reflexivity|].
  intros H. apply orb_false_iff in H as [Hc Hl].
  rewrite Hc, (IH Hl). reflexivity.
Qed.

Lemma split_lines_app (l r : string) :
  has_LF l = false -> split_lines (l +:+ newline +:+ r) = l :: split_lines r.
Proof.
  induction l as [|c l IH]; string_simpl; [reflexivity|].
  intros H. apply orb_false_iff in H as [Hc Hl].
  rewrite Hc, (IH Hl). reflexivity.
Qed.

Lemma split_lines_concat (l : string) (ls : list string) :
  Forall (fun l => has_LF l = false) (l :: ls) ->
  split_lines (String.concat newline (l :: ls)) = l :: ls.
Proof.
  revert l. induction ls as [|l' ls IH]; intros l H.
  - simpl. apply split_lines_no_LF. now inversion H.
  - change (String.concat newline (l :: l' :: ls))
      with (l +:+ newline +:+ String.concat newline (l' :: ls)).
    inversion H; subst. rewrite split_lines_app by assumption.
    now rewrite IH.
Qed.

(** *** [dumps] never emits a line feed *)

Lemma escape_char_no_LF (c : ascii) : has_LF (escape_char c) = false.
Proof. destruct c as [[] [] [] [] [] [] [] []]; reflexivity. Qed.

Lemma escape_string_no_LF (s : string) : has_LF (escape_string s) = false.
Proof.
  induction s as [|c s IH]; simpl; [reflexivity|].
  now rewrite has_LF_app, escape_char_no_LF, IH.
Qed.

Lemma encode_string_no_LF (s : string) : has_LF (encode_string s) = false.
Proof.
  unfold encode_string. simpl. now rewrite has_LF_app, escape_string_no_LF.
Qed.

Lemma string_of_uint_no_LF (d : Decimal.uint) : has_LF (NilEmpty.string_of_uint d) = false.
Proof. induction d; simpl; auto. Qed.

Lemma dumps_int_no_LF (z : Z) : has_LF (dumps_int z) = false.
Proof.
  unfold dumps_int, NilZero.string_of_int, NilZero.string_of_uint.
  destruct (Z.to_int z) as [d|d]; destruct d; simpl; auto using string_of_uint_no_LF.
Qed.

(** Induction on JSON values that reaches inside lists and dicts. *)
Lemma json_nested_ind (P : json -> Prop) :
  P JNull -> (forall b, P (JBool b)) -> (forall z, P (JInt z)) -> (forall s, P (JStr s)) ->
  (forall l, Forall P l -> P (JList l)) ->
  (forall d, Forall (fun kv => P (snd kv)) d -> P (JDict d)) ->
  forall v, P v.
Proof.
  intros Hnull Hbool Hint Hstr Hlist Hdict.
  fix IH 1. intros [ |b|z|s|l|d].
  - exact Hnull.
  - apply Hbool.
  - apply Hint.
  - apply Hstr.
  - apply Hlist. induction l as [|x l IHl]; constructor; [apply IH | exact IHl].
  - apply Hdict. induction d as [|[k x] d IHd]; constructor; [apply IH | exact IHd].
Qed.

Lemma dumps_JList (l : list json) :
  dumps (JList l) = "[" +:+ String.concat ", " (map dumps l) +:+ "]".
Proof. reflexivity. Qed.

Lemma dumps_JDict (d : pydict) :
  dumps (JDict d) =
  "{" +:+ String.concat ", "
            (map (fun kv => encode_string (fst kv) +:+ ": " +:+ dumps (snd kv)) d) +:+ "}".
Proof. reflexivity. Qed.

Lemma dumps_no_LF (v : json) : has_LF (dumps v) = false.
Proof.
  induction v as [ |b|z|s|l IHl|d IHd] using json_nested_ind.
  - reflexivity.
  - now destruct b.
  - apply dumps_int_no_LF.
  - apply encode_string_no_LF.
  - rewrite dumps_JList, !has_LF_app, has_LF_concat; [reflexivity|reflexivity|].
    apply Forall_map. exact IHl.
  - rewrite dumps_JDict, !has_LF_app, has_LF_concat; [reflexivity|reflexivity|].
    apply Forall_map. eapply Forall_impl; [exact IHd|].
    intros [k x] H. cbn [fst snd compose] in *.
    now rewrite !has_LF_app, encode_string_no_LF, H.
Qed.

(** ** Facts about the transformer *)

Lemma dict_set_fresh (k : string) (v : json) (d : pydict) :
  ~ In k (map fst d) -> dict_set k v d = d ++ [(k, v)].
Proof.
  induction d as [|[k' v'] d IH]; simpl; [reflexivity|].
  intros H. destruct (String.eqb_spec k k') as [->|Hne].
  - exfalso. apply H. now left.
  - rewrite IH; [reflexivity|]. intros Hin. apply H. now right.
Qed.

Lemma remove_arrays_filter_ok (v : json) :
  v <> JList [] -> remove_arrays_filter v = Ok (first_element v).
Proof. destruct v as [ | | | |[|x l]| ]; simpl; congruence. Qed.

Lemma remove_arrays_items_collapse (items acc : pydict) :
  NoDup (map fst acc ++ map fst items) ->
  (forall k, ~ In (k, JList []) items) ->
  remove_arrays_items items acc = Ok (acc ++ collapse items).
Proof.
  revert acc. induction items as [|[k v] items IH]; intros acc Hnd Hne; simpl.
  - now rewrite app_nil_r.
  - rewrite remove_arrays_filter_ok.
    2:{ intros ->. apply (Hne k). now left. }
    simpl in *. rewrite dict_set_fresh.
    + rewrite IH.
      * now rewrite <- app_assoc.
      * rewrite map_app, <- app_assoc. exact Hnd.
      * intros k' Hin. apply (Hne k'). now right.
    + apply NoDup_app in Hnd as (_ & Hdisj & _). intros Hin.
      apply (Hdisj k); [now apply list_elem_of_In | left].
Qed.

Lemma remove_arrays_collapse (row : pydict) :
  NoDup (map fst row) -> (forall k, ~ In (k, JList []) row) ->
  remove_arrays row = Ok (collapse row).
Proof. intros Hnd Hne. unfold remove_arrays. now rewrite remove_arrays_items_collapse. Qed.

(** The only exception [remove_arrays] can raise is [IndexError]. *)
Lemma remove_arrays_items_cases (items acc : pydict) :
  (exists d, remove_arrays_items items acc = Ok d) \/
  remove_arrays_items items acc = Raise IndexError.
Proof.
  revert acc. induction items as [|[k v] items IH]; intros acc; simpl.
  - left. now exists acc.
  - destruct v as [ | | | |[|x l]| ]; simpl; auto.
Qed.

Lemma remove_arrays_items_empty_list (items acc : pydict) (k : string) :
  In (k, JList []) items -> remove_arrays_items items acc = Raise IndexError.
Proof.
  revert acc. induction items as [|[k' v] items IH]; intros acc Hin; simpl.
  - destruct Hin.
  - destruct Hin as [Heq|Hin].
    + inversion Heq; subst. reflexivity.
    + destruct v as [ | | | |[|x l]| ]; simpl; auto.
Qed.

Lemma es_action_transformable (index_name : string) (row : pydict) :
  transformable row ->
  es_action index_name row = Ok (directive index_name (row_id row), JDict (collapse row)).
Proof.
  intros (Hnd & Hid & Hne). unfold es_action, getitem, row_id.
  destruct (dict_get "id" row) as [id|]; [|congruence]. simpl.
  now rewrite remove_arrays_collapse.
Qed.

Lemma results_transformable (index_name : string) (rows : list pydict) :
  Forall transformable rows ->
  results_ index_name rows =
  Ok (map (fun row => (directive index_name (row_id row), JDict (collapse row))) rows).
Proof.
  induction 1 as [|row rows Hrow Hrows IH]; simpl; [reflexivity|].
  now rewrite es_action_transformable, IH.
Qed.

Lemma chain_lines (index_name : string) (rows : list pydict) :
  map dumps (chain (map (fun row => (directive index_name (row_id row), JDict (collapse row))) rows))
  = flat_map (action_lines index_name) rows.
Proof. induction rows as [|row rows IH]; simpl; [reflexivity | now rewrite IH]. Qed.

Lemma flat_map_pair_length {A B} (f : A -> list B) (l : list A) :
  (forall a, length (f a) = 2%nat) -> length (flat_map f l) = (2 * length l)%nat.
Proof.
  intros Hf. induction l as [|a l IH]; simpl; [reflexivity|].
  rewrite length_app, Hf, IH. lia.
Qed.

(** ** Runs: the counters, and stopping at the first failed call *)

Lemma searches_in_app (a b : list event) :
  searches_in (a ++ b) = (searches_in a + searches_in b)%nat.
Proof. induction a as [|[] a IH]; simpl; auto. Qed.

Lemma bulks_in_app (a b : list event) :
  bulks_in (a ++ b) = (bulks_in a + bulks_in b)%nat.
Proof. induction a as [|[] a IH]; simpl; auto. Qed.

(** Where an element of a concatenation lies. *)
Lemma app_eq_split {A} (t1 t2 pre post : list A) (x : A) :
  t1 ++ t2 = pre ++ x :: post ->
  (exists post1, t1 = pre ++ x :: post1 /\ post = post1 ++ t2) \/
  (exists pre2, pre = t1 ++ pre2 /\ t2 = pre2 ++ x :: post).
Proof.
  revert pre. induction t1 as [|y t1 IH]; intros pre H; simpl in H.
  - right. now exists pre.
  - destruct pre as [|z pre]; simpl in H; inversion H; subst.
    + left. now exists t1.
    + destruct (IH _ H2) as [(post1 & -> & ->)|(pre2 & -> & ->)].
      * left. now exists post1.
      * right. now exists pre2.
Qed.

Lemma singleton_eq_split {A} (x y : A) (pre post : list A) :
  [x] = pre ++ y :: post -> pre = [] /\ y = x /\ post = [].
Proof.
  destruct pre as [|z pre]; simpl; intros H; inversion H; subst; auto.
  destruct pre; discriminate.
Qed.

Section FailStop.
Variable env : collaborators.

Lemma fail_stop_silent {A} (o : outcome A) : fail_stop env (fun s => ([], s, o)).
Proof.
  intros s t s' o' H. inversion H; subst. simpl. repeat split; try lia.
  all: destruct pre; discriminate.
Qed.

Lemma fail_stop_ret {A} (a : A) : fail_stop env (ret a).
Proof. apply fail_stop_silent. Qed.

Lemma fail_stop_lift {A} (r : result A) : fail_stop env (lift r).
Proof. apply fail_stop_silent. Qed.

Lemma fail_stop_log (level : log_level) (fmt : string) (args : list log_arg) :
  fail_stop env (emit (Log level fmt args)).
Proof.
  intros s t s' o H. inversion H; subst. simpl. repeat split; try lia.
  all: apply singleton_eq_split in H0 as (-> & -> & ->); simpl in *; congruence.
Qed.

Lemma fail_stop_search (cursor : string) : fail_stop env (search env cursor).
Proof.
  intros s t s' o H. inversion H; subst. simpl. repeat split; try lia.
  all: apply singleton_eq_split in H0 as (-> & -> & ->); simpl in *;
    rewrite !Nat.add_0_r in *; destruct (solr_search env (searches s) cursor);
    simpl; congruence.
Qed.

Lemma fail_stop_indices_exists (index : string) : fail_stop env (indices_exists env index).
Proof.
  intros s t s' o H. inversion H; subst. simpl. repeat split; try lia.
  all: apply singleton_eq_split in H0 as (-> & -> & ->); simpl in *;
    destruct (es_indices_exists env index); simpl; congruence.
Qed.

Lemma fail_stop_indices_create (index : string) (body : option json) :
  fail_stop env (indices_create env index body).
Proof.
  intros s t s' o H. inversion H; subst. simpl. repeat split; try lia.
  all: apply singleton_eq_split in H0 as (-> & -> & ->); simpl in *;
    destruct (es_indices_create env index body); simpl; congruence.
Qed.

Lemma fail_stop_bulk (body index doc_type : string) (refresh : bool) :
  fail_stop env (bulk env body index doc_type refresh).
Proof.
  intros s t s' o H. inversion H; subst. simpl. repeat split; try lia.
  all: apply singleton_eq_split in H0 as (-> & -> & ->); simpl in *;
    rewrite !Nat.add_0_r in *; destruct (es_bulk env (bulks s) body index);
    simpl; congruence.
Qed.

Lemma fail_stop_lpush (key : string) (values : list string) :
  fail_stop env (lpush env key values).
Proof.
  intros s t s' o H. inversion H; subst. simpl.
  repeat split; try (destruct (redis_lpush env key values); simpl; lia).
  all: apply singleton_eq_split in H0 as (-> & -> & ->); simpl in *;
    destruct (redis_lpush env key values); simpl; congruence.
Qed.

Lemma fail_stop_bind {A B} (m : M A) (k : A -> M B) :
  fail_stop env m -> (forall a, fail_stop env (k a)) -> fail_stop env (bind m k).
Proof.
  intros Hm Hk s t s' o H. unfold bind in H.
  destruct (m s) as [[t1 s1] o1] eqn:Em.
  destruct (Hm _ _ _ _ Em) as (Hs1 & Hb1 & Hstop1).
  destruct o1 as [a|e1|].
  - destruct (k a s1) as [[t2 s2] o2] eqn:Ek. inversion H; subst.
    destruct (Hk a _ _ _ _ Ek) as (Hs2 & Hb2 & Hstop2).
    rewrite searches_in_app, bulks_in_app. repeat split; try lia.
    all: apply app_eq_split in H0 as [(post1 & -> & ->)|(pre2 & -> & ->)].
    all: try (destruct (Hstop1 _ _ _ _ eq_refl H1) as [_ Habs]; discriminate).
    all: rewrite searches_in_app, bulks_in_app, !Nat.add_assoc, <- Hs1, <- Hb1 in H1.
    all: now destruct (Hstop2 _ _ _ _ eq_refl H1).
  - inversion H; subst. repeat split; auto.
    all: destruct (Hstop1 _ _ _ _ H0 H1) as [Hpost Heq]; inversion Heq; now subst.
  - inversion H; subst. repeat split; auto.
    all: destruct (Hstop1 _ _ _ _ H0 H1) as [Hpost Heq]; discriminate.
Qed.

Lemma fail_stop_for_list {A} (l : list A) (body : A -> M unit) :
  (forall a, fail_stop env (body a)) -> fail_stop env (for_list l body).
Proof.
  intros Hbody. induction l as [|x l IH]; simpl.
  - apply fail_stop_ret.
  - apply fail_stop_bind; auto.
Qed.

Lemma fail_stop_for_in {A G B} (fuel : nat) (next : G -> M (option (A * G)))
    (body : A -> B -> M B) (g : G) (b : B) :
  (forall g, fail_stop env (next g)) -> (forall a b, fail_stop env (body a b)) ->
  fail_stop env (for_in fuel next body g b).
Proof.
  intros Hnext Hbody. revert g b. induction fuel as [|fuel IH]; intros g b; simpl.
  - apply fail_stop_silent.
  - apply fail_stop_bind; [apply Hnext|].
    intros [[a g']|]; [|apply fail_stop_ret].
    apply fail_stop_bind; auto.
Qed.

Lemma fail_stop_log_read (nb total : Z) : fail_stop env (log_read nb total).
Proof.
  unfold log_read. destruct (total =? 0); [apply fail_stop_lift | apply fail_stop_log].
Qed.

Lemma fail_stop_produce_results_step (every : Z) (at_end : Z -> M unit) (g : pager) :
  (forall n, fail_stop env (at_end n)) ->
  fail_stop env (produce_results_step env every at_end g).
Proof.
  intros Hend. unfold produce_results_step.
  apply fail_stop_bind; [apply fail_stop_search|]. intros results.
  apply fail_stop_bind.
  - destruct (String.eqb (cursorMark g) "*"); [|apply fail_stop_ret].
    apply fail_stop_bind; [apply fail_stop_log | intros; apply fail_stop_ret].
  - intros total.
    destruct (negb (String.eqb (cursorMark g) (nextCursorMark results))).
    + apply fail_stop_bind; [|intros; apply fail_stop_ret].
      destruct (_ =? 0); [apply fail_stop_log_read | apply fail_stop_ret].
    + apply fail_stop_bind; [apply Hend | intros; apply fail_stop_ret].
Qed.

Lemma fail_stop_migrate_page (refresh : bool) (index_name : string)
    (results : list pydict) (nb : Z) :
  fail_stop env (Solr2Es.migrate_page env refresh index_name results nb).
Proof.
  unfold Solr2Es.migrate_page.
  apply fail_stop_bind; [apply fail_stop_lift|]. intros actions.
  apply fail_stop_bind; [apply fail_stop_bulk|]. intros response.
  destruct (errors response); [|apply fail_stop_ret].
  apply fail_stop_bind; [|intros; apply fail_stop_ret].
  apply fail_stop_for_list. intros; apply fail_stop_log.
Qed.

Lemma fail_stop_migrate (refresh : bool) (fuel : nat) (index_name : string)
    (mapping : option json) :
  fail_stop env (Solr2Es.migrate env refresh fuel index_name mapping).
Proof.
  unfold Solr2Es.migrate.
  apply fail_stop_bind; [apply fail_stop_indices_exists|]. intros found.
  apply fail_stop_bind.
  { destruct (negb found); [apply fail_stop_indices_create | apply fail_stop_ret]. }
  intros _. apply fail_stop_bind.
  - apply fail_stop_for_in.
    + intros g. apply fail_stop_produce_results_step. intros; apply fail_stop_ret.
    + intros. apply fail_stop_migrate_page.
  - intros nb. apply fail_stop_bind; [apply fail_stop_log | intros; apply fail_stop_ret].
Qed.
End FailStop.

(** ** Collapsing one-element arrays *)

Lemma remove_arrays_filter_scalar (v : json) :
  is_list v = false -> remove_arrays_filter v = Ok v.
Proof. destruct v; simpl; congruence. Qed.

Lemma remove_arrays_filter_unwrap (v : json) :
  (forall l, v = JList l -> exists x, l = [x] /\ is_list x = false) ->
  remove_arrays_filter (unwrap v) = remove_arrays_filter v.
Proof.
  intros H. destruct v as [ | | | |l| ]; try reflexivity.
  destruct (H l eq_refl) as (x & -> & Hx). simpl.
  now apply remove_arrays_filter_scalar.
Qed.

Lemma remove_arrays_items_scalar_equivalent (items acc : pydict) :
  singleton_arrays items ->
  remove_arrays_items (scalar_equivalent items) acc = remove_arrays_items items acc.
Proof.
  revert acc. induction items as [|[k v] items IH]; intros acc H; simpl; [reflexivity|].
  rewrite remove_arrays_filter_unwrap.
  - destruct (remove_arrays_filter v) as [v'|e]; simpl; [|reflexivity].
    apply IH. intros k' l Hin. apply (H k' l). now right.
  - intros l ->. apply (H k l). now left.
Qed.

Lemma dict_get_scalar_equivalent (k : string) (row : pydict) :
  dict_get k (scalar_equivalent row) = option_map unwrap (dict_get k row).
Proof.
  induction row as [|[k' v] row IH]; simpl; [reflexivity|].
  destruct (String.eqb k k'); [reflexivity | exact IH].
Qed.

Lemma es_action_scalar_equivalent (index_name : string) (row : pydict) :
  singleton_arrays row -> scalar_id row ->
  es_action index_name (scalar_equivalent row) = es_action index_name row.
Proof.
  intros Hsing Hid. unfold es_action, getitem, remove_arrays.
  rewrite dict_get_scalar_equivalent, remove_arrays_items_scalar_equivalent by assumption.
  destruct (dict_get "id" row) as [v|] eqn:E; simpl; [|reflexivity].
  specialize (Hid v E). destruct v; simpl in *; congruence.
Qed.

(** ** What an empty array does *)

Lemma es_action_cases (index_name : string) (row : pydict) :
  (exists a, es_action index_name row = Ok a) \/
  es_action index_name row = Raise IndexError \/
  es_action index_name row = Raise (KeyError "id").
Proof.
  unfold es_action, getitem. destruct (dict_get "id" row) as [v|]; simpl; [|auto].
  unfold remove_arrays.
  destruct (remove_arrays_items_cases row []) as [[d ->]| ->]; simpl; eauto.
Qed.

Lemma es_action_empty_list (index_name : string) (row : pydict) (k : string) :
  In (k, JList []) row ->
  es_action index_name row = Raise IndexError \/
  es_action index_name row = Raise (KeyError "id").
Proof.
  intros Hin. unfold es_action, getitem. destruct (dict_get "id" row) as [v|]; simpl; [|auto].
  unfold remove_arrays. rewrite (remove_arrays_items_empty_list _ _ _ Hin). auto.
Qed.

Lemma results_empty_list (index_name : string) (rows : list pydict) (row : pydict)
    (k : string) :
  In row rows -> In (k, JList []) row ->
  results_ index_name rows = Raise IndexError \/
  results_ index_name rows = Raise (KeyError "id").
Proof.
  intros Hrow Hk. induction rows as [|r rows IH]; [destruct Hrow|]. simpl.
  destruct Hrow as [->|Hrow].
  - destruct (es_action_empty_list index_name row k Hk) as [-> | ->]; auto.
  - destruct (es_action_cases index_name r) as [[a ->]|[-> | ->]]; simpl; auto.
    destruct (IH Hrow) as [-> | ->]; auto.
Qed.

Lemma results_key_error (index_name : string) (rows : list pydict) :
  (forall r, In r rows -> dict_get "id" r <> None) ->
  results_ index_name rows <> Raise (KeyError "id").
Proof.
  induction rows as [|r rows IH]; intros Hid; simpl; [discriminate|].
  assert (Hr : dict_get "id" r <> None) by (apply Hid; now left).
  unfold es_action at 1, getitem. destruct (dict_get "id" r) as [v|]; [|congruence].
  simpl. unfold remove_arrays.
  destruct (remove_arrays_items_cases r []) as [[d ->]| ->]; simpl; [|discriminate].
  assert (IH' : results_ index_name rows <> Raise (KeyError "id")).
  { apply IH. intros r' Hr'. apply Hid. now right. }
  destruct (results_ index_name rows); simpl; congruence.
Qed.

(** ** One turn of the pager *)

Section PagerStep.
Variable env : collaborators.
Variable every : Z.
Variable at_end : Z -> M unit.

Lemma produce_results_step_yield (g : pager) (s : state) (p : solr_page) :
  solr_search env (searches s) (cursorMark g) = Ok p ->
  nextCursorMark p <> cursorMark g ->
  (nb_results (advance g p) mod every = 0 -> nb_total (advance g p) <> 0) ->
  produce_results_step env every at_end g s =
    (SolrSearch (cursorMark g) :: found_events g p ++ progress_events every (advance g p),
     after_search s, Returned (Some (docs p, advance g p))).
Proof.
  intros Hsearch Hnext Hdiv.
  unfold produce_results_step, bind, search, found_events, progress_events,
    advance, total_after in *. simpl in *.
  rewrite Hsearch. simpl.
  assert (Hneq : String.eqb (cursorMark g) (nextCursorMark p) = false).
  { apply String.eqb_neq. congruence. }
  destruct (String.eqb (cursorMark g) "*"); simpl; rewrite Hneq; simpl.
  all: destruct (Z.eqb_spec ((nb_results g + len (docs p)) mod every) 0) as [Hz|Hz];
    simpl; [|reflexivity].
  all: unfold log_read; specialize (Hdiv Hz); apply Z.eqb_neq in Hdiv; rewrite Hdiv;
    reflexivity.
Qed.

Lemma produce_results_step_zero_division (g : pager) (s : state) (p : solr_page) :
  solr_search env (searches s) (cursorMark g) = Ok p ->
  nextCursorMark p <> cursorMark g ->
  nb_results (advance g p) mod every = 0 -> nb_total (advance g p) = 0 ->
  produce_results_step env every at_end g s =
    (SolrSearch (cursorMark g) :: found_events g p, after_search s,
     Raised ZeroDivisionError).
Proof.
  intros Hsearch Hnext Hmod Hzero.
  unfold produce_results_step, bind, search, found_events, advance, total_after in *.
  simpl in *. rewrite Hsearch. simpl.
  assert (Hneq : String.eqb (cursorMark g) (nextCursorMark p) = false).
  { apply String.eqb_neq. congruence. }
  destruct (String.eqb (cursorMark g) "*"); simpl; rewrite Hneq; simpl.
  all: apply Z.eqb_eq in Hmod; rewrite Hmod; unfold log_read;
    apply Z.eqb_eq in Hzero; rewrite Hzero; reflexivity.
Qed.

Lemma produce_results_step_stop (g : pager) (s : state) (last : solr_page)
    (end_events : Z -> list event) :
  (forall n s, at_end n s = (end_events n, s, Returned tt)) ->
  solr_search env (searches s) (cursorMark g) = Ok last ->
  nextCursorMark last = cursorMark g ->
  produce_results_step env every at_end g s =
    (SolrSearch (cursorMark g) :: found_events g last ++ end_events (nb_results g),
     after_search s, Returned None).
Proof.
  intros Hend Hsearch Hnext.
  unfold produce_results_step, bind, search, found_events. simpl.
  rewrite Hsearch. simpl.
  assert (Heq : String.eqb (cursorMark g) (nextCursorMark last) = true).
  { apply String.eqb_eq. congruence. }
  destruct (String.eqb (cursorMark g) "*"); simpl; rewrite Heq; simpl.
  all: rewrite Hend; simpl; now rewrite ?app_nil_r.
Qed.

Lemma produce_results_step_fetch_error (g : pager) (s : state) (e : exn) :
  solr_search env (searches s) (cursorMark g) = Raise e ->
  produce_results_step env every at_end g s =
    ([SolrSearch (cursorMark g)], after_search s, Raised e).
Proof.
  intros Hsearch. unfold produce_results_step, bind, search. now rewrite Hsearch.
Qed.

(** The generator yields exactly when the cursor it gets back differs from
    the one it sent, whatever the page holds. *)
Lemma produce_results_step_yields_iff (g : pager) (s : state) (p : solr_page)
    (t : list event) (s' : state) (r : option (list pydict * pager)) :
  solr_search env (searches s) (cursorMark g) = Ok p ->
  produce_results_step env every at_end g s = (t, s', Returned r) ->
  (r = None <-> nextCursorMark p = cursorMark g) /\
  (r = Some (docs p, advance g p) <-> nextCursorMark p <> cursorMark g).
Proof.
  intros Hsearch Hrun.
  unfold produce_results_step, bind, search in Hrun. rewrite Hsearch in Hrun.
  simpl in Hrun.
  assert (Hr : r = if String.eqb (cursorMark g) (nextCursorMark p)
                   then None else Some (docs p, advance g p)).
  { unfold advance, total_after.
    destruct (String.eqb (cursorMark g) "*"); simpl in Hrun;
      destruct (String.eqb (cursorMark g) (nextCursorMark p)); simpl in Hrun.
    all: repeat match type of Hrun with
           | context [match ?m ?x with _ => _ end] => destruct (m x) as [[? ?] [?| |]]
           | context [if ?c then _ else _] => destruct c
           end; simpl in Hrun; try discriminate; inversion Hrun; reflexivity. }
  destruct (String.eqb_spec (cursorMark g) (nextCursorMark p)) as [Heq|Hne]; subst r.
  - split; split; intros; congruence.
  - split; split; intros; congruence.
Qed.
End PagerStep.

(** ** Whole runs of the pager under a consumer that returns *)

Section PagerRun.
Variable env : collaborators.
Variable every : Z.
Variable at_end : Z -> M unit.
Variable end_events : Z -> list event.
Hypothesis at_end_run : forall n s, at_end n s = (end_events n, s, Returned tt).

Context {B : Type}.
Variable body : list pydict -> B -> M B.
Variable good : list pydict -> Prop.
Variable body_events : list pydict -> B -> state -> list event.
Variable body_state : list pydict -> B -> state -> state.
Variable body_value : list pydict -> B -> state -> B.
Hypothesis body_run :
  forall a b s, good a ->
    body a b s = (body_events a b s, body_state a b s, Returned (body_value a b s)).
Hypothesis body_keeps_searches : forall a b s, searches (body_state a b s) = searches s.

Variable last : solr_page.

#[local] Abbreviation run :=
  (pager_run every end_events body_events body_state body_value last).

Lemma for_in_pager_run (pages : list solr_page) :
  forall (fuel : nat) (g : pager) (b : B) (s : state),
    (length pages < fuel)%nat ->
    serves env (searches s) (cursorMark g) pages last ->
    progress_defined every g pages ->
    Forall (fun p => good (docs p)) pages ->
    for_in fuel (produce_results_step env every at_end) body g b s =
      ((run g pages b s).1.1, (run g pages b s).1.2, Returned (run g pages b s).2).
Proof.
  induction pages as [|p ps IH]; intros fuel g b s Hfuel Hserves Hdef Hgood;
    (destruct fuel as [|fuel]; [simpl in Hfuel; lia|]).
  - destruct Hserves as [Hsearch Hnext]. simpl.
    unfold bind at 1.
    rewrite (produce_results_step_stop env every at_end g s last end_events)
      by assumption.
    simpl. now rewrite app_nil_r.
  - destruct Hserves as (Hsearch & Hnext & Hserves). destruct Hdef as [Hdiv Hdef].
    inversion Hgood as [|? ? Hp Hps]; subst.
    simpl. unfold bind at 1.
    rewrite (produce_results_step_yield env every at_end g s p) by assumption.
    unfold bind at 1. rewrite body_run by assumption.
    rewrite (IH fuel (advance g p) (body_value (docs p) b (after_search s))
               (body_state (docs p) b (after_search s))).
    + f_equal. f_equal. simpl. now rewrite <- !app_assoc.
    + simpl in Hfuel. lia.
    + rewrite body_keeps_searches. exact Hserves.
    + exact Hdef.
    + exact Hps.
Qed.

Hypothesis body_events_searches : forall a b s, searches_in (body_events a b s) = O.
Hypothesis end_events_searches : forall n, searches_in (end_events n) = O.

Lemma searches_in_found_events (g : pager) (p : solr_page) :
  searches_in (found_events g p) = O.
Proof. unfold found_events. now destruct (String.eqb _ _). Qed.

Lemma searches_in_progress_events (g : pager) : searches_in (progress_events every g) = O.
Proof. unfold progress_events. now destruct (_ =? 0). Qed.

(** One request per page, and one more. *)
Lemma pager_run_searches (pages : list solr_page) (g : pager) (b : B) (s : state) :
  searches_in (run g pages b s).1.1 = S (length pages).
Proof.
  revert g b s. induction pages as [|p ps IH]; intros g b s; simpl.
  - now rewrite searches_in_app, searches_in_found_events, end_events_searches.
  - rewrite !searches_in_app, searches_in_found_events, searches_in_progress_events,
      body_events_searches, IH. reflexivity.
Qed.

Hypothesis body_events_progress :
  forall a b s, List.filter is_progress (body_events a b s) = [].
Hypothesis end_events_progress : forall n, List.filter is_progress (end_events n) = [].

Lemma filter_progress_found_events (g : pager) (p : solr_page) :
  List.filter is_progress (found_events g p) = [].
Proof. unfold found_events. now destruct (String.eqb _ _). Qed.

Lemma filter_progress_progress_events (g : pager) :
  List.filter is_progress (progress_events every g) = progress_events every g.
Proof. unfold progress_events. now destruct (_ =? 0). Qed.

(** The progress lines of a run are those of its pages. *)
Lemma pager_run_progress (pages : list solr_page) (g : pager) (b : B) (s : state) :
  List.filter is_progress (run g pages b s).1.1 = progress_lines every g pages.
Proof.
  revert g b s. induction pages as [|p ps IH]; intros g b s; simpl.
  - now rewrite List.filter_app, filter_progress_found_events, end_events_progress.
  - rewrite !List.filter_app, filter_progress_found_events,
      filter_progress_progress_events, body_events_progress. fold run.
    rewrite IH. reflexivity.
Qed.
End PagerRun.

(** ** The queue after a dump *)

Lemma queue_after_lpush (key : string) (values : list string) (s : state) :
  queue key (after_lpush key values s) = rev values ++ queue key s.
Proof. unfold queue at 1, after_lpush. simpl. now rewrite lookup_insert_eq. Qed.

Lemma redis_after_lpush_other (key k : string) (values : list string) (s : state) :
  k <> key -> redis (after_lpush key values s) !! k = redis s !! k.
Proof. intros Hne. unfold after_lpush. simpl. now rewrite lookup_insert_ne. Qed.


Lemma redis_dump_state_other (pages : list solr_page) (s : state) (k : string) :
  k <> QUEUE_KEY -> redis (dump_state s pages) !! k = redis s !! k.
Proof.
  intros Hne. revert s. induction pages as [|p ps IH]; intros s; [reflexivity|].
  unfold dump_state in *. simpl. now rewrite IH, redis_after_lpush_other.
Qed.

Lemma counters_dump_state (pages : list solr_page) (s : state) :
  searches (dump_state s pages) = (searches s + length pages)%nat /\
  bulks (dump_state s pages) = bulks s.
Proof.
  revert s. induction pages as [|p ps IH]; intros s; simpl; [split; [lia|reflexivity]|].
  unfold dump_state in *. simpl. destruct (IH (after_lpush QUEUE_KEY
    (serialize_page (docs p)) (after_search s))) as [-> ->]. simpl. split; [lia|reflexivity].
Qed.

(** ** A page through [migrate_page] *)

Lemma for_list_emit {A} (f : A -> event) (l : list A) (s : state) :
  for_list l (fun a => emit (f a)) s = (map f l, s, Returned tt).
Proof.
  induction l as [|a l IH]; simpl; [reflexivity|].
  unfold bind. simpl. now rewrite IH.
Qed.

Section MigratePage.
Variable env : collaborators.
Variable refresh : bool.
Variable index_name : string.
Hypothesis Haccepts : accepts_bulks env index_name.

Lemma migrate_page_run (results : list pydict) (nb : Z) (s : state) :
  transforms index_name results ->
  Solr2Es.migrate_page env refresh index_name results nb s =
    (migrate_page_events env refresh index_name results nb s,
     migrate_page_state results nb s,
     Returned (migrate_page_value env index_name results nb s)).
Proof.
  intros Hok. unfold transforms in Hok.
  unfold Solr2Es.migrate_page, migrate_page_events, migrate_page_state,
    migrate_page_value, bulk_answer, bulk_body, warnings, subtracted, bind, lift, bulk.
  destruct (create_es_actions index_name results) as [actions|e]; [|discriminate].
  simpl. specialize (Haccepts (bulks s) actions).
  destruct (es_bulk env (bulks s) actions index_name) as [response|e]; [|discriminate].
  simpl. destruct (errors response); simpl; [|now rewrite Z.sub_0_r].
  rewrite for_list_emit. simpl. now rewrite app_nil_r.
Qed.

Lemma async_migrate_page_run (results : list pydict) (nb : Z) (s : state) :
  transforms index_name results ->
  Solr2EsAsync.migrate_page env refresh index_name results nb s =
    (async_page_events refresh index_name results nb s,
     migrate_page_state results nb s,
     Returned (async_page_value results nb s)).
Proof.
  intros Hok. unfold transforms in Hok.
  unfold Solr2EsAsync.migrate_page, async_page_events, migrate_page_state,
    async_page_value, bulk_body, bind, lift, bulk.
  destruct (create_es_actions index_name results) as [actions|e]; [|discriminate].
  simpl. specialize (Haccepts (bulks s) actions).
  destruct (es_bulk env (bulks s) actions index_name) as [response|e]; [|discriminate].
  reflexivity.
Qed.
End MigratePage.

Lemma searches_in_warnings (r : bulk_response) : searches_in (warnings r) = O.
Proof. unfold warnings. destruct (errors r); [|reflexivity]. now induction (items r). Qed.

Lemma filter_progress_warnings (r : bulk_response) :
  List.filter is_progress (warnings r) = [].
Proof. unfold warnings. destruct (errors r); [|reflexivity]. now induction (items r). Qed.

Lemma bulks_in_warnings (r : bulk_response) : bulks_in (warnings r) = O.
Proof. unfold warnings. destruct (errors r); [|reflexivity]. now induction (items r). Qed.

(** ** Whole runs of the three consumers *)

Section WholeRuns.
Variable env : collaborators.
Variable refresh : bool.
Variable index_name : string.
Variable last : solr_page.
Variable pages : list solr_page.
Variable fuel : nat.
Variable s : state.
Hypothesis Hfuel : (length pages < fuel)%nat.
Hypothesis Hserves : serves env (searches s) "*" pages last.
Hypothesis Hdefined : progress_defined 10000 pager_start pages.





Hypothesis Haccepts : accepts_bulks env index_name.
Hypothesis Htransforms : Forall (fun p => transforms index_name (docs p)) pages.

Lemma migrate_loop_whole_run :
  for_in fuel (Solr2Es.produce_results_next env)
    (Solr2Es.migrate_page env refresh index_name) pager_start 0 s =
    ((migrate_run env refresh index_name last pages s).1.1,
     (migrate_run env refresh index_name last pages s).1.2,
     Returned (migrate_run env refresh index_name last pages s).2).
Proof.
  unfold Solr2Es.produce_results_next, migrate_run.
  apply (for_in_pager_run env 10000 (fun _ => ret tt) no_end_events
           (fun _ _ => eq_refl) (Solr2Es.migrate_page env refresh index_name)
           (transforms index_name)); auto.
  intros a b s0 Ha. now apply migrate_page_run.
Qed.

Lemma async_migrate_whole_run :
  Solr2EsAsync.migrate env refresh fuel index_name s =
    ((async_migrate_run refresh index_name last pages s).1.1,
     (async_migrate_run refresh index_name last pages s).1.2,
     Returned (async_migrate_run refresh index_name last pages s).2).
Proof.
  unfold Solr2EsAsync.migrate, Solr2EsAsync.produce_results_next, async_migrate_run.
  apply (for_in_pager_run env 10000
             (fun nb_results => emit (Log INFO FMT_PROCESSED [ArgInt nb_results]))
             processed_event
           (fun _ _ => eq_refl) (Solr2EsAsync.migrate_page env refresh index_name)
           (transforms index_name)); auto.
  intros a b s0 Ha. now apply async_migrate_page_run.
Qed.

Variable mapping : option json.
Variable found : bool.
Hypothesis Hexists : es_indices_exists env index_name = Ok found.
Hypothesis Hcreate : found = false -> es_indices_create env index_name mapping = Ok tt.

Lemma migrate_whole_run :
  Solr2Es.migrate env refresh fuel index_name mapping s =
    (IndicesExists index_name
       :: (if found then [] else [IndicesCreate index_name mapping])
       ++ (migrate_run env refresh index_name last pages s).1.1
       ++ [Log INFO FMT_PROCESSED [ArgInt (migrate_run env refresh index_name last pages s).2]],
     (migrate_run env refresh index_name last pages s).1.2,
     Returned (migrate_run env refresh index_name last pages s).2).
Proof.
  unfold Solr2Es.migrate. unfold bind at 1, indices_exists. rewrite Hexists. simpl.
  unfold bind at 1. destruct found; simpl.
  - unfold bind at 1. rewrite migrate_loop_whole_run. reflexivity.
  - unfold indices_create. rewrite Hcreate by reflexivity. simpl.
    unfold bind at 1. rewrite migrate_loop_whole_run. reflexivity.
Qed.
End WholeRuns.

(** The counters and the progress lines of these runs. *)

Lemma migrate_run_searches env refresh index_name last pages s :
  searches_in (migrate_run env refresh index_name last pages s).1.1 = S (length pages).
Proof.
  apply pager_run_searches; [|reflexivity].
  intros a b s0. unfold migrate_page_events. simpl. apply searches_in_warnings.
Qed.

Lemma migrate_run_progress env refresh index_name last pages s :
  List.filter is_progress (migrate_run env refresh index_name last pages s).1.1
  = progress_lines 10000 pager_start pages.
Proof.
  apply pager_run_progress; [|reflexivity].
  intros a b s0. unfold migrate_page_events. simpl. apply filter_progress_warnings.
Qed.


Lemma dump_run_progress last pages s :
  List.filter is_progress (dump_run last pages s).1.1 = progress_lines 10000 pager_start pages.
Proof. apply pager_run_progress; reflexivity. Qed.



(** ** Pagination ends at the repeated cursor

    Whenever the progress line is defined, a source that serves [K] pages
    and then repeats the cursor is asked exactly [K + 1] times, by the
    migration as by the dump: each page is consumed, whatever it holds, and
    the run returns. *)

Lemma migrate_requests env refresh fuel index_name mapping found pages last s :
  es_indices_exists env index_name = Ok found ->
  (found = false -> es_indices_create env index_name mapping = Ok tt) ->
  accepts_bulks env index_name ->
  serves env (searches s) "*" pages last ->
  progress_defined 10000 pager_start pages ->
  Forall (fun p => transforms index_name (docs p)) pages ->
  (length pages < fuel)%nat ->
  exists t s' n,
    Solr2Es.migrate env refresh fuel index_name mapping s = (t, s', Returned n) /\
    searches_in t = S (length pages) /\
    n = (migrate_run env refresh index_name last pages s).2.
Proof.
  intros Hexists Hcreate Haccepts Hserves Hdefined Htransforms Hfuel.
  eexists. eexists. eexists. split; [|split; [|reflexivity]].
  - apply (migrate_whole_run env refresh index_name last pages fuel s Hfuel Hserves
             Hdefined Haccepts Htransforms mapping found Hexists Hcreate).
  - simpl. destruct found; simpl.
    all: rewrite searches_in_app, migrate_run_searches; simpl; lia.
Qed.


(** ** Where the two pipelines agree

    Over the same pages the blocking and the asyncio runs make the same bulk
    writes, and they return the same count when no bulk response reports
    an error. *)

Lemma filter_bulk_found_events (g : pager) (p : solr_page) :
  List.filter is_bulk (found_events g p) = [].
Proof. unfold found_events. now destruct (String.eqb _ _). Qed.

Lemma filter_bulk_progress_events (every : Z) (g : pager) :
  List.filter is_bulk (progress_events every g) = [].
Proof. unfold progress_events. now destruct (_ =? 0). Qed.

Lemma filter_bulk_warnings (r : bulk_response) : List.filter is_bulk (warnings r) = [].
Proof. unfold warnings. destruct (errors r); [|reflexivity]. now induction (items r). Qed.

Lemma sync_async_same_bulk_writes env refresh index_name last pages :
  forall g b1 b2 s,
    List.filter is_bulk
      (pager_run 10000 no_end_events (migrate_page_events env refresh index_name)
         migrate_page_state (migrate_page_value env index_name) last g pages b1 s).1.1
    = List.filter is_bulk
        (pager_run 10000 processed_event (async_page_events refresh index_name)
           migrate_page_state async_page_value last g pages b2 s).1.1.
Proof.
  induction pages as [|p ps IH]; intros g b1 b2 s; cbn [pager_run fst snd List.filter is_bulk].
  - now rewrite !List.filter_app, !filter_bulk_found_events.
  - rewrite !List.filter_app, !filter_bulk_found_events, !filter_bulk_progress_events.
    unfold migrate_page_events, async_page_events.
    cbn [List.filter is_bulk app]. rewrite filter_bulk_warnings.
    cbn [app]. f_equal. apply IH.
Qed.

Lemma migrate_page_value_clean env index_name results nb s :
  never_reports_errors env index_name ->
  migrate_page_value env index_name results nb s = async_page_value results nb s.
Proof.
  intros Hclean. unfold migrate_page_value, async_page_value, subtracted, bulk_answer.
  destruct (es_bulk env _ _ index_name) as [response|e] eqn:E; simpl; [|lia].
  rewrite (Hclean _ _ _ E). lia.
Qed.

Lemma sync_async_same_count env refresh index_name last pages :
  never_reports_errors env index_name ->
  forall g b s,
    (pager_run 10000 no_end_events (migrate_page_events env refresh index_name)
       migrate_page_state (migrate_page_value env index_name) last g pages b s).2
    = (pager_run 10000 processed_event (async_page_events refresh index_name)
         migrate_page_state async_page_value last g pages b s).2.
Proof.
  intros Hclean. induction pages as [|p ps IH]; intros g b s;
    cbn [pager_run fst snd]; [reflexivity|].
  rewrite migrate_page_value_clean by assumption. apply IH.
Qed.


(** ** The tally of a page, and of a run of 25 documents *)

(** The code subtracts the number of failed entries only when the response
    lists nothing but failures. *)
Lemma subtracted_failures (r : bulk_response) :
  errors r = true ->
  Forall (fun i => item_error i <> None) (items r) ->
  subtracted r = len (failed_items r).
Proof.
  intros Herr Hall. unfold subtracted, failed_items, len. rewrite Herr. f_equal.
  induction Hall as [|i l Hi Hl IH]; simpl; [reflexivity|].
  destruct (item_error i); [simpl; now rewrite IH | congruence].
Qed.

Lemma migrate_25_documents :
  (Solr2Es.migrate (healthy search_10_10_5) false 5 "idx" None initial_state).2
    = Returned 25 /\
  (Solr2Es.migrate env_25_second_write_fails_twice false 5 "idx" None initial_state).2
    = Returned 15.
Proof. split; vm_compute; reflexivity. Qed.

(** * Further lemmas *)

(** ** The transformer on arbitrary rows *)

Lemma remove_arrays_items_ok (items acc : pydict) :
  (forall k, ~ In (k, JList []) items) ->
  exists d, remove_arrays_items items acc = Ok d.
Proof.
  revert acc. induction items as [|[k v] items IH]; intros acc Hne; simpl.
  - now exists acc.
  - rewrite remove_arrays_filter_ok.
    + simpl. apply IH. intros k' Hin. apply (Hne k'). now right.
    + intros ->. apply (Hne k). now left.
Qed.

Lemma remove_arrays_items_raise (items acc : pydict) :
  remove_arrays_items items acc = Raise IndexError ->
  exists k, In (k, JList []) items.
Proof.
  revert acc. induction items as [|[k v] items IH]; intros acc H; simpl in H.
  - discriminate.
  - destruct v as [ | | | |[|x l]| ]; simpl in H.
    all: try (destruct (IH _ H) as [k0 Hk0]; exists k0; now right).
    exists k. now left.
Qed.

Lemma collapse_keys (row : pydict) : map fst (collapse row) = map fst row.
Proof. unfold collapse. induction row as [|[k v] row IH]; simpl; [reflexivity | now rewrite IH]. Qed.

Lemma dict_get_collapse (k : string) (row : pydict) :
  dict_get k (collapse row) = option_map first_element (dict_get k row).
Proof.
  induction row as [|[k' v] row IH]; simpl; [reflexivity|].
  destruct (String.eqb k k'); [reflexivity | exact IH].
Qed.

Lemma remove_arrays_ok_collapse (row d : pydict) :
  NoDup (map fst row) -> remove_arrays row = Ok d -> d = collapse row.
Proof.
  intros Hnd Hok.
  assert (Hne : forall k, ~ In (k, JList []) row).
  { intros k Hin. unfold remove_arrays in Hok.
    rewrite (remove_arrays_items_empty_list _ _ _ Hin) in Hok. discriminate. }
  rewrite (remove_arrays_collapse row Hnd Hne) in Hok. congruence.
Qed.

Lemma collapse_scalars (row : pydict) (k : string) (v : json) :
  arrays_of_scalars row -> (forall k, ~ In (k, JList []) row) ->
  In (k, v) (collapse row) -> is_list v = false.
Proof.
  intros Hsc Hne Hin. unfold collapse in Hin.
  apply in_map_iff in Hin as ([k' v'] & Heq & Hin).
  simpl in Heq. injection Heq as <- <-.
  destruct v' as [ | | | |[|x l]| ]; simpl; try reflexivity.
  - exfalso. now apply (Hne k').
  - apply (Hsc k' (x :: l) x Hin). now left.
Qed.

Lemma remove_arrays_items_scalars (items acc : pydict) :
  (forall k v, In (k, v) items -> is_list v = false) ->
  remove_arrays_items items acc = Ok (fold_left (fun d kv => dict_set (fst kv) (snd kv) d) items acc).
Proof.
  revert acc. induction items as [|[k v] items IH]; intros acc H; simpl; [reflexivity|].
  rewrite remove_arrays_filter_scalar by (apply (H k); now left).
  simpl. apply IH. intros k' v' Hin. apply (H k' v'). now right.
Qed.

Lemma fold_dict_set_fresh (items acc : pydict) :
  NoDup (map fst acc ++ map fst items) ->
  fold_left (fun d kv => dict_set (fst kv) (snd kv) d) items acc = acc ++ items.
Proof.
  revert acc. induction items as [|[k v] items IH]; intros acc Hnd; simpl.
  - now rewrite app_nil_r.
  - rewrite dict_set_fresh.
    + rewrite IH; [now rewrite <- app_assoc|].
      rewrite map_app, <- app_assoc. exact Hnd.
    + simpl in Hnd. apply NoDup_app in Hnd as (_ & Hdisj & _). intros Hin.
      apply (Hdisj k); [now apply list_elem_of_In | left].
Qed.

(** ** Concatenating pages *)

Lemma results_app (index_name : string) (a b : list pydict) :
  results_ index_name (a ++ b) =
  (ra <-? results_ index_name a; rb <-? results_ index_name b; Ok (ra ++ rb)).
Proof.
  induction a as [|row a IH]; simpl.
  - now destruct (results_ index_name b).
  - destruct (es_action index_name row) as [x|e]; simpl; [|reflexivity].
    rewrite IH. destruct (results_ index_name a) as [ra|e]; simpl; [|reflexivity].
    now destruct (results_ index_name b).
Qed.

Lemma results_length (index_name : string) (rows : list pydict) (rs : list (json * json)) :
  results_ index_name rows = Ok rs -> length rs = length rows.
Proof.
  revert rs. induction rows as [|row rows IH]; intros rs H; simpl in H.
  - now inversion H.
  - destruct (es_action index_name row) as [x|e]; simpl in H; [|discriminate].
    destruct (results_ index_name rows) as [r|e]; simpl in H; [|discriminate].
    inversion H; subst. simpl. now rewrite (IH r).
Qed.

Lemma chain_app (a b : list (json * json)) : chain (a ++ b) = chain a ++ chain b.
Proof. unfold chain. apply flat_map_app. Qed.

Lemma chain_nonempty (a : list (json * json)) : a <> [] -> chain a <> [].
Proof. destruct a as [|[x y] a]; [congruence | discriminate]. Qed.

Lemma concat_app_nonempty (sep : string) (l1 l2 : list string) :
  l1 <> [] -> l2 <> [] ->
  String.concat sep (l1 ++ l2) = String.concat sep l1 +:+ sep +:+ String.concat sep l2.
Proof.
  intros H1 H2. induction l1 as [|x l1 IH]; [congruence|].
  destruct l1 as [|y l1].
  - simpl. destruct l2; [congruence | reflexivity].
  - change (String.concat sep ((x :: y :: l1) ++ l2))
      with (x +:+ sep +:+ String.concat sep ((y :: l1) ++ l2)).
    rewrite IH by discriminate.
    change (String.concat sep (x :: y :: l1)) with (x +:+ sep +:+ String.concat sep (y :: l1)).
    now rewrite !string_app_assoc.
Qed.

(** ** [dumps] emits printable ASCII only *)

Lemma all_chars_app (P : ascii -> bool) (a b : string) :
  all_chars P (a +:+ b) = all_chars P a && all_chars P b.
Proof.
  induction a as [|x a IH]; string_simpl; [reflexivity|].
  rewrite IH. now rewrite andb_assoc.
Qed.

Lemma all_chars_impl (P Q : ascii -> bool) (s : string) :
  (forall c, P c = true -> Q c = true) -> all_chars P s = true -> all_chars Q s = true.
Proof.
  intros HPQ. induction s as [|c s IH]; simpl; [reflexivity|].
  intros H. apply andb_true_iff in H as [Hc Hs].
  now rewrite (HPQ c Hc), (IH Hs).
Qed.

Lemma all_chars_concat (P : ascii -> bool) (sep : string) (ls : list string) :
  all_chars P sep = true -> Forall (fun l => all_chars P l = true) ls ->
  all_chars P (String.concat sep ls) = true.
Proof.
  intros Hsep Hls. induction Hls as [|l ls Hl Hls IH]; simpl; [reflexivity|].
  destruct ls as [|l' ls']; [exact Hl|].
  rewrite !all_chars_app, Hl, Hsep, IH. reflexivity.
Qed.

Lemma escape_char_printable (c : ascii) : all_chars printable (escape_char c) = true.
Proof. destruct c as [[] [] [] [] [] [] [] []]; reflexivity. Qed.

Lemma escape_string_printable (s : string) : all_chars printable (escape_string s) = true.
Proof.
  induction s as [|c s IH]; simpl; [reflexivity|].
  now rewrite all_chars_app, escape_char_printable, IH.
Qed.

Lemma encode_string_printable (s : string) : all_chars printable (encode_string s) = true.
Proof.
  unfold encode_string. simpl. now rewrite all_chars_app, escape_string_printable.
Qed.

Lemma string_of_uint_printable (d : Decimal.uint) :
  all_chars printable (NilEmpty.string_of_uint d) = true.
Proof. induction d; simpl; auto. Qed.

Lemma dumps_int_printable (z : Z) : all_chars printable (dumps_int z) = true.
Proof.
  unfold dumps_int, NilZero.string_of_int, NilZero.string_of_uint.
  destruct (Z.to_int z) as [d|d]; destruct d; simpl; auto using string_of_uint_printable.
Qed.

Lemma dumps_printable (v : json) : all_chars printable (dumps v) = true.
Proof.
  induction v as [ |b|z|s|l IHl|d IHd] using json_nested_ind.
  - reflexivity.
  - now destruct b.
  - apply dumps_int_printable.
  - apply encode_string_printable.
  - rewrite dumps_JList, !all_chars_app, all_chars_concat; [reflexivity|reflexivity|].
    apply Forall_map. exact IHl.
  - rewrite dumps_JDict, !all_chars_app, all_chars_concat; [reflexivity|reflexivity|].
    apply Forall_map. eapply Forall_impl; [exact IHd|].
    intros [k x] H. cbn [fst snd compose] in *.
    now rewrite !all_chars_app, encode_string_printable, H.
Qed.

Lemma printable_no_LF (s : string) : all_chars printable s = true -> has_LF s = false.
Proof.
  induction s as [|c s IH]; simpl; [reflexivity|].
  intros H. apply andb_true_iff in H as [Hc Hs]. rewrite (IH Hs), orb_false_r.
  destruct c as [[] [] [] [] [] [] [] []]; try reflexivity; discriminate.
Qed.

(** ** What a run never does *)

Section Confined.
Variable P : event -> bool.
Variable R : state -> state -> Prop.
Hypothesis R_refl : forall s, R s s.
Hypothesis R_trans : forall s1 s2 s3, R s1 s2 -> R s2 s3 -> R s1 s3.

Lemma confined_silent {A} (o : outcome A) : confined P R (fun s => ([], s, o)).
Proof. intros s t s' o' H. inversion H; subst. split; [reflexivity | apply R_refl]. Qed.

Lemma confined_ret {A} (a : A) : confined P R (ret a).
Proof. apply confined_silent. Qed.

Lemma confined_lift {A} (r : result A) : confined P R (lift r).
Proof. apply confined_silent. Qed.

Lemma confined_emit (ev : event) : P ev = true -> confined P R (emit ev).
Proof.
  intros HP s t s' o H. inversion H; subst. simpl. rewrite HP. split; [reflexivity | apply R_refl].
Qed.

Lemma confined_bind {A B} (m : M A) (k : A -> M B) :
  confined P R m -> (forall a, confined P R (k a)) -> confined P R (bind m k).
Proof.
  intros Hm Hk s t s' o H. unfold bind in H.
  destruct (m s) as [[t1 s1] o1] eqn:Em. destruct (Hm _ _ _ _ Em) as [Ht1 Hs1].
  destruct o1 as [a|e|].
  - destruct (k a s1) as [[t2 s2] o2] eqn:Ek. inversion H; subst.
    destruct (Hk a _ _ _ _ Ek) as [Ht2 Hs2]. split.
    + rewrite forallb_app, Ht1, Ht2. reflexivity.
    + eapply R_trans; eassumption.
  - inversion H; subst. now split.
  - inversion H; subst. now split.
Qed.

Lemma confined_for_list {A} (l : list A) (body : A -> M unit) :
  (forall a, confined P R (body a)) -> confined P R (for_list l body).
Proof.
  intros Hbody. induction l as [|x l IH]; simpl.
  - apply confined_ret.
  - apply confined_bind; auto.
Qed.

Lemma confined_for_in {A G B} (fuel : nat) (next : G -> M (option (A * G)))
    (body : A -> B -> M B) (g : G) (b : B) :
  (forall g, confined P R (next g)) -> (forall a b, confined P R (body a b)) ->
  confined P R (for_in fuel next body g b).
Proof.
  intros Hnext Hbody. revert g b. induction fuel as [|fuel IH]; intros g b; simpl.
  - apply confined_silent.
  - apply confined_bind; [apply Hnext|].
    intros [[a g']|]; [|apply confined_ret].
    apply confined_bind; auto.
Qed.

Variable env : collaborators.
Hypothesis P_log : forall level fmt args, P (Log level fmt args) = true.
Hypothesis P_search : forall c, P (SolrSearch c) = true.
Hypothesis R_search : forall s, R s (after_search s).

Lemma confined_search (cursor : string) : confined P R (search env cursor).
Proof.
  intros s t s' o H. inversion H; subst. simpl. rewrite P_search.
  split; [reflexivity | apply R_search].
Qed.

Lemma confined_log_read (nb total : Z) : confined P R (log_read nb total).
Proof.
  unfold log_read. destruct (total =? 0); [apply confined_lift | now apply confined_emit].
Qed.

Lemma confined_produce_results_step (every : Z) (at_end : Z -> M unit) (g : pager) :
  (forall n, confined P R (at_end n)) ->
  confined P R (produce_results_step env every at_end g).
Proof.
  intros Hend. unfold produce_results_step.
  apply confined_bind; [apply confined_search|]. intros results.
  apply confined_bind.
  - destruct (String.eqb (cursorMark g) "*"); [|apply confined_ret].
    apply confined_bind; [now apply confined_emit | intros; apply confined_ret].
  - intros total.
    destruct (negb (String.eqb (cursorMark g) (nextCursorMark results))).
    + apply confined_bind; [|intros; apply confined_ret].
      destruct (_ =? 0); [apply confined_log_read | apply confined_ret].
    + apply confined_bind; [apply Hend | intros; apply confined_ret].
Qed.

Lemma confined_sync_next (g : pager) : confined P R (Solr2Es.produce_results_next env g).
Proof. apply confined_produce_results_step. intros; apply confined_ret. Qed.

Lemma confined_async_next (g : pager) :
  confined P R (Solr2EsAsync.produce_results_next env g).
Proof. apply confined_produce_results_step. intros; now apply confined_emit. Qed.

(** The migrations, given what a bulk write and the provisioning calls do. *)
Hypothesis P_bulk : forall body index doc_type refresh, P (EsBulk body index doc_type refresh) = true.
Hypothesis R_bulk : forall s, R s (after_bulk s).

Lemma confined_bulk (body index doc_type : string) (refresh : bool) :
  confined P R (bulk env body index doc_type refresh).
Proof.
  intros s t s' o H. inversion H; subst. simpl. rewrite P_bulk.
  split; [reflexivity | apply R_bulk].
Qed.

Lemma confined_migrate_page (refresh : bool) (index_name : string)
    (results : list pydict) (nb : Z) :
  confined P R (Solr2Es.migrate_page env refresh index_name results nb).
Proof.
  unfold Solr2Es.migrate_page.
  apply confined_bind; [apply confined_lift|]. intros actions.
  apply confined_bind; [apply confined_bulk|]. intros response.
  destruct (errors response); [|apply confined_ret].
  apply confined_bind; [|intros; apply confined_ret].
  apply confined_for_list. intros; now apply confined_emit.
Qed.

Lemma confined_migrate_loop (refresh : bool) (fuel : nat) (index_name : string) :
  confined P R
    (nb_results <- for_in fuel (Solr2Es.produce_results_next env)
                     (Solr2Es.migrate_page env refresh index_name) pager_start 0;;
     emit (Log INFO FMT_PROCESSED [ArgInt nb_results]);;
     ret nb_results).
Proof.
  apply confined_bind.
  - apply confined_for_in; [apply confined_sync_next|]. intros; apply confined_migrate_page.
  - intros nb. apply confined_bind; [now apply confined_emit | intros; apply confined_ret].
Qed.

Lemma confined_async_migrate (refresh : bool) (fuel : nat) (index_name : string) :
  confined P R (Solr2EsAsync.migrate env refresh fuel index_name).
Proof.
  unfold Solr2EsAsync.migrate. apply confined_for_in; [apply confined_async_next|].
  intros results nb. unfold Solr2EsAsync.migrate_page.
  apply confined_bind; [apply confined_lift|]. intros actions.
  apply confined_bind; [apply confined_bulk | intros; apply confined_ret].
Qed.
End Confined.

(** *** The migrations and Redis, the dumps and Elasticsearch *)

Lemma same_redis_refl (s : state) : same_redis s s.
Proof. reflexivity. Qed.

Lemma same_redis_trans (s1 s2 s3 : state) :
  same_redis s1 s2 -> same_redis s2 s3 -> same_redis s1 s3.
Proof. unfold same_redis. congruence. Qed.

Lemma queue_grew_refl (s : state) : queue_grew s s.
Proof. repeat split. now exists []. Qed.

Lemma queue_grew_trans (s1 s2 s3 : state) :
  queue_grew s1 s2 -> queue_grew s2 s3 -> queue_grew s1 s3.
Proof.
  intros (Hb1 & Hk1 & p1 & Hq1) (Hb2 & Hk2 & p2 & Hq2). split; [congruence|]. split.
  - intros k Hk. now rewrite Hk2, Hk1.
  - exists (p2 ++ p1). now rewrite Hq2, Hq1, app_assoc.
Qed.

Lemma queue_grew_search (s : state) : queue_grew s (after_search s).
Proof. repeat split. now exists []. Qed.

Lemma any_state_refl (s : state) : any_state s s.
Proof. exact I. Qed.

Lemma any_state_trans (s1 s2 s3 : state) : any_state s1 s2 -> any_state s2 s3 -> any_state s1 s3.
Proof. intros _ _. exact I. Qed.

Lemma confined_consume_page env (results : list pydict) :
  confined not_es queue_grew (lpush env QUEUE_KEY (serialize_page results)).
Proof.
  intros s t s' o H. unfold lpush in H. inversion H; subst. split; [reflexivity|].
  destruct (redis_lpush env QUEUE_KEY (serialize_page results)).
  - split; [reflexivity|]. split.
    + intros k Hk. now apply redis_after_lpush_other.
    + exists (rev (serialize_page results)). apply queue_after_lpush.
  - apply queue_grew_refl.
Qed.

Lemma confined_dump env fuel solrurl redishost :
  confined not_es queue_grew (dump_into_redis env fuel solrurl redishost).
Proof.
  unfold dump_into_redis.
  apply (confined_bind not_es queue_grew queue_grew_trans).
  - apply (confined_emit not_es queue_grew queue_grew_refl). reflexivity.
  - intros _. unfold RedisConsumer.consume.
    apply (confined_for_in not_es queue_grew queue_grew_refl queue_grew_trans).
    + intros g.
      apply (confined_sync_next not_es queue_grew queue_grew_refl queue_grew_trans env);
        [reflexivity | reflexivity | apply queue_grew_search].
    + intros results b. apply confined_consume_page.
Qed.

Lemma confined_aiodump env fuel solrurl redishost :
  confined not_es queue_grew (aiodump_into_redis env fuel solrurl redishost).
Proof.
  unfold aiodump_into_redis.
  apply (confined_bind not_es queue_grew queue_grew_trans).
  - apply (confined_emit not_es queue_grew queue_grew_refl). reflexivity.
  - intros _. unfold RedisConsumerAsync.consume.
    apply (confined_for_in not_es queue_grew queue_grew_refl queue_grew_trans).
    + intros g.
      apply (confined_async_next not_es queue_grew queue_grew_refl queue_grew_trans env);
        [reflexivity | reflexivity | apply queue_grew_search].
    + intros results b. apply confined_consume_page.
Qed.

Lemma confined_indices_exists env P R (index : string) :
  (forall s, R s s) -> P (IndicesExists index) = true ->
  confined P R (indices_exists env index).
Proof.
  intros HR HP s t s' o H. inversion H; subst. simpl. rewrite HP. split; [reflexivity | apply HR].
Qed.

Lemma confined_indices_create env P R (index : string) (body : option json) :
  (forall s, R s s) -> P (IndicesCreate index body) = true ->
  confined P R (indices_create env index body).
Proof.
  intros HR HP s t s' o H. inversion H; subst. simpl. rewrite HP. split; [reflexivity | apply HR].
Qed.

Lemma confined_migrate_redis env refresh fuel index_name mapping :
  confined not_redis same_redis (Solr2Es.migrate env refresh fuel index_name mapping).
Proof.
  unfold Solr2Es.migrate.
  apply (confined_bind not_redis same_redis same_redis_trans).
  - apply confined_indices_exists; [apply same_redis_refl | reflexivity].
  - intros found. apply (confined_bind not_redis same_redis same_redis_trans).
    + destruct (negb found).
      * apply confined_indices_create; [apply same_redis_refl | reflexivity].
      * apply confined_ret. apply same_redis_refl.
    + intros _.
      apply (confined_migrate_loop not_redis same_redis same_redis_refl same_redis_trans);
        reflexivity.
Qed.

Lemma confined_async_migrate_redis env refresh fuel index_name :
  confined not_redis same_redis (Solr2EsAsync.migrate env refresh fuel index_name).
Proof.
  apply (confined_async_migrate not_redis same_redis same_redis_refl same_redis_trans);
    reflexivity.
Qed.

Lemma confined_migrate_loop_provisioning env refresh fuel index_name :
  confined not_provisioning any_state
    (nb_results <- for_in fuel (Solr2Es.produce_results_next env)
                     (Solr2Es.migrate_page env refresh index_name) pager_start 0;;
     emit (Log INFO FMT_PROCESSED [ArgInt nb_results]);;
     ret nb_results).
Proof.
  apply (confined_migrate_loop not_provisioning any_state any_state_refl any_state_trans);
    try reflexivity; intros; exact I.
Qed.

(** *** Stopping at the first failed call, on the other paths *)

Lemma fail_stop_async_migrate env refresh fuel index_name :
  fail_stop env (Solr2EsAsync.migrate env refresh fuel index_name).
Proof.
  unfold Solr2EsAsync.migrate. apply fail_stop_for_in.
  - intros g. apply fail_stop_produce_results_step. intros; apply fail_stop_log.
  - intros results nb. unfold Solr2EsAsync.migrate_page.
    apply fail_stop_bind; [apply fail_stop_lift|]. intros actions.
    apply fail_stop_bind; [apply fail_stop_bulk | intros; apply fail_stop_ret].
Qed.

Lemma fail_stop_dump env fuel solrurl redishost :
  fail_stop env (dump_into_redis env fuel solrurl redishost).
Proof.
  unfold dump_into_redis. apply fail_stop_bind; [apply fail_stop_log|].
  intros _. unfold RedisConsumer.consume. apply fail_stop_for_in.
  - intros g. apply fail_stop_produce_results_step. intros; apply fail_stop_ret.
  - intros results b. apply fail_stop_lpush.
Qed.

Lemma fail_stop_aiodump env fuel solrurl redishost :
  fail_stop env (aiodump_into_redis env fuel solrurl redishost).
Proof.
  unfold aiodump_into_redis. apply fail_stop_bind; [apply fail_stop_log|].
  intros _. unfold RedisConsumerAsync.consume. apply fail_stop_for_in.
  - intros g. apply fail_stop_produce_results_step. intros; apply fail_stop_log.
  - intros results b. apply fail_stop_lpush.
Qed.

(** ** The writes and the count of a whole run *)

Lemma subtracted_nonneg (r : bulk_response) : 0 <= subtracted r.
Proof. unfold subtracted, len. destruct (errors r); lia. Qed.

Section RunFacts.
Variable env : collaborators.
Variable refresh : bool.
Variable index_name : string.
Variable last : solr_page.

Lemma migrate_run_bulk_writes (pages : list solr_page) :
  forall g b s,
    List.filter is_bulk
      (pager_run 10000 no_end_events (migrate_page_events env refresh index_name)
         migrate_page_state (migrate_page_value env index_name) last g pages b s).1.1
    = map (bulk_write refresh index_name) pages.
Proof.
  induction pages as [|p ps IH]; intros g b s; cbn [pager_run fst snd List.filter is_bulk map].
  - now rewrite List.filter_app, filter_bulk_found_events.
  - rewrite !List.filter_app, filter_bulk_found_events, filter_bulk_progress_events.
    unfold migrate_page_events. cbn [List.filter is_bulk app].
    rewrite filter_bulk_warnings. cbn [app]. now rewrite IH.
Qed.

Lemma async_run_bulk_writes (pages : list solr_page) :
  forall g b s,
    List.filter is_bulk
      (pager_run 10000 processed_event (async_page_events refresh index_name)
         migrate_page_state async_page_value last g pages b s).1.1
    = map (bulk_write refresh index_name) pages.
Proof.
  induction pages as [|p ps IH]; intros g b s; cbn [pager_run fst snd List.filter is_bulk map].
  - now rewrite !List.filter_app, filter_bulk_found_events.
  - rewrite !List.filter_app, filter_bulk_found_events, filter_bulk_progress_events.
    unfold async_page_events. cbn [List.filter is_bulk app]. now rewrite IH.
Qed.

Lemma migrate_run_count_le (pages : list solr_page) :
  forall g b s,
    (pager_run 10000 no_end_events (migrate_page_events env refresh index_name)
       migrate_page_state (migrate_page_value env index_name) last g pages b s).2
    <= b + documents_read pages.
Proof.
  induction pages as [|p ps IH]; intros g b s; cbn [pager_run fst snd documents_read fold_right].
  - lia.
  - etransitivity; [apply IH|]. unfold migrate_page_value.
    pose proof (subtracted_nonneg (bulk_answer env index_name (docs p) (after_search s))).
    fold (documents_read ps). lia.
Qed.

Lemma async_run_count (pages : list solr_page) :
  forall g b s,
    (pager_run 10000 processed_event (async_page_events refresh index_name)
       migrate_page_state async_page_value last g pages b s).2
    = b + documents_read pages.
Proof.
  induction pages as [|p ps IH]; intros g b s; cbn [pager_run fst snd documents_read fold_right].
  - lia.
  - rewrite IH. unfold async_page_value. fold (documents_read ps). lia.
Qed.

Lemma advance_all_nb_results (pages : list solr_page) (g : pager) :
  nb_results (fold_left advance pages g) = nb_results g + documents_read pages.
Proof.
  revert g. induction pages as [|p ps IH]; intros g; cbn [fold_left documents_read fold_right].
  - lia.
  - rewrite IH. unfold advance. simpl. fold (documents_read ps). lia.
Qed.

(** The asyncio run ends with the line that reports the documents read. *)
Lemma async_run_last_event (pages : list solr_page) :
  forall g b s,
    exists t,
      (pager_run 10000 processed_event (async_page_events refresh index_name)
         migrate_page_state async_page_value last g pages b s).1.1
      = t ++ [Log INFO FMT_PROCESSED [ArgInt (nb_results g + documents_read pages)]].
Proof.
  induction pages as [|p ps IH]; intros g b s; cbn [pager_run fst snd documents_read fold_right].
  - exists (SolrSearch (cursorMark g) :: found_events g last).
    unfold processed_event. rewrite Z.add_0_r. reflexivity.
  - destruct (IH (advance g p) (async_page_value (docs p) b (after_search s))
                (migrate_page_state (docs p) b (after_search s))) as [t Ht].
    rewrite Ht. eexists. fold (documents_read ps).
    replace (nb_results g + (len (docs p) + documents_read ps))
      with (nb_results (advance g p) + documents_read ps) by (unfold advance; simpl; lia).
    rewrite !app_comm_cons, !app_assoc. reflexivity.
Qed.
End RunFacts.


Lemma confined_async_migrate_provisioning env refresh fuel index_name :
  confined not_provisioning any_state (Solr2EsAsync.migrate env refresh fuel index_name).
Proof.
  apply (confined_async_migrate not_provisioning any_state any_state_refl any_state_trans);
    try reflexivity; intros; exact I.
Qed.

(** ** Stepping through [bind] *)

Lemma bind_returned {A B} (m : M A) (k : A -> M B) (s s1 : state) (t1 : list event) (a : A) :
  m s = (t1, s1, Returned a) ->
  bind m k s = (t1 ++ (k a s1).1.1, (k a s1).1.2, (k a s1).2).
Proof. intros H. unfold bind. rewrite H. now destruct (k a s1) as [[t2 s2] o]. Qed.

Lemma bind_raised {A B} (m : M A) (k : A -> M B) (s s1 : state) (t1 : list event) (e : exn) :
  m s = (t1, s1, Raised e) -> bind m k s = (t1, s1, Raised e).
Proof. intros H. unfold bind. now rewrite H. Qed.

Lemma bind_running {A B} (m : M A) (k : A -> M B) (s s1 : state) (t1 : list event) :
  m s = (t1, s1, Running) -> bind m k s = (t1, s1, Running).
Proof. intros H. unfold bind. now rewrite H. Qed.

(** ** Runs that do not end *)

Section PagerRunning.
Variable env : collaborators.
Variable every : Z.
Variable at_end : Z -> M unit.
Context {B : Type}.
Variable body : list pydict -> B -> M B.
Variable good : list pydict -> Prop.
Hypothesis body_returns :
  forall a b s, good a ->
    exists t s' b', body a b s = (t, s', Returned b') /\ searches s' = searches s.

Lemma for_in_pager_running (pages : list solr_page) :
  forall (g : pager) (b : B) (s : state),
    keeps_moving env (searches s) (cursorMark g) pages ->
    progress_defined every g pages ->
    Forall (fun p => good (docs p)) pages ->
    exists t s',
      for_in (length pages) (produce_results_step env every at_end) body g b s
        = (t, s', Running) /\
      searches s' = (searches s + length pages)%nat.
Proof.
  induction pages as [|p ps IH]; intros g b s Hmoves Hdef Hgood.
  - exists [], s. split; [reflexivity | simpl; lia].
  - destruct Hmoves as (Hsearch & Hnext & Hmoves). destruct Hdef as [Hdiv Hdef].
    inversion Hgood as [|? ? Hp Hps]; subst.
    destruct (body_returns (docs p) b (after_search s) Hp) as (tb & sb & b' & Hbody & Hsb).
    destruct (IH (advance g p) b' sb) as (t & s' & Hrun & Hs'); try assumption.
    { rewrite Hsb. exact Hmoves. }
    cbn [length for_in].
    rewrite (bind_returned _ _ s _ _ _
               (produce_results_step_yield env every at_end g s p Hsearch Hnext Hdiv)).
    cbn [fst snd]. rewrite (bind_returned _ _ _ _ _ _ Hbody). rewrite Hrun. cbn [fst snd].
    eexists. eexists. split; [reflexivity|]. rewrite Hs', Hsb. simpl. lia.
Qed.
End PagerRunning.

Lemma migrate_page_returns env refresh index_name (results : list pydict) (nb : Z) (s : state) :
  accepts_bulks env index_name ->
  transforms index_name results ->
  exists t s' nb',
    Solr2Es.migrate_page env refresh index_name results nb s = (t, s', Returned nb') /\
    searches s' = searches s.
Proof.
  intros Haccepts Hok. rewrite (migrate_page_run env refresh index_name Haccepts) by assumption.
  eexists. eexists. eexists. split; reflexivity.
Qed.


(** ** The package's [migrate] *)

Section PackageRun.
Variable env : collaborators.
Variable refresh : bool.
Variable index_name : string.
Variable last : solr_page.
Hypothesis Haccepts : accepts_bulks env index_name.

Lemma package_migrate_loop_run (pages : list solr_page) :
  forall (fuel : nat) (cursor : string) (nb : Z) (s : state),
    (length pages < fuel)%nat ->
    serves env (searches s) cursor pages last ->
    Forall (fun p => transforms index_name (docs p)) pages ->
    exists s',
      Package.Solr2Es.migrate_loop env refresh fuel index_name cursor nb s
        = (package_trace refresh index_name cursor pages, s',
           Returned (nb + documents_read pages)) /\
      searches s' = (searches s + S (length pages))%nat /\
      bulks s' = (bulks s + length pages)%nat /\
      redis s' = redis s.
Proof.
  induction pages as [|p ps IH]; intros fuel cursor nb s Hfuel Hserves Hgood;
    (destruct fuel as [|fuel]; [simpl in Hfuel; lia|]).
  - destruct Hserves as [Hsearch Hnext]. exists (after_search s).
    cbn [Package.Solr2Es.migrate_loop package_trace documents_read fold_right length].
    rewrite (bind_returned _ _ s (after_search s) [SolrSearch cursor] last)
      by (unfold search; now rewrite Hsearch).
    rewrite Hnext, String.eqb_refl. cbn [negb]. simpl.
    rewrite Z.add_0_r. repeat split; lia.
  - destruct Hserves as (Hsearch & Hnext & Hserves).
    inversion Hgood as [|? ? Hp Hps]; subst.
    destruct (IH fuel (nextCursorMark p) (nb + len (docs p)) (after_bulk (after_search s)))
      as (s' & Hrun & Hs & Hb & Hr); [simpl in Hfuel; lia | exact Hserves | exact Hps |].
    exists s'.
    assert (Hneq : String.eqb cursor (nextCursorMark p) = false)
      by (apply String.eqb_neq; congruence).
    assert (Hk : (actions <- lift (create_es_actions index_name (docs p));;
                  bulk env actions index_name DEFAULT_ES_DOC_TYPE refresh;;
                  Package.Solr2Es.migrate_loop env refresh fuel index_name
                    (nextCursorMark p) (nb + len (docs p))) (after_search s)
                 = (bulk_write refresh index_name p
                      :: package_trace refresh index_name (nextCursorMark p) ps,
                    s', Returned (nb + len (docs p) + documents_read ps))).
    { unfold transforms in Hp.
      pose proof (Haccepts (bulks (after_search s)) (bulk_body index_name (docs p))) as Hacc.
      unfold bulk_write. unfold bulk_body in *. unfold bind, lift, bulk.
      destruct (create_es_actions index_name (docs p)) as [actions|e]; [|discriminate].
      cbn [of_result].
      destruct (es_bulk env (bulks (after_search s)) actions index_name) as [response|e];
        [|discriminate].
      cbn [of_result]. now rewrite Hrun. }
    cbn [Package.Solr2Es.migrate_loop package_trace documents_read fold_right length].
    rewrite (bind_returned _ _ s (after_search s) [SolrSearch cursor] p)
      by (unfold search; now rewrite Hsearch).
    rewrite Hneq. cbn [negb]. rewrite Hk. cbn [fst snd app].
    fold (documents_read ps).
    replace (nb + len (docs p) + documents_read ps)
      with (nb + (len (docs p) + documents_read ps)) by lia.
    split; [reflexivity|]. simpl in *. repeat split; lia || assumption.
Qed.

(** The asyncio class of the package runs as the blocking one. *)
Lemma package_async_loop_eq (fuel : nat) (cursor : string) (nb : Z) :
  Package.Solr2EsAsync.migrate_loop env refresh fuel index_name cursor nb
  = Package.Solr2Es.migrate_loop env refresh fuel index_name cursor nb.
Proof. reflexivity. Qed.

(** Without its log lines, the trace of the module's asyncio run is the
    trace of the package's run. *)
Lemma async_run_without_logs (pages : list solr_page) :
  forall g b s,
    List.filter not_log
      (pager_run 10000 processed_event (async_page_events refresh index_name)
         migrate_page_state async_page_value last g pages b s).1.1
    = package_trace refresh index_name (cursorMark g) pages.
Proof.
  assert (Hfound : forall g p, List.filter not_log (found_events g p) = []).
  { intros g p. unfold found_events. now destruct (String.eqb _ _). }
  assert (Hprog : forall g, List.filter not_log (progress_events 10000 g) = []).
  { intros g. unfold progress_events. now destruct (_ =? 0). }
  induction pages as [|p ps IH]; intros g b s;
    cbn [pager_run fst snd List.filter not_log is_log negb package_trace].
  - now rewrite List.filter_app, Hfound.
  - rewrite !List.filter_app, Hfound, Hprog. unfold async_page_events.
    cbn [List.filter not_log is_log negb app]. now rewrite IH.
Qed.
End PackageRun.

(** ** The loop over the options *)

Lemma is_action_option_split (o : string * string) :
  Main.is_action_option o =
    Main.opt_in (fst o) ["-d"; "--dump"] || Main.opt_in (fst o) ["-r"; "--resume"]
    || Main.opt_in (fst o) ["-m"; "--migrate"].
Proof.
  unfold Main.is_action_option, Main.opt_in. cbn [existsb].
  now rewrite !orb_false_r, !orb_assoc.
Qed.

(** What one turn of the loop leaves in the six variables, when the option is
    not the help. *)
Lemma read_option_some (st : Main.settings) (o : string * string) :
  Main.is_help o = false ->
  Main.read_option st o =
    Some {| Main.with_asyncio := Main.with_asyncio st || Main.is_async o;
            Main.solrurl :=
              if String.eqb (fst o) "--solrurl" then snd o else Main.solrurl st;
            Main.esurl := if String.eqb (fst o) "--esurl" then snd o else Main.esurl st;
            Main.redishost :=
              if String.eqb (fst o) "--redishost" then snd o else Main.redishost st;
            Main.index_name :=
              if String.eqb (fst o) "--index" then snd o else Main.index_name st;
            Main.action :=
              if Main.is_action_option o then Main.action_of o else Main.action st |}.
Proof.
  unfold Main.read_option, Main.is_help. intros ->.
  rewrite is_action_option_split. unfold Main.action_of, Main.is_async.
  destruct o as [opt arg]. cbv beta zeta iota delta [fst snd].
  generalize (Main.opt_in opt ["-a"; "--async"]) (Main.opt_in opt ["-d"; "--dump"])
    (Main.opt_in opt ["-r"; "--resume"]) (Main.opt_in opt ["-m"; "--migrate"])
    (String.eqb opt "--solrurl") (String.eqb opt "--redishost")
    (String.eqb opt "--esurl") (String.eqb opt "--index").
  intros a d r m u1 u2 u3 u4. destruct st as [w su eu rh ix ac].
  destruct a, u1, u2, u3, u4; cbn; destruct d, r, m; cbn;
    now rewrite ?orb_true_r, ?orb_false_r.
Qed.

Lemma read_option_help (st : Main.settings) (o : string * string) :
  Main.read_option st o = None <-> Main.is_help o = true.
Proof.
  destruct (Main.is_help o) eqn:Hh.
  - unfold Main.read_option. unfold Main.is_help in Hh. rewrite Hh. split; reflexivity.
  - rewrite (read_option_some st o Hh). split; discriminate.
Qed.

Lemma read_option_inv (st st' : Main.settings) (o : string * string) :
  Main.read_option st o = Some st' ->
  Main.with_asyncio st' = Main.with_asyncio st || Main.is_async o /\
  Main.solrurl st' = (if String.eqb (fst o) "--solrurl" then snd o else Main.solrurl st) /\
  Main.esurl st' = (if String.eqb (fst o) "--esurl" then snd o else Main.esurl st) /\
  Main.redishost st' =
    (if String.eqb (fst o) "--redishost" then snd o else Main.redishost st) /\
  Main.index_name st' = (if String.eqb (fst o) "--index" then snd o else Main.index_name st) /\
  Main.action st' = (if Main.is_action_option o then Main.action_of o else Main.action st).
Proof.
  intros H. destruct (Main.is_help o) eqn:Hh.
  - apply (read_option_help st) in Hh. congruence.
  - rewrite (read_option_some st o Hh) in H. injection H as <-. cbn.
    repeat split.
Qed.

Lemma read_options_app (st : Main.settings) (a b : list (string * string)) :
  Main.read_options st (a ++ b) =
  match Main.read_options st a with
  | None => None
  | Some st' => Main.read_options st' b
  end.
Proof.
  revert st. induction a as [|o a IH]; intros st; simpl; [reflexivity|].
  destruct (Main.read_option st o); [apply IH | reflexivity].
Qed.

Lemma read_options_help (st : Main.settings) (options : list (string * string)) :
  Main.read_options st options = None <-> existsb Main.is_help options = true.
Proof.
  revert st. induction options as [|o options IH]; intros st; simpl.
  - split; discriminate.
  - destruct (Main.read_option st o) as [st'|] eqn:E.
    + assert (Hh : Main.is_help o = false).
      { destruct (Main.is_help o) eqn:Hh; [|reflexivity].
        apply read_option_help with (st := st) in Hh. congruence. }
      rewrite Hh. simpl. apply IH.
    + apply read_option_help in E. rewrite E. simpl. split; reflexivity.
Qed.

(** A variable keeps its value through the options that do not set it. *)
Lemma read_options_untouched {A : Type} (proj : Main.settings -> A)
    (sets : string * string -> bool) (value : string * string -> A)
    (options : list (string * string)) :
  (forall st st' o, Main.read_option st o = Some st' ->
     proj st' = if sets o then value o else proj st) ->
  forall st st',
    Main.read_options st options = Some st' ->
    forallb (fun o => negb (sets o)) options = true ->
    proj st' = proj st.
Proof.
  intros Hproj. induction options as [|o options IH]; intros st st' H Hno; simpl in *.
  - now injection H as <-.
  - destruct (Main.read_option st o) as [st1|] eqn:E; [|discriminate].
    apply andb_true_iff in Hno as [Ho Hno].
    rewrite (IH st1 st' H Hno), (Hproj _ _ _ E).
    now destruct (sets o).
Qed.

(** The last option that sets a variable decides its value. *)
Lemma read_options_last {A : Type} (proj : Main.settings -> A)
    (sets : string * string -> bool) (value : string * string -> A)
    (before after : list (string * string)) (o : string * string) :
  (forall st st' o, Main.read_option st o = Some st' ->
     proj st' = if sets o then value o else proj st) ->
  forall st st',
    Main.read_options st (before ++ o :: after) = Some st' ->
    sets o = true ->
    forallb (fun o => negb (sets o)) after = true ->
    proj st' = value o.
Proof.
  intros Hproj st st' H Ho Hafter. rewrite read_options_app in H.
  destruct (Main.read_options st before) as [st1|]; [|discriminate].
  simpl in H. destruct (Main.read_option st1 o) as [st2|] eqn:E; [|discriminate].
  rewrite (read_options_untouched proj sets value after Hproj st2 st' H Hafter).
  rewrite (Hproj _ _ _ E), Ho. reflexivity.
Qed.

Lemma read_options_async (options : list (string * string)) :
  forall st st',
    Main.read_options st options = Some st' ->
    Main.with_asyncio st' = Main.with_asyncio st || existsb Main.is_async options.
Proof.
  induction options as [|o options IH]; intros st st' H; simpl in *.
  - injection H as <-. now rewrite orb_false_r.
  - destruct (Main.read_option st o) as [st1|] eqn:E; [|discriminate].
    rewrite (IH st1 st' H). destruct (read_option_inv _ _ _ E) as [-> _].
    now rewrite orb_assoc.
Qed.

Lemma action_of_known (o : string * string) :
  Main.action_of o = "migrate" \/ Main.action_of o = "dump" \/ Main.action_of o = "resume".
Proof.
  unfold Main.action_of.
  destruct (Main.opt_in (fst o) ["-d"; "--dump"]); [auto|].
  destruct (Main.opt_in (fst o) ["-r"; "--resume"]); auto.
Qed.

Lemma read_options_action_known (options : list (string * string)) :
  forall st st',
    Main.read_options st options = Some st' ->
    (Main.action st = "migrate" \/ Main.action st = "dump" \/ Main.action st = "resume") ->
    Main.action st' = "migrate" \/ Main.action st' = "dump" \/ Main.action st' = "resume".
Proof.
  induction options as [|o options IH]; intros st st' H Hst; simpl in *.
  - now injection H as <-.
  - destruct (Main.read_option st o) as [st1|] eqn:E; [|discriminate].
    apply (IH st1 st' H). destruct (read_option_inv _ _ _ E) as (_ & _ & _ & _ & _ & ->).
    destruct (Main.is_action_option o); [apply action_of_known | exact Hst].
Qed.

(** ** The entry points the command line runs *)

Lemma confined_migrate_entry env fuel solrurl esurl name :
  confined not_redis same_redis (migrate env fuel solrurl esurl name).
Proof.
  unfold migrate.
  apply (confined_bind not_redis same_redis same_redis_trans).
  - apply (confined_emit not_redis same_redis same_redis_refl). reflexivity.
  - intros _. apply (confined_bind not_redis same_redis same_redis_trans).
    + apply confined_migrate_redis.
    + intros _. apply confined_ret. apply same_redis_refl.
Qed.

Lemma confined_aiomigrate_entry env fuel solrurl esurl name :
  confined not_redis same_redis (aiomigrate env fuel solrurl esurl name).
Proof.
  unfold aiomigrate.
  apply (confined_bind not_redis same_redis same_redis_trans).
  - apply (confined_emit not_redis same_redis same_redis_refl). reflexivity.
  - intros _. apply (confined_bind not_redis same_redis same_redis_trans).
    + apply confined_async_migrate_redis.
    + intros _. apply confined_ret. apply same_redis_refl.
Qed.

Lemma confined_dispatch_migrate env fuel st :
  Main.action st = "migrate" ->
  confined not_redis same_redis (Main.dispatch env fuel st).
Proof.
  intros Hact. unfold Main.dispatch. rewrite Hact. simpl (String.eqb _ _).
  cbv iota. destruct (Main.with_asyncio st).
  - apply confined_aiomigrate_entry.
  - apply confined_migrate_entry.
Qed.

Lemma confined_dispatch_dump env fuel st :
  Main.action st = "dump" ->
  confined not_es queue_grew (Main.dispatch env fuel st).
Proof.
  intros Hact. unfold Main.dispatch. rewrite Hact. simpl (String.eqb _ _).
  cbv iota. destruct (Main.with_asyncio st).
  - apply confined_aiodump.
  - apply confined_dump.
Qed.

Lemma confined_dispatch_resume env fuel st :
  Main.action st = "resume" ->
  confined is_log eq (Main.dispatch env fuel st).
Proof.
  intros Hact. unfold Main.dispatch. rewrite Hact. simpl (String.eqb _ _).
  cbv iota. destruct (Main.with_asyncio st).
  - unfold aioresume_from_redis. apply confined_emit; [reflexivity | reflexivity].
  - unfold resume_from_redis. apply confined_emit; [reflexivity | reflexivity].
Qed.

(** * The claims *)

(** ** C1: the tally under partial failure *)

(** C1, where the code departs from it: the destination answers a page of
    ten documents with one entry per document, two of which report an
    error.  [migrate_page] logs all ten entries and subtracts ten, so the
    tally stays at 100 instead of growing by 8. *)
Theorem migrate_page_subtracts_all_items :
  len page10 = 10 /\
  len (failed_items response_two_failures) = 2 /\
  exists t s',
    Solr2Es.migrate_page env_two_failures false "idx" page10 100 initial_state
      = (t, s', Returned 100) /\
    List.filter (fun ev => match ev with Log WARNING _ _ => true | _ => false end) t
      = map (fun i => Log WARNING "%s" [ArgItem i]) (items response_two_failures).
Proof.
  split; [reflexivity|]. split; [reflexivity|].
  eexists. eexists. split; vm_compute; reflexivity.
Qed.

(** ** C2: termination of the pagination *)

(** C2, where the code departs from it: the source [env_no_hits] has one
    page and repeats its cursor at the second request, but the run stops at
    the first request with [ZeroDivisionError], raised by the progress line
    for the empty first page. *)
Theorem pagination_stops_on_zero_total :
  serves env_no_hits 0 "*" [page_no_hits] page_no_hits /\
  Solr2Es.migrate env_no_hits false 5 "idx" None initial_state =
    ([IndicesExists "idx"; SolrSearch "*"; Log INFO FMT_FOUND [ArgInt 0]],
     {| searches := 1; bulks := 0; redis := ∅ |},
     Raised ZeroDivisionError) /\
  dump_into_redis env_no_hits 5 "solr" "redis" initial_state =
    ([Log INFO "dump from solr (%s) into redis (host=%s)" [ArgStr "solr"; ArgStr "redis"];
      SolrSearch "*"; Log INFO FMT_FOUND [ArgInt 0]],
     {| searches := 1; bulks := 0; redis := ∅ |},
     Raised ZeroDivisionError).
Proof.
  split; [|split; reflexivity].
  simpl. repeat split; discriminate.
Qed.

(** ** C3: the serialization contract of [create_es_actions] *)

(** C3, as stated, at its own example: the document with id 7 and tags a, b,
    sent to index idx, does not come out as a directive line followed by
    the body that holds the tags alone; the body keeps the id as well. *)
Lemma create_es_actions_doc7_body_keeps_id :
  ~ exists directive_line,
      create_es_actions "idx" [doc7] =
      Ok (directive_line +:+ newline +:+ dumps (JDict [("tags", JStr "a")])).
Proof.
  intros [d H].
  destruct (create_es_actions "idx" [doc7]) as [out|e] eqn:E; [|discriminate].
  injection H as H. apply string_drop_suffix in H.
  vm_compute in E. injection E as <-.
  vm_compute in H. discriminate.
Qed.

(** C3, amended: for every index name and every list of documents that are
    dicts with an id and without empty arrays, [create_es_actions] returns,
    in input order, two lines per document joined by line feeds: the
    directive with the index, the type doc and the document's id, then the
    whole document (its id included) with every list replaced by its first
    element; no line holds a line feed.  The example document yields the
    directive for id 7 and index idx, then the body with the id and the
    tag a. *)
Theorem create_es_actions_two_lines_per_document :
  forall (index_name : string) (rows : list pydict),
    Forall transformable rows ->
    let lines := flat_map (action_lines index_name) rows in
    create_es_actions index_name rows = Ok (String.concat newline lines) /\
    length lines = (2 * length rows)%nat /\
    Forall (fun l => has_LF l = false) lines /\
    (rows <> [] -> split_lines (String.concat newline lines) = lines) /\
    create_es_actions "idx" [doc7] =
      Ok (dumps (directive "idx" (JStr "7")) +:+ newline +:+
          dumps (JDict [("id", JStr "7"); ("tags", JStr "a")])).
Proof.
  intros index_name rows Hrows lines.
  assert (Hlf : Forall (fun l => has_LF l = false) lines).
  { unfold lines. clear Hrows lines. induction rows as [|row rows IH]; [constructor|].
    change (flat_map (action_lines index_name) (row :: rows))
      with (dumps (directive index_name (row_id row)) :: dumps (JDict (collapse row))
              :: flat_map (action_lines index_name) rows).
    apply Forall_cons; split; [apply dumps_no_LF|].
    apply Forall_cons; split; [apply dumps_no_LF | exact IH]. }
  split; [|split; [|split; [|split]]].
  - unfold create_es_actions. rewrite results_transformable by assumption.
    simpl. now rewrite chain_lines.
  - apply flat_map_pair_length. reflexivity.
  - exact Hlf.
  - intros Hne. destruct lines as [|l ls] eqn:E.
    + destruct rows; [congruence | discriminate].
    + now apply split_lines_concat.
  - reflexivity.
Qed.

Lemma create_es_actions_two_lines_witness :
  Forall transformable [doc7; doc_of_id 8] /\
  length (flat_map (action_lines "idx") [doc7; doc_of_id 8]) = 4%nat.
Proof.
  assert (H : Forall transformable [doc7; doc_of_id 8]).
  { repeat constructor; simpl; try discriminate.
    all: try (intros Hin; repeat (apply elem_of_cons in Hin as [Hin|Hin]; [discriminate|]);
              now apply elem_of_nil in Hin).
    all: intros k Hin; repeat (destruct Hin as [Hin|Hin]; [discriminate|]); exact Hin. }
  split; [exact H|].
  exact (proj1 (proj2 (create_es_actions_two_lines_per_document "idx" _ H))).
Defined.

(** ** C4: resuming from the queue *)

(** C4, where the code departs from it: both resume entry points log one
    line and return; they leave the queue as it is and write nothing to the
    destination.  After the page [page10] has been dumped, the queue holds
    its ten documents, and resuming does not move them, whereas the direct
    migration of the same page makes one bulk write. *)
Theorem resume_from_redis_only_logs :
  (forall redishost esurl name s,
     resume_from_redis redishost esurl name s =
       ([Log INFO "resume from redis (host=%s) to elasticsearch (%s) index %s"
           [ArgStr redishost; ArgStr esurl; ArgStr name]], s, Returned tt) /\
     aioresume_from_redis redishost esurl name s =
       ([Log INFO "asyncio resume from redis (host=%s) to elasticsearch (%s) index %s"
           [ArgStr redishost; ArgStr esurl; ArgStr name]], s, Returned tt)) /\
  let dumped := (dump_into_redis env_two_failures 5 "solr" "redis" initial_state).1.2 in
  let resumed := (resume_from_redis "redis" "es" "idx" dumped).1.2 in
  queue QUEUE_KEY dumped = rev (serialize_page page10) /\
  queue QUEUE_KEY resumed = rev (serialize_page page10) /\
  bulks_in (resume_from_redis "redis" "es" "idx" dumped).1.1 = 0%nat /\
  bulks_in (Solr2Es.migrate env_two_failures false 5 "idx" None initial_state).1.1 = 1%nat.
Proof.
  split; [intros; split; reflexivity|].
  repeat split; vm_compute; reflexivity.
Qed.

(** ** C5: the blocking and the asyncio pipelines *)

(** C5, where the code departs from it: on the same source and destination
    the blocking [migrate] tests for the index, creates it, and subtracts
    the reported items, while the asyncio [migrate] does neither; they make
    the same bulk write but return 0 and 10. *)
Theorem async_migrate_skips_provisioning_and_accounting :
  let sync := Solr2Es.migrate env_two_failures false 5 "idx" None initial_state in
  let async := Solr2EsAsync.migrate env_two_failures false 5 "idx" initial_state in
  sync.2 = Returned 0 /\
  async.2 = Returned 10 /\
  List.filter (fun ev => match ev with IndicesExists _ | IndicesCreate _ _ => true | _ => false end)
    sync.1.1 = [IndicesExists "idx"; IndicesCreate "idx" None] /\
  List.filter (fun ev => match ev with IndicesExists _ | IndicesCreate _ _ => true | _ => false end)
    async.1.1 = [] /\
  List.filter (fun ev => match ev with EsBulk _ _ _ _ => true | _ => false end) sync.1.1 =
  List.filter (fun ev => match ev with EsBulk _ _ _ _ => true | _ => false end) async.1.1.
Proof. repeat split; vm_compute; reflexivity. Qed.

(** ** C6: progress notifications *)

(** C6, as stated, on a run of 12000 documents read in two pages of 6000:
    every document is written, the count passes 10000, and no progress line
    is logged. *)
Lemma migrate_passing_10000_logs_no_progress :
  (Solr2Es.migrate env_6000_6000 false 5 "idx" None initial_state).2 = Returned 12000 /\
  List.filter is_progress
    (Solr2Es.migrate env_6000_6000 false 5 "idx" None initial_state).1.1 = [].
Proof. split; vm_compute; reflexivity. Qed.

(** C6, amended: in a migration run whose calls all return, the progress
    lines are those of [progress_lines]: one after each page at which the
    number of documents read so far (not the success tally) is an exact
    multiple of 10000, carrying that number, the total reported with the
    first page and the percentage.  A count that passes a multiple of 10000
    inside a page logs nothing; with a step of 5, twelve documents read as
    5, 5, 2 log two lines (at 5 and 10), read as 4, 4, 4 none. *)
Theorem migrate_progress_at_exact_multiples :
  forall env refresh fuel index_name mapping found pages last s,
    es_indices_exists env index_name = Ok found ->
    (found = false -> es_indices_create env index_name mapping = Ok tt) ->
    accepts_bulks env index_name ->
    serves env (searches s) "*" pages last ->
    progress_defined 10000 pager_start pages ->
    Forall (fun p => transforms index_name (docs p)) pages ->
    (length pages < fuel)%nat ->
    (exists t s' n,
       Solr2Es.migrate env refresh fuel index_name mapping s = (t, s', Returned n) /\
       List.filter is_progress t = progress_lines 10000 pager_start pages) /\
    progress_of_sizes 5 [5; 5; 2] =
      [Log INFO FMT_READ [ArgInt 5; ArgInt 12; ArgDiv 500 12];
       Log INFO FMT_READ [ArgInt 10; ArgInt 12; ArgDiv 1000 12]] /\
    progress_of_sizes 5 [4; 4; 4] = [].
Proof.
  intros env refresh fuel index_name mapping found pages last s
    Hexists Hcreate Haccepts Hserves Hdefined Htransforms Hfuel.
  split; [|split; vm_compute; reflexivity].
  eexists. eexists. eexists. split.
  - apply (migrate_whole_run env refresh index_name last pages fuel s Hfuel Hserves
             Hdefined Haccepts Htransforms mapping found Hexists Hcreate).
  - simpl. destruct found; simpl.
    all: rewrite List.filter_app, migrate_run_progress; simpl; now rewrite app_nil_r.
Qed.

Lemma migrate_progress_witness :
  List.filter is_progress
    (Solr2Es.migrate env_6000_4000_2000 false 5 "idx" None initial_state).1.1
  = [Log INFO FMT_READ [ArgInt 10000; ArgInt 12000; ArgDiv 1000000 12000]].
Proof.
  destruct (migrate_progress_at_exact_multiples env_6000_4000_2000 false 5 "idx" None true
              [page_6000_a; page_4000; page_2000] page_end_c initial_state)
    as [(t & s' & n & Hrun & Hlines) _].
  - reflexivity.
  - discriminate.
  - intros n body. reflexivity.
  - cbn [serves]. repeat split; try reflexivity; vm_compute; discriminate.
  - cbn [progress_defined]. repeat split; intros _; vm_compute; discriminate.
  - apply Forall_cons; split; [vm_compute; reflexivity|].
    apply Forall_cons; split; [vm_compute; reflexivity|].
    apply Forall_cons; split; [vm_compute; reflexivity|]. constructor.
  - simpl. lia.
  - rewrite Hrun. simpl. rewrite Hlines. vm_compute. reflexivity.
Defined.

(** ** C7: the queue buffer *)

(** C7: for every page, the consumer of a page (blocking or asyncio) makes
    one call, an [LPUSH] on the key solr2es:queue whose values are the
    documents of the page, each serialized on its own by [dumps]; once the
    queue has taken the push the consumer returns, with no other call: the
    list under that key has grown by exactly these entries, put at its head
    one after the other, and the other keys keep their lists. *)
Theorem consume_page_pushes_each_document :
  forall (env : collaborators) (results : list pydict) (s : state),
    let values := map (fun row => dumps (JDict row)) results in
    (RedisConsumer.consume_page env results tt s).1.1
      = [RedisLpush "solr2es:queue" values] /\
    (RedisConsumerAsync.consume_page env results tt s).1.1
      = [RedisLpush "solr2es:queue" values] /\
    (redis_lpush env "solr2es:queue" values = Ok tt ->
     let s' := after_lpush "solr2es:queue" values s in
     RedisConsumer.consume_page env results tt s
       = ([RedisLpush "solr2es:queue" values], s', Returned tt) /\
     RedisConsumerAsync.consume_page env results tt s
       = ([RedisLpush "solr2es:queue" values], s', Returned tt) /\
     queue "solr2es:queue" s' = rev values ++ queue "solr2es:queue" s /\
     length (queue "solr2es:queue" s')
       = (length results + length (queue "solr2es:queue" s))%nat /\
     (forall k, k <> "solr2es:queue" -> redis s' !! k = redis s !! k) /\
     searches s' = searches s /\
     bulks s' = bulks s).
Proof.
  intros env results s values.
  split; [reflexivity|]. split; [reflexivity|].
  intros Hpush s'.
  assert (Hrun : lpush env "solr2es:queue" values s
                 = ([RedisLpush "solr2es:queue" values], s', Returned tt)).
  { unfold lpush. now rewrite Hpush. }
  split; [exact Hrun|]. split; [exact Hrun|].
  split; [apply queue_after_lpush|]. split.
  - unfold s'. rewrite queue_after_lpush, length_app, length_rev. unfold values.
    now rewrite length_map.
  - split; [|split; reflexivity].
    intros k Hk. now apply redis_after_lpush_other.
Qed.

Lemma consume_page_witness :
  redis_lpush env_two_failures "solr2es:queue" (map (fun row => dumps (JDict row)) page10)
    = Ok tt /\
  queue "solr2es:queue"
    (RedisConsumer.consume_page env_two_failures page10 tt initial_state).1.2
  = rev (map (fun row => dumps (JDict row)) page10).
Proof.
  split; [reflexivity|].
  destruct (proj2 (proj2 (consume_page_pushes_each_document env_two_failures page10
                            initial_state)) eq_refl) as (Hrun & _ & Hqueue & _).
  rewrite Hrun. cbn [fst snd]. rewrite Hqueue. apply app_nil_r.
Defined.

(** ** C8: fatal errors on the direct path *)

(** C8: in a run of [Solr2Es.migrate], a call that a collaborator answers
    with an exception (a page fetch, the existence test or the creation of
    the index, a bulk write) is the last event of the run, and the run ends
    with that exception rather than with a count. *)
Theorem migrate_aborts_at_first_failed_call :
  forall env refresh fuel index_name mapping s t s' o,
    Solr2Es.migrate env refresh fuel index_name mapping s = (t, s', o) ->
    forall pre ev post e,
      t = pre ++ ev :: post ->
      call_error env (searches s + searches_in pre) (bulks s + bulks_in pre) ev = Some e ->
      post = [] /\ o = Raised e /\ forall n, o <> Returned n.
Proof.
  intros env refresh fuel index_name mapping s t s' o Hrun pre ev post e Ht Herr.
  destruct (fail_stop_migrate env refresh fuel index_name mapping _ _ _ _ Hrun)
    as (_ & _ & Hstop).
  destruct (Hstop _ _ _ _ Ht Herr) as [-> ->]. repeat split; discriminate.
Qed.

Lemma migrate_aborts_witness :
  call_error env_source_down 1 1 (SolrSearch "A") = Some (SourceError "timeout") /\
  source_down_run.2 = Raised (SourceError "timeout").
Proof.
  split; [reflexivity|].
  refine (proj1 (proj2 (migrate_aborts_at_first_failed_call
            env_source_down false 5 "idx" None initial_state
            source_down_run.1.1 source_down_run.1.2 source_down_run.2 _
            (removelast source_down_run.1.1) (SolrSearch "A") [] (SourceError "timeout")
            _ _))).
  - vm_compute. reflexivity.
  - vm_compute. reflexivity.
  - vm_compute. reflexivity.
Defined.

(** ** C9: collapsing one-element arrays *)

(** C9, as stated, at a document whose id is a one-element array: the
    transformer's output differs from that of the already-scalar
    equivalent, because the directive carries the id as it is in the row. *)
Lemma create_es_actions_array_id_differs :
  scalar_equivalent doc_array_id = [("id", JStr "7")] /\
  create_es_actions "idx" [doc_array_id] <>
  create_es_actions "idx" [scalar_equivalent doc_array_id].
Proof. split; [reflexivity|]. vm_compute. discriminate. Qed.

(** C9, amended: [remove_arrays] is a function, it leaves a scalar field as
    it is, and on a document whose arrays are one-element lists of scalars
    it returns the same dict as on the already-scalar equivalent, so the
    body lines are byte-identical; the whole output of [create_es_actions]
    is byte-identical as well when the id of every document is not an
    array. *)
Theorem remove_arrays_singletons_as_scalars :
  (forall v, is_list v = false -> remove_arrays_filter v = Ok v) /\
  (forall row, singleton_arrays row ->
     remove_arrays (scalar_equivalent row) = remove_arrays row) /\
  (forall index_name rows,
     Forall singleton_arrays rows -> Forall scalar_id rows ->
     create_es_actions index_name (map scalar_equivalent rows) =
     create_es_actions index_name rows).
Proof.
  split; [exact remove_arrays_filter_scalar|]. split.
  - intros row H. unfold remove_arrays. now apply remove_arrays_items_scalar_equivalent.
  - intros index_name rows Hsing Hid. unfold create_es_actions. f_equal.
    induction Hsing as [|row rows Hrow Hrows IH]; simpl; [reflexivity|].
    inversion Hid; subst.
    now rewrite es_action_scalar_equivalent, IH.
Qed.

Lemma remove_arrays_singletons_witness :
  singleton_arrays doc_singletons /\ scalar_id doc_singletons /\
  create_es_actions "idx" [[("id", JStr "7"); ("tags", JStr "a"); ("size", JInt 3)]] =
  create_es_actions "idx" [doc_singletons].
Proof.
  assert (Hs : singleton_arrays doc_singletons).
  { intros k l Hin. simpl in Hin.
    destruct Hin as [Hin|[Hin|[Hin|[]]]]; inversion Hin; subst; eexists; split;
      reflexivity. }
  assert (Hi : scalar_id doc_singletons).
  { intros v Hv. simpl in Hv. inversion Hv. reflexivity. }
  split; [exact Hs|]. split; [exact Hi|].
  apply (proj2 (proj2 remove_arrays_singletons_as_scalars) "idx" [doc_singletons]);
    repeat constructor; assumption.
Defined.

(** ** C10: empty arrays *)

(** C10: a document with a field whose value is the empty list makes
    [remove_arrays] raise [IndexError]; so [create_es_actions] raises for
    every page that contains such a document, and when the documents of the
    page all have an id the exception is that [IndexError], which leaves
    [migrate_page], blocking or asyncio, before any bulk write. *)
Theorem empty_array_raises_IndexError :
  forall (row : pydict) (k : string),
    In (k, JList []) row ->
    remove_arrays row = Raise IndexError /\
    forall (index_name : string) (rows : list pydict),
      In row rows ->
      (create_es_actions index_name rows = Raise IndexError \/
       create_es_actions index_name rows = Raise (KeyError "id")) /\
      ((forall r, In r rows -> dict_get "id" r <> None) ->
       create_es_actions index_name rows = Raise IndexError /\
       forall env refresh nb s,
         Solr2Es.migrate_page env refresh index_name rows nb s = ([], s, Raised IndexError) /\
         Solr2EsAsync.migrate_page env refresh index_name rows nb s
           = ([], s, Raised IndexError)).
Proof.
  intros row k Hk. split.
  - unfold remove_arrays. now apply remove_arrays_items_empty_list with (k := k).
  - intros index_name rows Hrow.
    assert (Hcases : create_es_actions index_name rows = Raise IndexError \/
                     create_es_actions index_name rows = Raise (KeyError "id")).
    { unfold create_es_actions.
      destruct (results_empty_list index_name rows row k Hrow Hk) as [-> | ->]; auto. }
    split; [exact Hcases|]. intros Hid.
    assert (Hraise : create_es_actions index_name rows = Raise IndexError).
    { destruct Hcases as [H|H]; [exact H|]. exfalso.
      apply (results_key_error index_name rows Hid).
      unfold create_es_actions in H.
      destruct (results_ index_name rows); simpl in H; congruence. }
    split; [exact Hraise|]. intros env refresh nb s.
    unfold Solr2Es.migrate_page, Solr2EsAsync.migrate_page, bind, lift.
    rewrite Hraise. split; reflexivity.
Qed.

Lemma empty_array_witness :
  In ("tags", JList []) doc_empty_tags /\
  create_es_actions "idx" [doc7; doc_empty_tags] = Raise IndexError.
Proof.
  assert (Hk : In ("tags", JList []) doc_empty_tags) by (simpl; auto).
  split; [exact Hk|].
  refine (proj1 (proj2 (proj2 (empty_array_raises_IndexError doc_empty_tags "tags" Hk)
                          "idx" [doc7; doc_empty_tags] _) _)).
  - simpl; auto.
  - intros r [<-|[<-|[]]]; discriminate.
Defined.

(** * Further properties of the code *)

(** ** The transformer *)

(** X1: [remove_arrays] raises exactly when some field of the row is the
    empty list, the exception is then [IndexError] and no other exception
    is possible; on every other row it returns a dict. *)
Theorem remove_arrays_raises_iff_empty_array :
  forall (row : pydict),
    (remove_arrays row = Raise IndexError <-> exists k, In (k, JList []) row) /\
    ((forall k, ~ In (k, JList []) row) <-> exists d, remove_arrays row = Ok d) /\
    (forall e, remove_arrays row = Raise e -> e = IndexError).
Proof.
  intros row. unfold remove_arrays. split; [|split].
  - split; [apply remove_arrays_items_raise|].
    intros [k Hk]. now apply remove_arrays_items_empty_list with (k := k).
  - split; [apply remove_arrays_items_ok|].
    intros [d Hd] k Hk. rewrite (remove_arrays_items_empty_list _ _ _ Hk) in Hd.
    discriminate.
  - intros e He. destruct (remove_arrays_items_cases row []) as [[d Hd]|Hr]; congruence.
Qed.

(** X2: on a dict, [remove_arrays] returns a dict with the same keys in the
    same order, and under each key the first element of the list that was
    there, or the value itself when it was not a list. *)
Theorem remove_arrays_keeps_the_fields :
  forall (row d : pydict),
    NoDup (map fst row) ->
    remove_arrays row = Ok d ->
    map fst d = map fst row /\
    forall k, dict_get k d = option_map first_element (dict_get k row).
Proof.
  intros row d Hnd Hok. rewrite (remove_arrays_ok_collapse row d Hnd Hok).
  split; [apply collapse_keys | intros k; apply dict_get_collapse].
Qed.

Lemma remove_arrays_keeps_the_fields_witness :
  NoDup (map fst doc7) /\
  remove_arrays doc7 = Ok [("id", JStr "7"); ("tags", JStr "a")] /\
  map fst [("id", JStr "7"); ("tags", JStr "a")] = map fst doc7.
Proof.
  assert (Hnd : NoDup (map fst doc7)).
  { apply (bool_decide_unpack _). vm_compute. exact I. }
  split; [exact Hnd|]. split; [reflexivity|].
  exact (proj1 (remove_arrays_keeps_the_fields doc7 _ Hnd eq_refl)).
Defined.

(** X3: when the arrays of a dict hold scalars, the dict [remove_arrays]
    returns has no array left, and [remove_arrays] returns it unchanged:
    collapsing twice is collapsing once. *)
Theorem remove_arrays_is_idempotent_on_scalars :
  forall (row d : pydict),
    NoDup (map fst row) ->
    arrays_of_scalars row ->
    remove_arrays row = Ok d ->
    (forall k v, In (k, v) d -> is_list v = false) /\
    remove_arrays d = Ok d.
Proof.
  intros row d Hnd Hsc Hok.
  assert (Hne : forall k, ~ In (k, JList []) row).
  { intros k Hin. unfold remove_arrays in Hok.
    rewrite (remove_arrays_items_empty_list _ _ _ Hin) in Hok. discriminate. }
  rewrite (remove_arrays_ok_collapse row d Hnd Hok) in *.
  assert (Hd : forall k v, In (k, v) (collapse row) -> is_list v = false).
  { intros k v. now apply collapse_scalars. }
  split; [exact Hd|].
  unfold remove_arrays. rewrite remove_arrays_items_scalars by exact Hd.
  rewrite fold_dict_set_fresh; [reflexivity|].
  simpl. now rewrite collapse_keys.
Qed.

Lemma remove_arrays_is_idempotent_witness :
  NoDup (map fst doc7) /\ arrays_of_scalars doc7 /\
  remove_arrays [("id", JStr "7"); ("tags", JStr "a")]
    = Ok [("id", JStr "7"); ("tags", JStr "a")].
Proof.
  assert (Hnd : NoDup (map fst doc7)).
  { apply (bool_decide_unpack _). vm_compute. exact I. }
  assert (Hsc : arrays_of_scalars doc7).
  { intros k l x Hin Hx. simpl in Hin.
    destruct Hin as [Hin|[Hin|[]]]; inversion Hin; subst.
    simpl in Hx. destruct Hx as [<-|[<-|[]]]; reflexivity. }
  split; [exact Hnd|]. split; [exact Hsc|].
  exact (proj2 (remove_arrays_is_idempotent_on_scalars doc7 _ Hnd Hsc eq_refl)).
Defined.

(** X4: a document without an id makes [create_es_actions] raise
    [KeyError] for the key id when the documents before it are transformed
    without an exception; this holds even if the document also has an empty
    array, since the id is read first, and whatever comes after it. *)
Theorem create_es_actions_raises_KeyError_without_id :
  forall (index_name : string) (before after : list pydict) (row : pydict),
    Forall transformable before ->
    dict_get "id" row = None ->
    create_es_actions index_name (before ++ row :: after) = Raise (KeyError "id").
Proof.
  intros index_name before after row Hbefore Hid. unfold create_es_actions.
  rewrite results_app, (results_transformable _ _ Hbefore). simpl.
  unfold es_action, getitem. rewrite Hid. reflexivity.
Qed.

Lemma create_es_actions_raises_KeyError_witness :
  Forall transformable [doc7] /\
  dict_get "id" [("tags", JList [])] = None /\
  create_es_actions "idx" ([doc7] ++ [("tags", JList [])] :: [doc_of_id 8])
    = Raise (KeyError "id").
Proof.
  assert (H : Forall transformable [doc7]).
  { apply Forall_cons; split; [|constructor]. split; [|split].
    - apply (bool_decide_unpack _). vm_compute. exact I.
    - discriminate.
    - intros k Hin. simpl in Hin. destruct Hin as [Hin|[Hin|[]]]; discriminate. }
  split; [exact H|]. split; [reflexivity|].
  exact (create_es_actions_raises_KeyError_without_id "idx" [doc7] [doc_of_id 8]
           [("tags", JList [])] H eq_refl).
Defined.

(** X5: the batch of two pages put end to end is the batch of the first, a
    line feed, and the batch of the second (both pages being non-empty);
    and when the first page raises, the two pages together raise the same
    exception. *)
Theorem create_es_actions_of_concatenation :
  forall (index_name : string) (a b : list pydict),
    (forall x y, a <> [] -> b <> [] ->
       create_es_actions index_name a = Ok x ->
       create_es_actions index_name b = Ok y ->
       create_es_actions index_name (a ++ b) = Ok (x +:+ newline +:+ y)) /\
    (forall e, create_es_actions index_name a = Raise e ->
       create_es_actions index_name (a ++ b) = Raise e).
Proof.
  intros index_name a b. unfold create_es_actions. rewrite results_app. split.
  - intros x y Ha Hb Hx Hy.
    destruct (results_ index_name a) as [ra|e] eqn:Era; simpl in *; [|discriminate].
    destruct (results_ index_name b) as [rb|e] eqn:Erb; simpl in *; [|discriminate].
    injection Hx as <-. injection Hy as <-.
    rewrite chain_app, map_app, concat_app_nonempty; [reflexivity| |].
    + intros Hnil. apply map_eq_nil in Hnil. apply (chain_nonempty ra); [|exact Hnil].
      intros ->. apply results_length in Era. destruct a; [congruence | discriminate].
    + intros Hnil. apply map_eq_nil in Hnil. apply (chain_nonempty rb); [|exact Hnil].
      intros ->. apply results_length in Erb. destruct b; [congruence | discriminate].
  - intros e He. destruct (results_ index_name a) as [ra|e']; simpl in *; congruence.
Qed.

Lemma create_es_actions_of_concatenation_witness :
  create_es_actions "idx" ([doc7] ++ [doc_of_id 8]) =
  Ok (dumps (directive "idx" (JStr "7")) +:+ newline +:+
      dumps (JDict [("id", JStr "7"); ("tags", JStr "a")]) +:+ newline +:+
      dumps (directive "idx" (JStr "8")) +:+ newline +:+
      dumps (JDict [("id", JStr "8")])).
Proof.
  rewrite (proj1 (create_es_actions_of_concatenation "idx" [doc7] [doc_of_id 8])
             _ _ ltac:(discriminate) ltac:(discriminate) eq_refl eq_refl).
  reflexivity.
Defined.

(** X6: whatever the documents hold, a batch that [create_es_actions]
    returns is made of printable ASCII characters and line feeds, and its
    line feeds are the separators of its lines: no line holds one. *)
Theorem create_es_actions_is_ascii_lines :
  forall (index_name : string) (rows : list pydict) (out : string),
    create_es_actions index_name rows = Ok out ->
    all_chars printable_or_LF out = true /\
    exists lines,
      out = String.concat newline lines /\
      length lines = (2 * length rows)%nat /\
      Forall (fun l => all_chars printable l = true /\ has_LF l = false) lines.
Proof.
  intros index_name rows out H. unfold create_es_actions in H.
  destruct (results_ index_name rows) as [rs|e] eqn:E; simpl in H; [|discriminate].
  injection H as <-.
  assert (Hlines : Forall (fun l => all_chars printable l = true /\ has_LF l = false)
                     (map dumps (chain rs))).
  { apply Forall_map. apply Forall_forall. intros v _. cbn [compose].
    split; [apply dumps_printable | apply dumps_no_LF]. }
  split.
  - apply all_chars_concat; [reflexivity|].
    eapply Forall_impl; [exact Hlines|]. intros l [Hl _].
    apply (all_chars_impl printable); [|exact Hl].
    intros c Hc. unfold printable_or_LF. now rewrite Hc.
  - exists (map dumps (chain rs)). split; [reflexivity|]. split; [|exact Hlines].
    rewrite length_map. unfold chain. rewrite (flat_map_pair_length _ rs) by reflexivity.
    now rewrite (results_length _ _ _ E).
Qed.

Lemma create_es_actions_is_ascii_lines_witness :
  all_chars printable_or_LF
    (String.concat newline (flat_map (action_lines "idx") [doc7; doc_of_id 8])) = true.
Proof.
  exact (proj1 (create_es_actions_is_ascii_lines "idx" [doc7; doc_of_id 8] _ eq_refl)).
Defined.

(** ** What the runs never do *)

(** X7: no run of [migrate], blocking or asyncio, finished or not, calls
    Redis or changes what Redis holds. *)
Theorem migrate_leaves_redis_alone :
  forall env refresh fuel index_name mapping s,
    forallb not_redis (Solr2Es.migrate env refresh fuel index_name mapping s).1.1 = true /\
    redis (Solr2Es.migrate env refresh fuel index_name mapping s).1.2 = redis s /\
    forallb not_redis (Solr2EsAsync.migrate env refresh fuel index_name s).1.1 = true /\
    redis (Solr2EsAsync.migrate env refresh fuel index_name s).1.2 = redis s.
Proof.
  intros env refresh fuel index_name mapping s.
  destruct (Solr2Es.migrate env refresh fuel index_name mapping s) as [[t s'] o] eqn:E.
  destruct (Solr2EsAsync.migrate env refresh fuel index_name s) as [[t2 s2] o2] eqn:E2.
  destruct (confined_migrate_redis _ _ _ _ _ _ _ _ _ E) as [Ht Hs].
  destruct (confined_async_migrate_redis _ _ _ _ _ _ _ _ E2) as [Ht2 Hs2].
  simpl. repeat split; assumption.
Qed.

(** X8: no run of a dump, blocking or asyncio, finished or not, calls
    Elasticsearch; it keeps the other keys of Redis as they were, and what
    the queue held stays in it, below what the run has pushed. *)
Theorem dump_only_grows_the_queue :
  forall env fuel solrurl redishost s,
    forallb not_es (dump_into_redis env fuel solrurl redishost s).1.1 = true /\
    queue_grew s (dump_into_redis env fuel solrurl redishost s).1.2 /\
    forallb not_es (aiodump_into_redis env fuel solrurl redishost s).1.1 = true /\
    queue_grew s (aiodump_into_redis env fuel solrurl redishost s).1.2.
Proof.
  intros env fuel solrurl redishost s.
  destruct (dump_into_redis env fuel solrurl redishost s) as [[t s'] o] eqn:E.
  destruct (aiodump_into_redis env fuel solrurl redishost s) as [[t2 s2] o2] eqn:E2.
  destruct (confined_dump _ _ _ _ _ _ _ _ E) as [Ht Hs].
  destruct (confined_aiodump _ _ _ _ _ _ _ _ E2) as [Ht2 Hs2].
  simpl. repeat split; try assumption; try apply Hs; try apply Hs2.
Qed.

(** ** Failures on the other paths *)

(** X9: in a run of the asyncio [migrate], a call that a collaborator
    answers with an exception is the last event of the run, and the run
    ends with that exception rather than with a count. *)
Theorem async_migrate_aborts_at_first_failed_call :
  forall env refresh fuel index_name s t s' o,
    Solr2EsAsync.migrate env refresh fuel index_name s = (t, s', o) ->
    forall pre ev post e,
      t = pre ++ ev :: post ->
      call_error env (searches s + searches_in pre) (bulks s + bulks_in pre) ev = Some e ->
      post = [] /\ o = Raised e.
Proof.
  intros env refresh fuel index_name s t s' o Hrun pre ev post e Ht Herr.
  destruct (fail_stop_async_migrate env refresh fuel index_name _ _ _ _ Hrun)
    as (_ & _ & Hstop).
  exact (Hstop _ _ _ _ Ht Herr).
Qed.

Lemma async_migrate_aborts_witness :
  call_error env_bulk_down 1 0 (bulk_write false "idx" (Build_solr_page page10 "A" 10))
    = Some (DestinationError "timeout") /\
  bulk_down_run.2 = Raised (DestinationError "timeout").
Proof.
  split; [reflexivity|].
  refine (proj2 (async_migrate_aborts_at_first_failed_call
            env_bulk_down false 5 "idx" initial_state
            bulk_down_run.1.1 bulk_down_run.1.2 bulk_down_run.2 _
            (removelast bulk_down_run.1.1)
            (bulk_write false "idx" (Build_solr_page page10 "A" 10)) []
            (DestinationError "timeout") _ _)).
  - vm_compute. reflexivity.
  - vm_compute. reflexivity.
  - vm_compute. reflexivity.
Defined.

(** X10: in a run of a dump, blocking or asyncio, a page fetch or a push
    that fails is the last event of the run, and the run ends with that
    exception. *)
Theorem dump_aborts_at_first_failed_call :
  forall env fuel solrurl redishost s pre ev post e,
    call_error env (searches s + searches_in pre) (bulks s + bulks_in pre) ev = Some e ->
    (forall t s' o,
       dump_into_redis env fuel solrurl redishost s = (t, s', o) ->
       t = pre ++ ev :: post -> post = [] /\ o = Raised e) /\
    (forall t s' o,
       aiodump_into_redis env fuel solrurl redishost s = (t, s', o) ->
       t = pre ++ ev :: post -> post = [] /\ o = Raised e).
Proof.
  intros env fuel solrurl redishost s pre ev post e Herr. split.
  - intros t s' o Hrun Ht.
    destruct (fail_stop_dump env fuel solrurl redishost _ _ _ _ Hrun) as (_ & _ & Hstop).
    exact (Hstop _ _ _ _ Ht Herr).
  - intros t s' o Hrun Ht.
    destruct (fail_stop_aiodump env fuel solrurl redishost _ _ _ _ Hrun) as (_ & _ & Hstop).
    exact (Hstop _ _ _ _ Ht Herr).
Qed.

Lemma dump_aborts_witness :
  queue_down_run.2 = Raised (QueueError "connection refused") /\
  queue QUEUE_KEY queue_down_run.1.2 = [].
Proof.
  split; [|reflexivity].
  refine (proj2 (proj1 (dump_aborts_at_first_failed_call
            env_queue_down 5 "solr" "redis" initial_state
            (removelast queue_down_run.1.1)
            (RedisLpush QUEUE_KEY (serialize_page page10)) []
            (QueueError "connection refused") _)
          queue_down_run.1.1 queue_down_run.1.2 queue_down_run.2 _ _)).
  - reflexivity.
  - vm_compute. reflexivity.
  - vm_compute. reflexivity.
Defined.

(** ** Provisioning *)

(** X11: the blocking [migrate] starts by asking whether the index exists.
    If the question fails the run ends there; if the index exists it is
    never created nor changed; if it does not, it is created next, with the
    mapping given, and a failure of the creation ends the run before any
    page is fetched.  Nothing touches the index settings afterwards. *)
Theorem migrate_provisions_the_index_first :
  forall env refresh fuel index_name mapping s,
    let run := Solr2Es.migrate env refresh fuel index_name mapping s in
    match es_indices_exists env index_name with
    | Raise e => run = ([IndicesExists index_name], s, Raised e)
    | Ok true =>
        exists t, run.1.1 = IndicesExists index_name :: t /\
                  forallb not_provisioning t = true
    | Ok false =>
        match es_indices_create env index_name mapping with
        | Raise e =>
            run = ([IndicesExists index_name; IndicesCreate index_name mapping], s, Raised e)
        | Ok _ =>
            exists t, run.1.1 = IndicesExists index_name :: IndicesCreate index_name mapping :: t /\
                      forallb not_provisioning t = true
        end
    end.
Proof.
  intros env refresh fuel index_name mapping s run. unfold run, Solr2Es.migrate.
  destruct (es_indices_exists env index_name) as [found|e] eqn:Hexists.
  2:{ apply bind_raised. unfold indices_exists. now rewrite Hexists. }
  rewrite (bind_returned _ _ s s [IndicesExists index_name] found)
    by (unfold indices_exists; now rewrite Hexists).
  destruct found; cbn [negb].
  - rewrite (bind_returned _ _ s s [] tt) by reflexivity.
    match goal with |- context [?m s] => destruct (m s) as [[t s'] o] eqn:E end.
    destruct (confined_migrate_loop_provisioning _ _ _ _ _ _ _ _ E) as [Ht _].
    exists t. split; [reflexivity | exact Ht].
  - destruct (es_indices_create env index_name mapping) as [[]|e] eqn:Hcreate.
    + rewrite (bind_returned _ _ s s [IndicesCreate index_name mapping] tt)
        by (unfold indices_create; now rewrite Hcreate).
      match goal with |- context [?m s] => destruct (m s) as [[t s'] o] eqn:E end.
      destruct (confined_migrate_loop_provisioning _ _ _ _ _ _ _ _ E) as [Ht _].
      exists t. split; [reflexivity | exact Ht].
    + rewrite (bind_raised _ _ s s [IndicesCreate index_name mapping] e)
        by (unfold indices_create; now rewrite Hcreate).
      reflexivity.
Qed.

(** ** Whole runs *)

(** X12: when the index is there or can be created, the source serves [K]
    pages and then repeats the cursor, every page is transformed and every
    bulk write answered, the blocking [migrate] returns: it has asked the
    source [K + 1] times and written each page once, in order, each in one
    bulk write of its whole batch; its last act is to log the count it
    returns, which is at most the number of documents read, and equal to it
    when no bulk response reports an error. *)
Theorem migrate_writes_each_page_once :
  forall env refresh fuel index_name mapping found pages last s,
    es_indices_exists env index_name = Ok found ->
    (found = false -> es_indices_create env index_name mapping = Ok tt) ->
    accepts_bulks env index_name ->
    serves env (searches s) "*" pages last ->
    progress_defined 10000 pager_start pages ->
    Forall (fun p => transforms index_name (docs p)) pages ->
    (length pages < fuel)%nat ->
    exists t s' n,
      Solr2Es.migrate env refresh fuel index_name mapping s
        = (t ++ [Log INFO FMT_PROCESSED [ArgInt n]], s', Returned n) /\
      searches_in t = S (length pages) /\
      List.filter is_bulk t = map (bulk_write refresh index_name) pages /\
      n <= documents_read pages /\
      (never_reports_errors env index_name -> n = documents_read pages).
Proof.
  intros env refresh fuel index_name mapping found pages last s
    Hexists Hcreate Haccepts Hserves Hdefined Htransforms Hfuel.
  rewrite (migrate_whole_run env refresh index_name last pages fuel s Hfuel Hserves
             Hdefined Haccepts Htransforms mapping found Hexists Hcreate).
  exists (IndicesExists index_name
            :: (if found then [] else [IndicesCreate index_name mapping])
            ++ (migrate_run env refresh index_name last pages s).1.1).
  eexists. eexists. split; [|split; [|split; [|split]]].
  - cbn [app]. now rewrite app_assoc.
  - destruct found; simpl; rewrite ?migrate_run_searches; reflexivity.
  - unfold migrate_run.
    destruct found; simpl; apply migrate_run_bulk_writes.
  - unfold migrate_run. etransitivity; [apply migrate_run_count_le|]. lia.
  - intros Hclean. unfold migrate_run.
    rewrite (sync_async_same_count env refresh index_name last pages Hclean).
    rewrite async_run_count. lia.
Qed.

Lemma migrate_writes_each_page_once_witness :
  (Solr2Es.migrate (healthy search_10_10_5) false 5 "idx" None initial_state).2
    = Returned 25.
Proof.
  destruct (migrate_writes_each_page_once (healthy search_10_10_5) false 5 "idx" None true
              pages_10_10_5 page_end_25 initial_state)
    as (t & s' & n & Hrun & _ & _ & _ & Hn).
  - reflexivity.
  - discriminate.
  - intros k body. reflexivity.
  - cbn [serves pages_10_10_5]. repeat split; try reflexivity; vm_compute; discriminate.
  - cbn [progress_defined pages_10_10_5]. repeat split; intros _; vm_compute; discriminate.
  - repeat (apply Forall_cons; split; [vm_compute; reflexivity|]). constructor.
  - simpl. lia.
  - rewrite Hrun. cbn [snd]. f_equal. rewrite Hn; [reflexivity|].
    intros k body response H. injection H as <-. reflexivity.
Defined.

(** X13: under the same conditions on the source and the bulk writes, the
    asyncio [migrate] returns the number of documents read, whatever the
    bulk responses report: it neither asks for nor creates the index, asks
    the source [K + 1] times, writes each page once, in order, and its
    generator ends by logging the number of documents read. *)
Theorem async_migrate_counts_the_documents_read :
  forall env refresh fuel index_name pages last s,
    accepts_bulks env index_name ->
    serves env (searches s) "*" pages last ->
    progress_defined 10000 pager_start pages ->
    Forall (fun p => transforms index_name (docs p)) pages ->
    (length pages < fuel)%nat ->
    exists t s',
      Solr2EsAsync.migrate env refresh fuel index_name s
        = (t ++ [Log INFO FMT_PROCESSED [ArgInt (documents_read pages)]], s',
           Returned (documents_read pages)) /\
      searches_in t = S (length pages) /\
      List.filter is_bulk t = map (bulk_write refresh index_name) pages /\
      forallb not_provisioning t = true.
Proof.
  intros env refresh fuel index_name pages last s Haccepts Hserves Hdefined Htransforms Hfuel.
  pose proof (async_migrate_whole_run env refresh index_name last pages fuel s Hfuel
                Hserves Hdefined Haccepts Htransforms) as Hrun.
  destruct (async_run_last_event refresh index_name last pages pager_start 0 s) as [t Ht].
  unfold async_migrate_run in Hrun. rewrite async_run_count, Ht in Hrun.
  simpl in Hrun. exists t. eexists. split; [exact Hrun|].
  pose proof (pager_run_searches 10000 processed_event
                (async_page_events refresh index_name) migrate_page_state async_page_value
                last (fun _ _ _ => eq_refl) (fun _ => eq_refl) pages pager_start 0 s) as Hs.
  pose proof (async_run_bulk_writes refresh index_name last pages pager_start 0 s) as Hb.
  destruct (confined_async_migrate_provisioning _ _ _ _ _ _ _ _ Hrun) as [Hp _].
  rewrite Ht in Hs, Hb. rewrite searches_in_app in Hs. rewrite List.filter_app in Hb.
  rewrite forallb_app in Hp. simpl in *. rewrite app_nil_r in Hb.
  apply andb_true_iff in Hp as [Hp _].
  repeat split; [lia | exact Hb | exact Hp].
Qed.

Lemma async_migrate_counts_witness :
  (Solr2EsAsync.migrate env_25_second_write_fails_twice false 5 "idx" initial_state).2
    = Returned 25.
Proof.
  destruct (async_migrate_counts_the_documents_read env_25_second_write_fails_twice false 5
              "idx" pages_10_10_5 page_end_25 initial_state)
    as (t & s' & Hrun & _).
  - intros [|[|k]] body; reflexivity.
  - cbn [serves pages_10_10_5]. repeat split; try reflexivity; vm_compute; discriminate.
  - cbn [progress_defined pages_10_10_5]. repeat split; intros _; vm_compute; discriminate.
  - repeat (apply Forall_cons; split; [vm_compute; reflexivity|]). constructor.
  - simpl. lia.
  - rewrite Hrun. reflexivity.
Defined.



(** X15: on a source and a destination on which the blocking [migrate]
    returns, the asyncio [migrate] returns too; the two make the same bulk
    writes in the same order, the blocking count is never above the asyncio
    count, and the two counts are equal when no bulk response reports an
    error. *)
Theorem blocking_and_asyncio_migrate_agree :
  forall env refresh fuel index_name mapping found pages last s,
    es_indices_exists env index_name = Ok found ->
    (found = false -> es_indices_create env index_name mapping = Ok tt) ->
    accepts_bulks env index_name ->
    serves env (searches s) "*" pages last ->
    progress_defined 10000 pager_start pages ->
    Forall (fun p => transforms index_name (docs p)) pages ->
    (length pages < fuel)%nat ->
    exists t1 s1 n1 t2 s2 n2,
      Solr2Es.migrate env refresh fuel index_name mapping s = (t1, s1, Returned n1) /\
      Solr2EsAsync.migrate env refresh fuel index_name s = (t2, s2, Returned n2) /\
      List.filter is_bulk t1 = List.filter is_bulk t2 /\
      n1 <= n2 /\
      (never_reports_errors env index_name -> n1 = n2).
Proof.
  intros env refresh fuel index_name mapping found pages last s
    Hexists Hcreate Haccepts Hserves Hdefined Htransforms Hfuel.
  rewrite (migrate_whole_run env refresh index_name last pages fuel s Hfuel Hserves
             Hdefined Haccepts Htransforms mapping found Hexists Hcreate).
  rewrite (async_migrate_whole_run env refresh index_name last pages fuel s Hfuel
             Hserves Hdefined Haccepts Htransforms).
  do 6 eexists. split; [reflexivity|]. split; [reflexivity|].
  unfold migrate_run, async_migrate_run. split; [|split].
  - rewrite async_run_bulk_writes.
    destruct found; cbn [app List.filter is_bulk]; rewrite List.filter_app;
      rewrite migrate_run_bulk_writes; cbn [List.filter is_bulk]; now rewrite app_nil_r.
  - rewrite async_run_count. apply migrate_run_count_le.
  - intros Hclean. now apply sync_async_same_count.
Qed.

Lemma blocking_and_asyncio_migrate_agree_witness :
  (Solr2Es.migrate (healthy search_10_10_5) false 5 "idx" None initial_state).2
  = (Solr2EsAsync.migrate (healthy search_10_10_5) false 5 "idx" initial_state).2.
Proof.
  destruct (blocking_and_asyncio_migrate_agree (healthy search_10_10_5) false 5 "idx" None
              true pages_10_10_5 page_end_25 initial_state)
    as (t1 & s1 & n1 & t2 & s2 & n2 & H1 & H2 & _ & _ & Heq).
  - reflexivity.
  - discriminate.
  - intros k body. reflexivity.
  - cbn [serves pages_10_10_5]. repeat split; try reflexivity; vm_compute; discriminate.
  - cbn [progress_defined pages_10_10_5]. repeat split; intros _; vm_compute; discriminate.
  - repeat (apply Forall_cons; split; [vm_compute; reflexivity|]). constructor.
  - simpl. lia.
  - rewrite H1, H2. cbn [snd]. f_equal. apply Heq.
    intros k body response H. injection H as <-. reflexivity.
Defined.

(** ** Runs that do not end, and the progress line *)

(** X16: the loop has no bound of its own.  As long as the source keeps
    answering with a cursor that differs from the one sent (and the pages
    are transformed and written), the blocking [migrate] goes on: after as
    many requests as one cares to wait for, one per page, it has not
    returned. *)
Theorem migrate_runs_on_while_the_cursor_moves :
  forall env refresh index_name mapping found pages s,
    es_indices_exists env index_name = Ok found ->
    (found = false -> es_indices_create env index_name mapping = Ok tt) ->
    accepts_bulks env index_name ->
    keeps_moving env (searches s) "*" pages ->
    progress_defined 10000 pager_start pages ->
    Forall (fun p => transforms index_name (docs p)) pages ->
    exists t s',
      Solr2Es.migrate env refresh (length pages) index_name mapping s = (t, s', Running) /\
      searches s' = (searches s + length pages)%nat.
Proof.
  intros env refresh index_name mapping found pages s
    Hexists Hcreate Haccepts Hmoves Hdefined Htransforms.
  destruct (for_in_pager_running env 10000 (fun _ => ret tt)
              (Solr2Es.migrate_page env refresh index_name) (transforms index_name)
              (fun a b s0 Ha => migrate_page_returns env refresh index_name a b s0 Haccepts Ha)
              pages pager_start 0 s Hmoves Hdefined Htransforms)
    as (t & s' & Hrun & Hs').
  unfold Solr2Es.migrate.
  rewrite (bind_returned _ _ s s [IndicesExists index_name] found)
    by (unfold indices_exists; now rewrite Hexists).
  assert (Hprov : exists tp,
            (if negb found then indices_create env index_name mapping else ret tt) s
            = (tp, s, Returned tt)).
  { destruct found; cbn [negb].
    - now exists [].
    - exists [IndicesCreate index_name mapping]. unfold indices_create.
      now rewrite Hcreate. }
  destruct Hprov as [tp Hprov].
  rewrite (bind_returned _ _ s s tp tt Hprov).
  unfold Solr2Es.produce_results_next.
  rewrite (bind_running _ _ s s' t Hrun). cbn [fst snd].
  eexists. eexists. split; [reflexivity | exact Hs'].
Qed.

Lemma migrate_runs_on_witness :
  (Solr2Es.migrate env_endless false 3 "idx" None initial_state).2 = Running.
Proof.
  destruct (migrate_runs_on_while_the_cursor_moves env_endless false "idx" None true
              [endless_page 0; endless_page 1; endless_page 2] initial_state)
    as (t & s' & Hrun & _).
  - reflexivity.
  - discriminate.
  - intros k body. reflexivity.
  - cbn [keeps_moving]. repeat split; try reflexivity; vm_compute; discriminate.
  - cbn [progress_defined]. repeat split; intros _; vm_compute; discriminate.
  - repeat (apply Forall_cons; split; [vm_compute; reflexivity|]). constructor.
  - cbn [length] in Hrun. rewrite Hrun. reflexivity.
Defined.

(** X17: when a page moves the cursor and brings the number of documents
    read to a multiple of 10000 (zero included) while the total recorded
    from the first page is zero, the generator, blocking or asyncio, raises
    [ZeroDivisionError] while building the progress line: the page is not
    yielded, so it is neither written nor queued. *)
Theorem produce_results_divides_by_the_total :
  forall env g s p,
    solr_search env (searches s) (cursorMark g) = Ok p ->
    nextCursorMark p <> cursorMark g ->
    (nb_results g + len (docs p)) mod 10000 = 0 ->
    (if String.eqb (cursorMark g) "*" then hits p else nb_total g) = 0 ->
    Solr2Es.produce_results_next env g s
      = (SolrSearch (cursorMark g) :: found_events g p, after_search s,
         Raised ZeroDivisionError) /\
    Solr2EsAsync.produce_results_next env g s
      = (SolrSearch (cursorMark g) :: found_events g p, after_search s,
         Raised ZeroDivisionError).
Proof.
  intros env g s p Hsearch Hnext Hmod Hzero.
  split; apply produce_results_step_zero_division; assumption.
Qed.

Lemma produce_results_divides_witness :
  Solr2Es.produce_results_next env_no_hits pager_start initial_state
  = ([SolrSearch "*"; Log INFO FMT_FOUND [ArgInt 0]], after_search initial_state,
     Raised ZeroDivisionError).
Proof.
  refine (proj1 (produce_results_divides_by_the_total env_no_hits pager_start
                   initial_state page_no_hits _ _ _ _)).
  - reflexivity.
  - discriminate.
  - reflexivity.
  - reflexivity.
Defined.

(** X18: what decides whether the generator yields is the cursor alone.  An
    answer that repeats the cursor ends the generator, and the documents it
    carries, if any, are dropped; an answer with a new cursor is yielded,
    documents and all, even when it has no document. *)
Theorem produce_results_yields_on_a_new_cursor :
  forall env g s p,
    solr_search env (searches s) (cursorMark g) = Ok p ->
    (nextCursorMark p = cursorMark g ->
       Solr2Es.produce_results_next env g s
         = (SolrSearch (cursorMark g) :: found_events g p, after_search s, Returned None) /\
       Solr2EsAsync.produce_results_next env g s
         = (SolrSearch (cursorMark g) :: found_events g p
              ++ [Log INFO FMT_PROCESSED [ArgInt (nb_results g)]],
            after_search s, Returned None)) /\
    (nextCursorMark p <> cursorMark g ->
       forall t s' r,
         (Solr2Es.produce_results_next env g s = (t, s', Returned r) \/
          Solr2EsAsync.produce_results_next env g s = (t, s', Returned r)) ->
         r = Some (docs p, advance g p)).
Proof.
  intros env g s p Hsearch. split.
  - intros Hnext. split.
    + unfold Solr2Es.produce_results_next.
      rewrite (produce_results_step_stop env 10000 _ g s p no_end_events) by auto.
      unfold no_end_events. now rewrite app_nil_r.
    + unfold Solr2EsAsync.produce_results_next.
      now rewrite (produce_results_step_stop env 10000 _ g s p processed_event) by auto.
  - intros Hnext t s' r [Hrun|Hrun];
      apply (produce_results_step_yields_iff env 10000 _ g s p t s' r Hsearch Hrun);
      exact Hnext.
Qed.

Lemma produce_results_yields_witness :
  (Solr2Es.produce_results_next env_two_failures pager_start initial_state).2
  = Returned (Some (page10, advance pager_start (Build_solr_page page10 "A" 10))).
Proof.
  destruct (Solr2Es.produce_results_next env_two_failures pager_start initial_state)
    as [[t s'] [r|e|]] eqn:E.
  - cbn [snd]. f_equal.
    exact (proj2 (produce_results_yields_on_a_new_cursor env_two_failures pager_start
                    initial_state (Build_solr_page page10 "A" 10) eq_refl)
             ltac:(discriminate) t s' r (or_introl E)).
  - vm_compute in E. discriminate.
  - vm_compute in E. discriminate.
Defined.

(** ** The package module *)

(** X19: the [migrate] of the package module ([solr2es/__init__.py]), in
    its blocking and in its asyncio class, returns on every source that
    ends by repeating a cursor, whatever number of hits the source reports:
    it sends a request and writes the page, page after page, sends one last
    request, logs nothing, neither asks for nor creates the index, leaves
    Redis as it is and returns the number of documents read. *)
Theorem package_migrate_returns_the_documents_read :
  forall env refresh fuel index_name pages last s,
    accepts_bulks env index_name ->
    serves env (searches s) "*" pages last ->
    Forall (fun p => transforms index_name (docs p)) pages ->
    (length pages < fuel)%nat ->
    exists s',
      Package.Solr2Es.migrate env refresh fuel index_name s
        = (package_trace refresh index_name "*" pages, s',
           Returned (documents_read pages)) /\
      Package.Solr2EsAsync.migrate env refresh fuel index_name s
        = (package_trace refresh index_name "*" pages, s',
           Returned (documents_read pages)) /\
      searches s' = (searches s + S (length pages))%nat /\
      bulks s' = (bulks s + length pages)%nat /\
      redis s' = redis s.
Proof.
  intros env refresh fuel index_name pages last s Haccepts Hserves Htransforms Hfuel.
  destruct (package_migrate_loop_run env refresh index_name last Haccepts pages fuel "*" 0 s
              Hfuel Hserves Htransforms) as (s' & Hrun & Hs & Hb & Hr).
  exists s'. split; [exact Hrun|]. split; [|repeat split; assumption].
  unfold Package.Solr2EsAsync.migrate.
  rewrite (package_async_loop_eq env refresh index_name fuel "*" 0). exact Hrun.
Qed.

Lemma package_migrate_returns_witness :
  (Package.Solr2Es.migrate env_no_hits false 2 "idx" initial_state).2 = Returned 0.
Proof.
  destruct (package_migrate_returns_the_documents_read env_no_hits false 2 "idx"
              [page_no_hits] page_no_hits initial_state) as (s' & Hrun & _).
  - intros k body. reflexivity.
  - cbn [serves]. repeat split; try reflexivity. vm_compute. discriminate.
  - apply Forall_cons; split; [vm_compute; reflexivity | constructor].
  - simpl. lia.
  - rewrite Hrun. reflexivity.
Defined.

(** X20: where the asyncio [migrate] of [solr2es.py] returns, the asyncio
    [migrate] of the package returns the same count, and its calls are those
    of the former, in the same order: the two runs differ by the log lines
    only. *)
Theorem asyncio_migrate_is_the_package_migrate_with_logs :
  forall env refresh fuel index_name pages last s,
    accepts_bulks env index_name ->
    serves env (searches s) "*" pages last ->
    progress_defined 10000 pager_start pages ->
    Forall (fun p => transforms index_name (docs p)) pages ->
    (length pages < fuel)%nat ->
    exists t s1 s2 n,
      Solr2EsAsync.migrate env refresh fuel index_name s = (t, s1, Returned n) /\
      Package.Solr2EsAsync.migrate env refresh fuel index_name s
        = (List.filter not_log t, s2, Returned n).
Proof.
  intros env refresh fuel index_name pages last s Haccepts Hserves Hdefined Htransforms Hfuel.
  rewrite (async_migrate_whole_run env refresh index_name last pages fuel s Hfuel
             Hserves Hdefined Haccepts Htransforms).
  destruct (package_migrate_loop_run env refresh index_name last Haccepts pages fuel "*" 0 s
              Hfuel Hserves Htransforms) as (s' & Hrun & _).
  unfold Package.Solr2EsAsync.migrate.
  rewrite (package_async_loop_eq env refresh index_name fuel "*" 0), Hrun.
  do 4 eexists. split; [reflexivity|].
  unfold async_migrate_run. rewrite async_run_without_logs, async_run_count.
  reflexivity.
Qed.

Lemma asyncio_migrate_is_the_package_migrate_witness :
  (Package.Solr2EsAsync.migrate (healthy search_10_10_5) false 5 "idx" initial_state).2
  = (Solr2EsAsync.migrate (healthy search_10_10_5) false 5 "idx" initial_state).2.
Proof.
  destruct (asyncio_migrate_is_the_package_migrate_with_logs (healthy search_10_10_5) false 5
              "idx" pages_10_10_5 page_end_25 initial_state)
    as (t & s1 & s2 & n & H1 & H2).
  - intros k body. reflexivity.
  - cbn [serves pages_10_10_5]. repeat split; try reflexivity; vm_compute; discriminate.
  - cbn [progress_defined pages_10_10_5]. repeat split; intros _; vm_compute; discriminate.
  - repeat (apply Forall_cons; split; [vm_compute; reflexivity|]). constructor.
  - simpl. lia.
  - rewrite H1, H2. reflexivity.
Defined.

(** ** The command line *)

(** X21: the [__main__] block prints the usage and leaves, before any
    action, exactly when the program is called without argument or when one
    of the options, wherever it stands, is [-h] or [--help]. *)
Theorem usage_on_help_or_no_argument :
  forall prog args options lines,
    Main.select (prog :: args) options = Ok (Main.Exit lines) <->
    Main.usage (prog :: args) = Ok lines /\
    (args = [] \/ existsb Main.is_help options = true).
Proof.
  intros prog args options lines. unfold Main.select. destruct args as [|a args].
  - cbn. split.
    + intros H. injection H as <-. split; [reflexivity | now left].
    + intros [H _]. injection H as <-. reflexivity.
  - cbn [length Nat.eqb].
    destruct (Main.read_options Main.defaults options) as [st|] eqn:E.
    + split; [discriminate|]. intros [_ [H|H]]; [discriminate|].
      apply (read_options_help Main.defaults) in H. congruence.
    + apply read_options_help in E. cbn. split.
      * intros H. injection H as <-. split; [reflexivity | now right].
      * intros [H _]. injection H as <-. reflexivity.
Qed.

(** X22: when the block goes on to the action, the action is one of
    [migrate], [dump] and [resume], so that one of the three branches of the
    last statement runs, and the asyncio variant is taken exactly when one
    of the options is [-a] or [--async]. *)
Theorem selected_action_is_known :
  forall argv options st,
    Main.select argv options = Ok (Main.Selected st) ->
    (Main.action st = "migrate" \/ Main.action st = "dump" \/ Main.action st = "resume") /\
    Main.with_asyncio st = existsb Main.is_async options.
Proof.
  intros argv options st H. unfold Main.select in H.
  destruct (Nat.eqb (length argv) 1).
  - destruct (Main.usage argv); discriminate.
  - destruct (Main.read_options Main.defaults options) as [st'|] eqn:E.
    + injection H as <-. split.
      * apply (read_options_action_known options Main.defaults st' E). now left.
      * apply (read_options_async options Main.defaults st' E).
    + destruct (Main.usage argv); discriminate.
Qed.

Lemma selected_action_is_known_witness :
  Main.with_asyncio
    {| Main.with_asyncio := true; Main.solrurl := Main.solrurl Main.defaults;
       Main.esurl := Main.esurl Main.defaults; Main.redishost := "queue";
       Main.index_name := Main.index_name Main.defaults; Main.action := "dump" |}
  = existsb Main.is_async [("-a", EmptyString); ("--redishost", "queue"); ("-d", EmptyString)].
Proof.
  apply (selected_action_is_known ["solr2es.py"; "-a"; "--redishost"; "queue"; "-d"]
           [("-a", EmptyString); ("--redishost", "queue"); ("-d", EmptyString)]).
  reflexivity.
Defined.

(** X23: among the options that name an action, the last one decides; and
    among the occurrences of [--solrurl], [--esurl], [--redishost] and
    [--index], the last one gives the value. *)
Theorem last_option_decides :
  forall argv before o after st,
    Main.select argv (before ++ o :: after) = Ok (Main.Selected st) ->
    (Main.is_action_option o = true ->
     forallb (fun o' => negb (Main.is_action_option o')) after = true ->
     Main.action st = Main.action_of o) /\
    (String.eqb (fst o) "--solrurl" = true ->
     forallb (fun o' => negb (String.eqb (fst o') "--solrurl")) after = true ->
     Main.solrurl st = snd o) /\
    (String.eqb (fst o) "--esurl" = true ->
     forallb (fun o' => negb (String.eqb (fst o') "--esurl")) after = true ->
     Main.esurl st = snd o) /\
    (String.eqb (fst o) "--redishost" = true ->
     forallb (fun o' => negb (String.eqb (fst o') "--redishost")) after = true ->
     Main.redishost st = snd o) /\
    (String.eqb (fst o) "--index" = true ->
     forallb (fun o' => negb (String.eqb (fst o') "--index")) after = true ->
     Main.index_name st = snd o).
Proof.
  intros argv before o after st H. unfold Main.select in H.
  destruct (Nat.eqb (length argv) 1); [destruct (Main.usage argv); discriminate|].
  destruct (Main.read_options Main.defaults (before ++ o :: after)) as [st'|] eqn:E;
    [|destruct (Main.usage argv); discriminate].
  injection H as <-.
  split; [|split; [|split; [|split]]]; intros Ho Hafter.
  - apply (read_options_last Main.action Main.is_action_option Main.action_of before after o)
      with (st := Main.defaults); try assumption.
    intros s1 s2 o' H'. apply (read_option_inv _ _ _ H').
  - apply (read_options_last Main.solrurl (fun o' => String.eqb (fst o') "--solrurl") snd
             before after o) with (st := Main.defaults); try assumption.
    intros s1 s2 o' H'. apply (read_option_inv _ _ _ H').
  - apply (read_options_last Main.esurl (fun o' => String.eqb (fst o') "--esurl") snd
             before after o) with (st := Main.defaults); try assumption.
    intros s1 s2 o' H'. apply (read_option_inv _ _ _ H').
  - apply (read_options_last Main.redishost (fun o' => String.eqb (fst o') "--redishost") snd
             before after o) with (st := Main.defaults); try assumption.
    intros s1 s2 o' H'. apply (read_option_inv _ _ _ H').
  - apply (read_options_last Main.index_name (fun o' => String.eqb (fst o') "--index") snd
             before after o) with (st := Main.defaults); try assumption.
    intros s1 s2 o' H'. apply (read_option_inv _ _ _ H').
Qed.

Lemma last_option_decides_witness :
  Main.action
    {| Main.with_asyncio := false; Main.solrurl := Main.solrurl Main.defaults;
       Main.esurl := Main.esurl Main.defaults; Main.redishost := Main.redishost Main.defaults;
       Main.index_name := "books"; Main.action := "resume" |}
  = "resume".
Proof.
  apply (last_option_decides ["solr2es.py"; "-d"; "-r"; "--index"; "books"]
           [("-d", EmptyString)] ("-r", EmptyString) [("--index", "books")]);
    reflexivity.
Defined.

(** X24: a variable no option sets keeps its default: without an option
    that names an action the block migrates, and the two urls, the Redis
    host and the index name are those the usage announces. *)
Theorem options_not_given_keep_the_defaults :
  forall argv options st,
    Main.select argv options = Ok (Main.Selected st) ->
    (forallb (fun o => negb (Main.is_action_option o)) options = true ->
     Main.action st = "migrate") /\
    (forallb (fun o => negb (String.eqb (fst o) "--solrurl")) options = true ->
     Main.solrurl st = "http://solr:8983/solr/my_core") /\
    (forallb (fun o => negb (String.eqb (fst o) "--esurl")) options = true ->
     Main.esurl st = "elasticsearch:9200") /\
    (forallb (fun o => negb (String.eqb (fst o) "--redishost")) options = true ->
     Main.redishost st = "redis") /\
    (forallb (fun o => negb (String.eqb (fst o) "--index")) options = true ->
     Main.index_name st = "solr2es").
Proof.
  intros argv options st H. unfold Main.select in H.
  destruct (Nat.eqb (length argv) 1); [destruct (Main.usage argv); discriminate|].
  destruct (Main.read_options Main.defaults options) as [st'|] eqn:E;
    [|destruct (Main.usage argv); discriminate].
  injection H as <-.
  split; [|split; [|split; [|split]]]; intros Hno.
  - apply (read_options_untouched Main.action Main.is_action_option Main.action_of options)
      with (st := Main.defaults); try assumption.
    intros s1 s2 o' H'. apply (read_option_inv _ _ _ H').
  - apply (read_options_untouched Main.solrurl (fun o' => String.eqb (fst o') "--solrurl") snd
             options) with (st := Main.defaults); try assumption.
    intros s1 s2 o' H'. apply (read_option_inv _ _ _ H').
  - apply (read_options_untouched Main.esurl (fun o' => String.eqb (fst o') "--esurl") snd
             options) with (st := Main.defaults); try assumption.
    intros s1 s2 o' H'. apply (read_option_inv _ _ _ H').
  - apply (read_options_untouched Main.redishost
             (fun o' => String.eqb (fst o') "--redishost") snd
             options) with (st := Main.defaults); try assumption.
    intros s1 s2 o' H'. apply (read_option_inv _ _ _ H').
  - apply (read_options_untouched Main.index_name (fun o' => String.eqb (fst o') "--index") snd
             options) with (st := Main.defaults); try assumption.
    intros s1 s2 o' H'. apply (read_option_inv _ _ _ H').
Qed.

Lemma options_not_given_keep_the_defaults_witness :
  Main.index_name
    {| Main.with_asyncio := true; Main.solrurl := Main.solrurl Main.defaults;
       Main.esurl := "es:9200"; Main.redishost := Main.redishost Main.defaults;
       Main.index_name := Main.index_name Main.defaults;
       Main.action := Main.action Main.defaults |}
  = "solr2es".
Proof.
  apply (options_not_given_keep_the_defaults ["solr2es.py"; "--esurl"; "es:9200"; "-a"]
           [("--esurl", "es:9200"); ("-a", EmptyString)]);
    reflexivity.
Defined.

(** X25: whatever the command line, the action the block runs keeps to its
    services.  A [migrate] never calls Redis and leaves what Redis holds; a
    [dump] never calls Elasticsearch and only adds to the queue; a [resume]
    calls nothing at all: it logs and leaves the state as it is.  This holds
    for the blocking and the asyncio variants, and for runs that fail or are
    cut short. *)
Theorem selected_action_keeps_to_its_services :
  forall argv options st env fuel s,
    Main.select argv options = Ok (Main.Selected st) ->
    (Main.action st = "migrate" /\
     forallb not_redis (Main.dispatch env fuel st s).1.1 = true /\
     redis (Main.dispatch env fuel st s).1.2 = redis s) \/
    (Main.action st = "dump" /\
     forallb not_es (Main.dispatch env fuel st s).1.1 = true /\
     queue_grew s (Main.dispatch env fuel st s).1.2) \/
    (Main.action st = "resume" /\
     forallb is_log (Main.dispatch env fuel st s).1.1 = true /\
     (Main.dispatch env fuel st s).1.2 = s).
Proof.
  intros argv options st env fuel s H.
  assert (Hknown : Main.action st = "migrate" \/ Main.action st = "dump"
                   \/ Main.action st = "resume").
  { unfold Main.select in H.
    destruct (Nat.eqb (length argv) 1); [destruct (Main.usage argv); discriminate|].
    destruct (Main.read_options Main.defaults options) as [st'|] eqn:E;
      [|destruct (Main.usage argv); discriminate].
    injection H as <-.
    apply (read_options_action_known options Main.defaults st' E). now left. }
  destruct (Main.dispatch env fuel st s) as [[t s'] o] eqn:E. cbn [fst snd].
  destruct Hknown as [Hact | [Hact | Hact]].
  - left. destruct (confined_dispatch_migrate env fuel st Hact _ _ _ _ E) as [Ht Hs].
    split; [exact Hact | split; [exact Ht | exact Hs]].
  - right. left. destruct (confined_dispatch_dump env fuel st Hact _ _ _ _ E) as [Ht Hs].
    split; [exact Hact | split; [exact Ht | exact Hs]].
  - right. right. destruct (confined_dispatch_resume env fuel st Hact _ _ _ _ E) as [Ht Hs].
    split; [exact Hact | split; [exact Ht | symmetry; exact Hs]].
Qed.

Lemma selected_action_keeps_to_its_services_witness :
  forallb not_es
    (Main.dispatch env_6000_6000 5
       {| Main.with_asyncio := false; Main.solrurl := Main.solrurl Main.defaults;
          Main.esurl := Main.esurl Main.defaults; Main.redishost := Main.redishost Main.defaults;
          Main.index_name := Main.index_name Main.defaults; Main.action := "dump" |}
       initial_state).1.1 = true.
Proof.
  destruct (selected_action_keeps_to_its_services ["solr2es.py"; "-d"] [("-d", EmptyString)]
              {| Main.with_asyncio := false; Main.solrurl := Main.solrurl Main.defaults;
                 Main.esurl := Main.esurl Main.defaults;
                 Main.redishost := Main.redishost Main.defaults;
                 Main.index_name := Main.index_name Main.defaults; Main.action := "dump" |}
              env_6000_6000 5 initial_state eq_refl)
    as [[Hact _] | [[_ [Ht _]] | [Hact _]]].
  - discriminate Hact.
  - exact Ht.
  - discriminate Hact.
Defined.
